(** * AI Math Notes: the drawing surface and its snapshot pipeline

    A shallow embedding of the [Canvas] component (components/Canvas.tsx),
    of the [App] component (App.tsx) with its toolbar, and of the solver
    service (services/geminiService.ts).

    - JavaScript numbers are IEEE 754 binary64 values: [float].
    - JavaScript strings are sequences of UTF-16 code units: [JSString].
    - The canvas bitmap is a list of rows of RGBA pixels.
    - React state ([isDrawing], [isDirty]) and refs ([canvasRef],
      [contextRef]) live in one record; every handler is a computation in
      a small state-and-exception monad over that record. *)

From Stdlib Require Import ZArith NArith Floats Lia String Ascii Bool.
From stdpp Require Import base option list.

Local Open Scope Z_scope.

(* ===================================================================== *)
(** ** JavaScript strings *)
(* ===================================================================== *)

(** A string value: its UTF-16 code units, in order.  The texts the
    program reads, trims, splits, joins and shows are such values; the
    keywords and colours it assigns to canvas attributes, and MIME types,
    stay Rocq strings. *)
Abbreviation JSString := (list N).

(** The string value of a literal written in ASCII. *)
Definition utf16 (literal : string) : JSString :=
  N_of_ascii <$> list_ascii_of_string literal.
Arguments utf16 : simpl never.

(** White space as [String.prototype.trim] strips it: the ECMAScript
    WhiteSpace and LineTerminator code points (TAB, LF, VT, FF, CR, SP,
    NBSP, U+1680, U+2000 to U+200A, LS, PS, U+202F, U+205F, U+3000 and
    the byte order mark), all of them single code units. *)
Definition isWhiteSpace (c : N) : bool :=
  ((9 <=? c) && (c <=? 13)
   || (c =? 32) || (c =? 160) || (c =? 5760)
   || (8192 <=? c) && (c <=? 8202)
   || (c =? 8232) || (c =? 8233) || (c =? 8239) || (c =? 8287)
   || (c =? 12288) || (c =? 65279))%N.

Fixpoint trimStart (s : JSString) : JSString :=
  match s with
  | c :: rest => if isWhiteSpace c then trimStart rest else s
  | [] => []
  end.

Fixpoint trimEnd (s : JSString) : JSString :=
  match s with
  | c :: rest =>
      match trimEnd rest with
      | [] => if isWhiteSpace c then [] else [c]
      | rest' => c :: rest'
      end
  | [] => []
  end.

(** [s.trim()]. *)
Definition trim (s : JSString) : JSString := trimEnd (trimStart s).

(** [s.split(sep)] for a separator of one code unit: the segments between
    the occurrences of [sep], in order; at least one segment. *)
Fixpoint split (sep : N) (s : JSString) : list JSString :=
  match s with
  | [] => [[]]
  | c :: rest =>
      if (c =? sep)%N then [] :: split sep rest
      else match split sep rest with
           | first :: others => (c :: first) :: others
           | [] => [[c]]
           end
  end.

(** [parts.join(sep)]. *)
Fixpoint join (sep : N) (parts : list JSString) : JSString :=
  match parts with
  | [] => []
  | [part] => part
  | part :: others => part ++ sep :: join sep others
  end.

Definition comma : N := 44%N.
Definition newline : N := 10%N.
Definition doubleQuote : N := 34%N.

(** JavaScript truthiness of a [string | null | undefined]. *)
Definition truthy (v : option JSString) : bool :=
  match v with
  | Some (_ :: _) => true
  | _ => false
  end.

(* ===================================================================== *)
(** ** Pixels *)
(* ===================================================================== *)

(** One pixel of a bitmap: four 8-bit channels. *)
Record rgba := RGBA { red : Z; green : Z; blue : Z; alpha : Z }.

Definition transparent : rgba := RGBA 0 0 0 0.
Definition white : rgba := RGBA 255 255 255 255.
Definition black : rgba := RGBA 0 0 0 255.

(** CSS colours of the form [#RRGGBB]. *)
Definition hexDigit (c : ascii) : option Z :=
  let n := Z.of_nat (nat_of_ascii c) in
  if (48 <=? n) && (n <=? 57) then Some (n - 48)
  else if (65 <=? n) && (n <=? 70) then Some (n - 55)
  else if (97 <=? n) && (n <=? 102) then Some (n - 87)
  else None.

Definition hexByte (hi lo : ascii) : option Z :=
  h ← hexDigit hi; l ← hexDigit lo; Some (16 * h + l).

Definition parseColor (s : string) : option rgba :=
  match s with
  | String "#" (String r1 (String r0 (String g1 (String g0
      (String b1 (String b0 EmptyString)))))) =>
      r ← hexByte r1 r0; g ← hexByte g1 g0; b ← hexByte b1 b0;
      Some (RGBA r g b 255)
  | _ => None
  end.

(* ===================================================================== *)
(** ** Bitmaps *)
(* ===================================================================== *)

(** A bitmap is a list of rows, top row first. *)
Abbreviation Bitmap := (list (list rgba)).

Definition blank (w h : nat) : Bitmap := replicate h (replicate w transparent).

Definition pixelAt (b : Bitmap) (px py : nat) : option rgba :=
  row ← b !! py; row !! px.

Definition mapPixels (f : nat → nat → rgba → rgba) (b : Bitmap) : Bitmap :=
  imap (λ py row, imap (λ px p, f px py p) row) b.

Definition inRect (rx ry rw rh px py : nat) : bool :=
  (rx <=? px)%nat && (px <? rx + rw)%nat && (ry <=? py)%nat && (py <? ry + rh)%nat.

(** A bitmap of [h] rows of [w] pixels each. *)
Definition shaped (w h : nat) (b : Bitmap) : Prop :=
  length b = h ∧ Forall (λ row, length row = w) b.

(* ===================================================================== *)
(** ** The 2D rendering context and the canvas element *)
(* ===================================================================== *)

Record Coords := { x : float; y : float }.

Record SubPath := { points : list Coords; closed : bool }.

Record CanvasRenderingContext2D := {
  lineCap : string;
  lineJoin : string;
  strokeStyle : rgba;
  fillStyle : rgba;
  lineWidth : float;
  path : list SubPath
}.

(** The state of a context that has just been created or reset. *)
Definition defaultContext : CanvasRenderingContext2D := {|
  lineCap := "butt"; lineJoin := "miter";
  strokeStyle := black; fillStyle := black;
  lineWidth := 1%float; path := []
|}.

Record DOMRect := { rect_left : float; rect_top : float }.

(** A canvas element together with the drawing state of its 2D context.
    [contextAvailable] tells whether [getContext('2d')] hands out that
    context or returns [null]; [getBoundingClientRect] is the element's
    box in viewport coordinates, as laid out. *)
Record HTMLCanvasElement := {
  width : nat;
  height : nat;
  bitmap : Bitmap;
  context2d : CanvasRenderingContext2D;
  contextAvailable : bool;
  getBoundingClientRect : DOMRect
}.

Definition withContext (f : CanvasRenderingContext2D → CanvasRenderingContext2D)
    (c : HTMLCanvasElement) : HTMLCanvasElement :=
  {| width := width c; height := height c; bitmap := bitmap c;
     context2d := f (context2d c);
     contextAvailable := contextAvailable c;
     getBoundingClientRect := getBoundingClientRect c |}.

Definition withBitmap (f : Bitmap → Bitmap) (c : HTMLCanvasElement) : HTMLCanvasElement :=
  {| width := width c; height := height c; bitmap := f (bitmap c);
     context2d := context2d c;
     contextAvailable := contextAvailable c;
     getBoundingClientRect := getBoundingClientRect c |}.

(** Assigning [canvas.width] or [canvas.height] replaces the bitmap by a
    transparent one of the new size and resets the context. *)
Definition set_width (w : nat) (c : HTMLCanvasElement) : HTMLCanvasElement :=
  {| width := w; height := height c; bitmap := blank w (height c);
     context2d := defaultContext;
     contextAvailable := contextAvailable c;
     getBoundingClientRect := getBoundingClientRect c |}.

Definition set_height (h : nat) (c : HTMLCanvasElement) : HTMLCanvasElement :=
  {| width := width c; height := h; bitmap := blank (width c) h;
     context2d := defaultContext;
     contextAvailable := contextAvailable c;
     getBoundingClientRect := getBoundingClientRect c |}.

Definition set_boundingClientRect (r : DOMRect) (c : HTMLCanvasElement) : HTMLCanvasElement :=
  {| width := width c; height := height c; bitmap := bitmap c;
     context2d := context2d c;
     contextAvailable := contextAvailable c;
     getBoundingClientRect := r |}.

(** *** Context attributes *)

Definition set_lineCap (v : string) (k : CanvasRenderingContext2D) :=
  {| lineCap := v; lineJoin := lineJoin k; strokeStyle := strokeStyle k;
     fillStyle := fillStyle k; lineWidth := lineWidth k; path := path k |}.

Definition set_lineJoin (v : string) (k : CanvasRenderingContext2D) :=
  {| lineCap := lineCap k; lineJoin := v; strokeStyle := strokeStyle k;
     fillStyle := fillStyle k; lineWidth := lineWidth k; path := path k |}.

(** A colour that does not parse leaves the attribute as it was. *)
Definition set_strokeStyle (v : string) (k : CanvasRenderingContext2D) :=
  {| lineCap := lineCap k; lineJoin := lineJoin k;
     strokeStyle := default (strokeStyle k) (parseColor v);
     fillStyle := fillStyle k; lineWidth := lineWidth k; path := path k |}.

Definition set_fillStyle (v : string) (k : CanvasRenderingContext2D) :=
  {| lineCap := lineCap k; lineJoin := lineJoin k; strokeStyle := strokeStyle k;
     fillStyle := default (fillStyle k) (parseColor v);
     lineWidth := lineWidth k; path := path k |}.

Definition set_lineWidth (v : float) (k : CanvasRenderingContext2D) :=
  {| lineCap := lineCap k; lineJoin := lineJoin k; strokeStyle := strokeStyle k;
     fillStyle := fillStyle k; lineWidth := v; path := path k |}.

Definition set_path (p : list SubPath) (k : CanvasRenderingContext2D) :=
  {| lineCap := lineCap k; lineJoin := lineJoin k; strokeStyle := strokeStyle k;
     fillStyle := fillStyle k; lineWidth := lineWidth k; path := p |}.

(** *** Path building *)

Definition finite (f : float) : bool := negb (is_nan f || is_infinity f).

Definition beginPath (c : HTMLCanvasElement) : HTMLCanvasElement :=
  withContext (set_path []) c.

(** [moveTo] starts a new subpath; non-finite arguments are ignored. *)
Definition moveTo (px py : float) (c : HTMLCanvasElement) : HTMLCanvasElement :=
  if finite px && finite py
  then withContext (λ k, set_path (path k ++ [{| points := [{| x := px; y := py |}];
                                                closed := false |}]) k) c
  else c.

Definition extendLast (p : Coords) (sps : list SubPath) : list SubPath :=
  match reverse sps with
  | [] => [{| points := [p]; closed := false |}]
  | sp :: before =>
      reverse before ++ [{| points := points sp ++ [p]; closed := closed sp |}]
  end.

(** [lineTo] extends the last subpath, or starts one when the path is empty. *)
Definition lineTo (px py : float) (c : HTMLCanvasElement) : HTMLCanvasElement :=
  if finite px && finite py
  then withContext (λ k, set_path (extendLast {| x := px; y := py |} (path k)) k) c
  else c.

Definition closeLast (sps : list SubPath) : list SubPath :=
  match reverse sps with
  | [] => []
  | sp :: before =>
      reverse before ++ [{| points := points sp; closed := true |};
                         {| points := take 1 (points sp); closed := false |}]
  end.

(** [closePath] marks the last subpath closed and opens a new one at its
    first point; it paints nothing. *)
Definition closePath (c : HTMLCanvasElement) : HTMLCanvasElement :=
  withContext (λ k, set_path (closeLast (path k)) k) c.

(** *** Painting *)

(** The browser's rasterizer, as far as the component depends on it.
    - Applied to the state of a context and a pixel position, it gives
      what a stroke of the current path with the current line attributes
      paints there; [transparent] where the stroke does not reach.
    - [over s d] is the pixel obtained by painting [s] on top of [d]
      (globalCompositeOperation = 'source-over', the default).  The
      arithmetic for a partly transparent source is the browser's own; in
      every browser a fully transparent source leaves the destination as
      it is, an opaque source replaces it, and an opaque destination
      stays opaque. *)
Record Rasterizer := {
  coverage :> CanvasRenderingContext2D → nat → nat → rgba;
  over : rgba → rgba → rgba;
  over_transparent : ∀ s d, alpha s = 0 → over s d = d;
  over_opaque : ∀ s d, alpha s = 255 → over s d = s;
  over_backdrop : ∀ s d, alpha d = 255 → alpha (over s d) = 255
}.

Definition clearRect (rx ry rw rh : nat) (c : HTMLCanvasElement) : HTMLCanvasElement :=
  withBitmap (mapPixels (λ px py p, if inRect rx ry rw rh px py then transparent else p)) c.

Definition fillRect (rasterize : Rasterizer) (rx ry rw rh : nat) (c : HTMLCanvasElement)
    : HTMLCanvasElement :=
  withBitmap (mapPixels (λ px py p,
    if inRect rx ry rw rh px py then over rasterize (fillStyle (context2d c)) p else p)) c.

(** [drawImage src dx dy]: the pixels of [src], unscaled, with its top
    left corner at [(dx, dy)], composited over the destination.  A source
    canvas of width or height zero is not usable: the call then throws an
    [InvalidStateError] and paints nothing, which is [None] here. *)
Definition drawImage (rasterize : Rasterizer) (src : HTMLCanvasElement) (dx dy : nat)
    (c : HTMLCanvasElement) : option HTMLCanvasElement :=
  if (width src =? 0)%nat || (height src =? 0)%nat then None
  else
    Some (withBitmap (mapPixels (λ px py p,
      if (dx <=? px)%nat && (dy <=? py)%nat
      then match pixelAt (bitmap src) (px - dx) (py - dy) with
           | Some s => over rasterize s p
           | None => p
           end
      else p)) c).

Definition stroke (rasterize : Rasterizer) (c : HTMLCanvasElement) : HTMLCanvasElement :=
  withBitmap (mapPixels (λ px py p, over rasterize (rasterize (context2d c) px py) p)) c.

(** An encoded image, represented by what it encodes: PNG is lossless, so
    the encoded pixels are those of the bitmap. *)
Record Image := { mimeType : string; imageWidth : nat; imageHeight : nat; pixels : Bitmap }.

(** What [toDataURL] returns: the string [data:,] for a canvas without
    pixels, and otherwise the [data:] URL of the encoded bitmap. *)
Inductive DataURL : Type :=
| EmptyDataURL
| ImageDataURL (image : Image).

Definition toDataURL (type : string) (c : HTMLCanvasElement) : DataURL :=
  if (width c =? 0)%nat || (height c =? 0)%nat then EmptyDataURL
  else ImageDataURL {| mimeType := type; imageWidth := width c;
                       imageHeight := height c; pixels := bitmap c |}.

(** The characters of a data URL.  [base64] is the base64 text of the
    file the browser's encoder produces for an image. *)
Definition href (base64 : Image → JSString) (url : DataURL) : JSString :=
  match url with
  | EmptyDataURL => utf16 "data:,"
  | ImageDataURL image =>
      utf16 "data:" ++ utf16 (mimeType image) ++ utf16 ";base64," ++ base64 image
  end.

(** The host document: whether the root element carries the [dark] class,
    whether a canvas created by [createElement] hands out a 2D context,
    and the message of the [InvalidStateError] such a context throws (the
    wording is the browser's). *)
Record Document := { dark : bool; canvas2d : bool; invalidStateMessage : JSString }.

Definition createElement (document : Document) : HTMLCanvasElement :=
  {| width := 300; height := 150; bitmap := blank 300 150;
     context2d := defaultContext;
     contextAvailable := canvas2d document;
     getBoundingClientRect := {| rect_left := 0%float; rect_top := 0%float |} |}.

(* ===================================================================== *)
(** ** The Canvas component *)
(* ===================================================================== *)

(** [contextRef] is [true] when [contextRef.current] holds the 2D context
    of the element in [canvasRef] (the only context the component ever
    stores), [false] when it is [null].  [observing] records that the
    resize observer has been attached to the parent. *)
Record CanvasState := {
  canvasRef : option HTMLCanvasElement;
  contextRef : bool;
  observing : bool;
  isDrawing : bool;
  isDirty : bool
}.

(** How a call ends: normally with a value, or by throwing an error.  Of
    an error the message is kept where the program goes on to read it;
    a [TypeError] of the engine, whose message nothing reads, is kept by
    its name. *)
Inductive Completion (A : Type) : Type :=
| Normal (a : A)
| Throw (e : JSString).
Arguments Normal {A} a.
Arguments Throw {A} e.

Definition M (A : Type) : Type := CanvasState → Completion A * CanvasState.

Definition ret {A} (a : A) : M A := λ s, (Normal a, s).

Definition bind {A B} (m : M A) (k : A → M B) : M B :=
  λ s, match m s with
       | (Normal a, s') => k a s'
       | (Throw e, s') => (Throw e, s')
       end.

Definition throw {A} (e : JSString) : M A := λ s, (Throw e, s).

Definition get : M CanvasState := λ s, (Normal s, s).

Definition modify (f : CanvasState → CanvasState) : M unit := λ s, (Normal tt, f s).

Declare Scope js_scope.
Delimit Scope js_scope with js.
Notation "'do' a <- m ; k" := (bind m (λ a, k))
  (at level 10, a name, m at level 100, k at level 200) : js_scope.
Notation "m ;; k" := (bind m (λ _, k))
  (at level 100, k at level 200, right associativity) : js_scope.
Local Open Scope js_scope.

(** Calls on the context held by [contextRef] act on the element in
    [canvasRef]. *)
Definition onCanvas (f : HTMLCanvasElement → HTMLCanvasElement) : M unit :=
  modify (λ s, {| canvasRef := f <$> canvasRef s; contextRef := contextRef s;
                  observing := observing s;
                  isDrawing := isDrawing s; isDirty := isDirty s |}).

Definition setContextRef (b : bool) : M unit :=
  modify (λ s, {| canvasRef := canvasRef s; contextRef := b;
                  observing := observing s;
                  isDrawing := isDrawing s; isDirty := isDirty s |}).

Definition setObserving (b : bool) : M unit :=
  modify (λ s, {| canvasRef := canvasRef s; contextRef := contextRef s;
                  observing := b;
                  isDrawing := isDrawing s; isDirty := isDirty s |}).

Definition setIsDrawing (b : bool) : M unit :=
  modify (λ s, {| canvasRef := canvasRef s; contextRef := contextRef s;
                  observing := observing s;
                  isDrawing := b; isDirty := isDirty s |}).

Definition setIsDirty (b : bool) : M unit :=
  modify (λ s, {| canvasRef := canvasRef s; contextRef := contextRef s;
                  observing := observing s;
                  isDrawing := isDrawing s; isDirty := b |}).

(** Mouse and touch events, as far as the handlers read them. *)
Record Touch := { clientX : float; clientY : float }.

Inductive SyntheticEvent : Type :=
| MouseEvent (clientX clientY : float)
| TouchEvent (touches : list Touch).

Definition getCoords (event : SyntheticEvent) : M Coords :=
  do s <- get;
  match canvasRef s with
  | None => ret {| x := 0%float; y := 0%float |}
  | Some canvas =>
      let rect := getBoundingClientRect canvas in
      match event with
      | TouchEvent touches =>
          match touches !! 0%nat with
          | Some t => ret {| x := (clientX t - rect_left rect)%float;
                             y := (clientY t - rect_top rect)%float |}
          | None => throw (utf16 "TypeError")
          end
      | MouseEvent cX cY =>
          ret {| x := (cX - rect_left rect)%float;
                 y := (cY - rect_top rect)%float |}
      end
  end.

(** [setupContext], the closure of the mount effect over the canvas. *)
Definition setupContext (document : Document) : M unit :=
  do s <- get;
  match canvasRef s with
  | None => ret tt
  | Some canvas =>
      if contextAvailable canvas then
        onCanvas (withContext (set_lineCap "round"));;
        onCanvas (withContext (set_lineJoin "round"));;
        onCanvas (withContext
          (set_strokeStyle (if dark document then "#E5E7EB" else "#1F2937")));;
        onCanvas (withContext (set_lineWidth 4%float));;
        setContextRef true
      else ret tt
  end.

(** The body of [useEffect]: [hasParent] is [canvas.parentElement] being
    non-null. *)
Definition useEffect (hasParent : bool) (document : Document) : M unit :=
  do s <- get;
  match canvasRef s with
  | None => ret tt
  | Some _ =>
      if negb hasParent then ret tt
      else setObserving true;; setupContext document
  end.

(** The content box reported by one resize observer entry, as the
    unsigned integers the canvas attributes hold after assignment. *)
Record ContentRect := { rect_width : nat; rect_height : nat }.

Fixpoint resizeCallback (entries : list ContentRect) (document : Document) : M unit :=
  match entries with
  | [] => ret tt
  | entry :: rest =>
      onCanvas (set_width (rect_width entry));;
      onCanvas (set_height (rect_height entry));;
      setupContext document;;
      resizeCallback rest document
  end.

Section Handlers.

Variable rasterize : Rasterizer.

Definition startDrawing (event : SyntheticEvent) : M unit :=
  do s <- get;
  if negb (contextRef s) then ret tt
  else
    do c <- getCoords event;
    onCanvas beginPath;;
    onCanvas (moveTo (x c) (y c));;
    setIsDrawing true;;
    if negb (isDirty s) then setIsDirty true else ret tt.

Definition draw (event : SyntheticEvent) : M unit :=
  do s <- get;
  if negb (isDrawing s) || negb (contextRef s) then ret tt
  else
    do c <- getCoords event;
    onCanvas (lineTo (x c) (y c));;
    onCanvas (stroke rasterize).

Definition stopDrawing : M unit :=
  do s <- get;
  (if contextRef s then onCanvas closePath else ret tt);;
  setIsDrawing false.

(** The imperative handle. *)
Definition clearCanvas : M unit :=
  do s <- get;
  match canvasRef s, contextRef s with
  | Some canvas, true =>
      onCanvas (clearRect 0 0 (width canvas) (height canvas));;
      setIsDirty false
  | _, _ => ret tt
  end.

Definition getImageData (document : Document) : M (option DataURL) :=
  do s <- get;
  match canvasRef s with
  | None => ret None
  | Some canvas =>
      if negb (isDirty s) then ret None
      else
        let tempCanvas := createElement document in
        let tempCanvas := set_width (width canvas) tempCanvas in
        let tempCanvas := set_height (height canvas) tempCanvas in
        if contextAvailable tempCanvas then
          let tempCanvas := withContext (set_fillStyle "#FFFFFF") tempCanvas in
          let tempCanvas :=
            fillRect rasterize 0 0 (width tempCanvas) (height tempCanvas) tempCanvas in
          match drawImage rasterize canvas 0 0 tempCanvas with
          | None => throw (invalidStateMessage document)
          | Some tempCanvas => ret (Some (toDataURL "image/png" tempCanvas))
          end
        else ret (Some (toDataURL "image/png" canvas))
  end.

(** The event props of the [<canvas>] element. *)
Inductive EventProp : Type :=
| onMouseDown | onMouseMove | onMouseUp | onMouseLeave
| onTouchStart | onTouchMove | onTouchEnd.

Definition handler (p : EventProp) (event : SyntheticEvent) : M unit :=
  match p with
  | onMouseDown => startDrawing event
  | onMouseMove => draw event
  | onMouseUp => stopDrawing
  | onMouseLeave => stopDrawing
  | onTouchStart => startDrawing event
  | onTouchMove => draw event
  | onTouchEnd => stopDrawing
  end.

(** Everything that can happen to a mounted component. *)
Inductive Action : Type :=
| Mount (hasParent : bool) (document : Document)
| Resize (entries : list ContentRect) (document : Document)
| Reflow (rect : DOMRect)
| Dispatch (p : EventProp) (event : SyntheticEvent)
| CallClearCanvas
| CallGetImageData (document : Document).

Definition perform (a : Action) : M unit :=
  match a with
  | Mount hasParent document => useEffect hasParent document
  | Resize entries document =>
      do s <- get;
      if observing s then resizeCallback entries document else ret tt
  | Reflow rect => onCanvas (set_boundingClientRect rect)
  | Dispatch p event => handler p event
  | CallClearCanvas => clearCanvas
  | CallGetImageData document => getImageData document;; ret tt
  end.

Definition exec (a : Action) (s : CanvasState) : CanvasState := snd (perform a s).

Definition run (trace : list Action) (s : CanvasState) : CanvasState :=
  foldl (λ s a, exec a s) s trace.

(** The component after its first render: a fresh canvas element, no
    context stored yet, both state variables [false]. *)
Definition freshCanvas (ctxAvailable : bool) (rect : DOMRect) : HTMLCanvasElement :=
  {| width := 300; height := 150; bitmap := blank 300 150;
     context2d := defaultContext;
     contextAvailable := ctxAvailable;
     getBoundingClientRect := rect |}.

Definition initialState (ctxAvailable : bool) (rect : DOMRect) : CanvasState :=
  {| canvasRef := Some (freshCanvas ctxAvailable rect);
     contextRef := false; observing := false;
     isDrawing := false; isDirty := false |}.

Inductive reachable : CanvasState → Prop :=
| reachable_initial ctxAvailable rect :
    reachable (initialState ctxAvailable rect)
| reachable_exec a s :
    reachable s → reachable (exec a s).

End Handlers.

(* ===================================================================== *)
(** ** The App component: solve and clear *)
(* ===================================================================== *)

Module App.

Record MathSolution := {
  expression : JSString;
  result : JSString;
  explanation : JSString
}.

Inductive InputMode : Type := handwriting | text.

(** [canvasRef] is the imperative handle of the mounted [Canvas], that
    is the component state its two methods close over. *)
Record AppState := {
  canvasRef : option CanvasState;
  solution : option MathSolution;
  isLoading : bool;
  error : option JSString;
  inputMode : InputMode;
  textProblem : JSString
}.

Definition setCanvas (c : option CanvasState) (a : AppState) : AppState :=
  {| canvasRef := c; solution := solution a; isLoading := isLoading a;
     error := error a; inputMode := inputMode a; textProblem := textProblem a |}.

Definition setSolution (v : option MathSolution) (a : AppState) : AppState :=
  {| canvasRef := canvasRef a; solution := v; isLoading := isLoading a;
     error := error a; inputMode := inputMode a; textProblem := textProblem a |}.

Definition setIsLoading (v : bool) (a : AppState) : AppState :=
  {| canvasRef := canvasRef a; solution := solution a; isLoading := v;
     error := error a; inputMode := inputMode a; textProblem := textProblem a |}.

Definition setError (v : option JSString) (a : AppState) : AppState :=
  {| canvasRef := canvasRef a; solution := solution a; isLoading := isLoading a;
     error := v; inputMode := inputMode a; textProblem := textProblem a |}.

Definition setTextProblem (v : JSString) (a : AppState) : AppState :=
  {| canvasRef := canvasRef a; solution := solution a; isLoading := isLoading a;
     error := error a; inputMode := inputMode a; textProblem := v |}.

(** The two entry points of services/geminiService.ts, as requests. *)
Inductive SolverRequest : Type :=
| solveMathProblem (imageDataUrl : DataURL)
| solveMathProblemFromText (problem : JSString).

(** The external solver: resolves with a solution or rejects with an
    [Error] carrying a message. *)
Definition Solver : Type := SolverRequest → Completion MathSolution.

(** The [catch] clause.  Whatever reaches it is an [Error] (a rejection
    of the solver, the exception of [drawImage]), so its message is shown. *)
Definition catch (message : JSString) (a : AppState) : AppState :=
  setError (Some (utf16 "Failed to solve: " ++ message)) a.

(** What follows an [await]: [setSolution(result)], or the [catch] clause. *)
Definition settle (reply : Completion MathSolution) (a : AppState) : AppState :=
  match reply with
  | Normal result => setSolution (Some result) a
  | Throw message => catch message a
  end.

(** [handleSolve] run to completion against a solver; the second
    component lists the requests sent to the solver.  A data URL is never
    the empty string, so the test [!imageDataUrl] succeeds on [null]
    only; an error thrown by [getImageData] lands in the [catch] clause. *)
Definition handleSolve (solve : Solver) (rasterize : Rasterizer) (document : Document)
    (a : AppState) : AppState * list SolverRequest :=
  let a := setIsLoading true a in
  let a := setError None a in
  let a := setSolution None a in
  let '(a, sent) :=
    match inputMode a with
    | handwriting =>
        match canvasRef a with
        | None => (a, [])
        | Some canvas =>
            match getImageData rasterize document canvas with
            | (Normal None, canvas') =>
                let a := setCanvas (Some canvas') a in
                let a := setError
                  (Some (utf16 "The canvas is empty. Please write a math problem.")) a in
                let a := setIsLoading false a in
                (a, [])
            | (Normal (Some imageDataUrl), canvas') =>
                let a := setCanvas (Some canvas') a in
                (settle (solve (solveMathProblem imageDataUrl)) a,
                 [solveMathProblem imageDataUrl])
            | (Throw message, canvas') =>
                (catch message (setCanvas (Some canvas') a), [])
            end
        end
    | text =>
        match trim (textProblem a) with
        | [] =>
            let a := setError
              (Some (utf16 "The text input is empty. Please type a math problem.")) a in
            let a := setIsLoading false a in
            (a, [])
        | _ =>
            (settle (solve (solveMathProblemFromText (textProblem a))) a,
             [solveMathProblemFromText (textProblem a)])
        end
    end in
  (setIsLoading false a, sent).

Definition handleClear (a : AppState) : AppState :=
  let a :=
    match inputMode a with
    | handwriting =>
        match canvasRef a with
        | Some canvas => setCanvas (Some (snd (clearCanvas canvas))) a
        | None => a
        end
    | text => setTextProblem [] a
    end in
  let a := setSolution None a in
  let a := setError None a in
  setIsLoading false a.

End App.

(* ===================================================================== *)
(** ** Reading the model *)
(* ===================================================================== *)

(** The contact point a pointer event stands for: the pointer position of
    a mouse event, the first entry of [touches] of a touch event. *)
Definition firstContact (event : SyntheticEvent) : option Touch :=
  match event with
  | MouseEvent cX cY => Some {| clientX := cX; clientY := cY |}
  | TouchEvent touches => head touches
  end.

(** A viewport point relative to the origin of a bounding box. *)
Definition relativeTo (O : DOMRect) (P : Touch) : Coords :=
  {| x := (clientX P - rect_left O)%float; y := (clientY P - rect_top O)%float |}.

(** An action that begins a stroke. *)
Definition beginsStroke (a : Action) : bool :=
  match a with
  | Dispatch onMouseDown _ | Dispatch onTouchStart _ => true
  | _ => false
  end.

(** A bitmap of [h] rows of [w] opaque white pixels. *)
Definition whiteBitmap (w h : nat) : Bitmap := replicate h (replicate w white).

(** What every reachable state satisfies: drawing and ink need a stored
    context, a stored context belongs to a canvas that hands one out, the
    bitmap has the size the element declares, and a canvas whose context
    was never stored has not been painted on. *)
Definition Inv (s : CanvasState) : Prop :=
  (isDrawing s = true → contextRef s = true)
  ∧ (isDirty s = true → contextRef s = true)
  ∧ match canvasRef s with
    | Some canvas =>
        shaped (width canvas) (height canvas) (bitmap canvas)
        ∧ (contextRef s = true → contextAvailable canvas = true)
        ∧ (contextRef s = false → bitmap canvas = blank (width canvas) (height canvas))
    | None => contextRef s = false
    end.

(** *** A concrete surface to exercise the statements *)

Definition ofNat (n : nat) : float := PrimFloat.of_uint63 (Uint63.of_Z (Z.of_nat n)).

(** A square brush stamped on the vertices of every subpath that has a
    line: the pixel is painted when its centre is within half the line
    width of a vertex on both axes. *)
Definition underBrush (w : float) (p : Coords) (px py : nat) : bool :=
  ((abs (x p - (ofNat px + 0.5)) <=? w / 2)
   && (abs (y p - (ofNat py + 0.5)) <=? w / 2))%float.

Definition brushCoverage (k : CanvasRenderingContext2D) (px py : nat) : rgba :=
  if existsb (λ sp, (2 <=? length (points sp))%nat
                    && existsb (λ p, underBrush (lineWidth k) p px py) (points sp))
             (path k)
  then strokeStyle k else transparent.

(** Source-over compositing of straight (not premultiplied) 8-bit
    channels, rounding down. *)
Definition floorChannel (cs as_ cd ad ao : Z) : Z :=
  if ao =? 0 then 0
  else (cs * as_ * 255 + cd * ad * (255 - as_)) / (255 * ao).

Definition floorOver (s d : rgba) : rgba :=
  if alpha s =? 0 then d
  else
    let ao := alpha s + alpha d * (255 - alpha s) / 255 in
    RGBA (floorChannel (red s) (alpha s) (red d) (alpha d) ao)
         (floorChannel (green s) (alpha s) (green d) (alpha d) ao)
         (floorChannel (blue s) (alpha s) (blue d) (alpha d) ao)
         ao.

Definition brushRasterizer : Rasterizer.
Proof.
  refine {| coverage := brushCoverage; over := floorOver |}.
  - intros s d H. unfold floorOver. now rewrite H.
  - intros [r g b a] d H. cbn in H. subst a. unfold floorOver, floorChannel.
    cbn [alpha red green blue].
    change (255 =? 0) with false. cbv iota zeta.
    change (255 - 255) with 0. rewrite !Z.mul_0_r.
    change (0 `div` 255) with 0. rewrite !Z.add_0_r.
    change (255 =? 0) with false. cbv iota.
    f_equal; symmetry; apply Z.div_unique_exact; lia.
  - intros s d H. unfold floorOver. destruct (alpha s =? 0); [exact H |].
    cbn [alpha]. rewrite H, Z.mul_comm, Z.div_mul by lia. lia.
Defined.

Definition sampleRect : DOMRect := {| rect_left := 8%float; rect_top := 16.5%float |}.

Definition lightDocument : Document :=
  {| dark := false; canvas2d := true;
     invalidStateMessage := utf16 "The image argument is a canvas element with a width or height of 0." |}.

(** A document in which a newly created canvas hands out no 2D context. *)
Definition starvedDocument : Document :=
  {| dark := false; canvas2d := false;
     invalidStateMessage := utf16 "The image argument is a canvas element with a width or height of 0." |}.

Definition sampleCanvas : HTMLCanvasElement :=
  {| width := 8; height := 6; bitmap := blank 8 6;
     context2d := {| lineCap := "round"; lineJoin := "round";
                     strokeStyle := RGBA 31 41 55 255; fillStyle := black;
                     lineWidth := 4%float; path := [] |};
     contextAvailable := true;
     getBoundingClientRect := sampleRect |}.

(** Mounted, laid out at 8 by 6, nothing drawn. *)
Definition sampleState : CanvasState :=
  {| canvasRef := Some sampleCanvas; contextRef := true; observing := true;
     isDrawing := false; isDirty := false |}.

Definition mountTrace : list Action :=
  [Mount true lightDocument; Resize [{| rect_width := 8; rect_height := 6 |}] lightDocument].

(** Press at local (2, 2), move to local (3, 2), release. *)
Definition strokeTrace : list Action :=
  [Dispatch onMouseDown (MouseEvent 10%float 18.5%float);
   Dispatch onMouseMove (MouseEvent 11%float 18.5%float);
   Dispatch onMouseUp (MouseEvent 11%float 18.5%float)].

Definition inkedState : CanvasState := run brushRasterizer strokeTrace sampleState.

(** Mounted, but the canvas never handed out a context. *)
Definition contextlessState : CanvasState :=
  run brushRasterizer mountTrace (initialState false sampleRect).

Definition sampleTouch : SyntheticEvent :=
  TouchEvent [{| clientX := 58%float; clientY := 66.5%float |};
              {| clientX := 1%float; clientY := 2%float |}].

(** The pixel of the live raster at a position. *)
Definition livePixel (s : CanvasState) (px py : nat) : option rgba :=
  canvas ← canvasRef s; pixelAt (bitmap canvas) px py.

(** The pixel of the image [getImageData] returns, when it returns one. *)
Definition exportedPixel (rasterize : Rasterizer) (document : Document)
    (s : CanvasState) (px py : nat) : option rgba :=
  match fst (getImageData rasterize document s) with
  | Normal (Some (ImageDataURL image)) => pixelAt (pixels image) px py
  | _ => None
  end.

(** No ink at a position of the live raster. *)
Definition transparentAt (s : CanvasState) (px py : nat) : Prop :=
  ∀ p, livePixel s px py = Some p → alpha p = 0.

(** A single tap: press and release with no move in between. *)
Definition tap (event : SyntheticEvent) (s : CanvasState) : CanvasState :=
  snd (stopDrawing (snd (startDrawing event s))).

Definition resizeTo8x6 : Action :=
  Resize [{| rect_width := 8; rect_height := 6 |}] lightDocument.

Definition sampleApp : App.AppState :=
  {| App.canvasRef := Some sampleState; App.solution := None;
     App.isLoading := false; App.error := None;
     App.inputMode := App.handwriting; App.textProblem := [] |}.

(** A solver that answers every request with the same solution. *)
Definition constantSolver : App.Solver :=
  λ _, Normal {| App.expression := utf16 "1+1"; App.result := utf16 "2";
                 App.explanation := utf16 "Add." |}.

(* ===================================================================== *)
(** ** More of the App component *)
(* ===================================================================== *)

Definition handleTextChange (value : JSString) (a : App.AppState) : App.AppState :=
  let a' := App.setTextProblem value a in
  if truthy (App.error a) then App.setError None a' else a'.

(** [handleSolve] up to its [await]: either it has run to its end, the
    [finally] clause included, or it is suspended on a request to the
    solver with the state updates made so far committed. *)
Inductive Suspension : Type :=
| Finished (a : App.AppState)
| Awaiting (a : App.AppState) (request : App.SolverRequest).

Definition handleSolveBegin (rasterize : Rasterizer) (document : Document)
    (a : App.AppState) : Suspension :=
  let a := App.setIsLoading true a in
  let a := App.setError None a in
  let a := App.setSolution None a in
  match App.inputMode a with
  | App.handwriting =>
      match App.canvasRef a with
      | None => Finished (App.setIsLoading false a)
      | Some canvas =>
          match getImageData rasterize document canvas with
          | (Normal None, canvas') =>
              let a := App.setCanvas (Some canvas') a in
              let a := App.setError
                (Some (utf16 "The canvas is empty. Please write a math problem.")) a in
              let a := App.setIsLoading false a in
              Finished (App.setIsLoading false a)
          | (Normal (Some imageDataUrl), canvas') =>
              Awaiting (App.setCanvas (Some canvas') a) (App.solveMathProblem imageDataUrl)
          | (Throw message, canvas') =>
              Finished (App.setIsLoading false
                          (App.catch message (App.setCanvas (Some canvas') a)))
          end
      end
  | App.text =>
      match trim (App.textProblem a) with
      | [] =>
          let a := App.setError
            (Some (utf16 "The text input is empty. Please type a math problem.")) a in
          let a := App.setIsLoading false a in
          Finished (App.setIsLoading false a)
      | _ => Awaiting a (App.solveMathProblemFromText (App.textProblem a))
      end
  end.

(** [handleSolve] from the point where the awaited promise settles, run
    on the state the component has by then. *)
Definition handleSolveResume (reply : Completion App.MathSolution) (a : App.AppState)
    : App.AppState :=
  App.setIsLoading false (App.settle reply a).

(** The input-mode buttons.  The canvas is rendered in handwriting mode
    only: leaving that mode unmounts it and empties [canvasRef]; entering
    it mounts a new one, whose effect runs at once.  [ctxAvailable] and
    [rect] describe the new element. *)
Definition mountCanvas (ctxAvailable : bool) (rect : DOMRect) (document : Document)
    : CanvasState :=
  snd (useEffect true document (initialState ctxAvailable rect)).

Definition setInputMode (mode : App.InputMode) (ctxAvailable : bool) (rect : DOMRect)
    (document : Document) (a : App.AppState) : App.AppState :=
  match mode, App.inputMode a with
  | App.handwriting, App.handwriting => a
  | App.text, App.text => a
  | App.handwriting, App.text =>
      {| App.canvasRef := Some (mountCanvas ctxAvailable rect document);
         App.solution := App.solution a; App.isLoading := App.isLoading a;
         App.error := App.error a; App.inputMode := App.handwriting;
         App.textProblem := App.textProblem a |}
  | App.text, App.handwriting =>
      {| App.canvasRef := None;
         App.solution := App.solution a; App.isLoading := App.isLoading a;
         App.error := App.error a; App.inputMode := App.text;
         App.textProblem := App.textProblem a |}
  end.

(** The first render of [App]. *)
Definition initialApp (ctxAvailable : bool) (rect : DOMRect) (document : Document)
    : App.AppState :=
  {| App.canvasRef := Some (mountCanvas ctxAvailable rect document);
     App.solution := None; App.isLoading := false; App.error := None;
     App.inputMode := App.handwriting; App.textProblem := [] |}.

(** The width of the panel that holds the canvas, in percent. *)
Definition panelWidth (a : App.AppState) : nat :=
  match App.solution a with
  | Some _ => 60
  | None => 100
  end.

(** The explanation as rendered: one entry per line, a paragraph keyed by
    the line number for a line that is not blank, nothing for a blank one. *)
Record Paragraph := { key : nat; children : JSString }.

Definition explanationSteps (explanation : JSString) : list (option Paragraph) :=
  imap (λ index step,
          match trim step with
          | [] => None
          | _ => Some {| key := index; children := step |}
          end)
       (split newline explanation).

(* ===================================================================== *)
(** ** The toolbar *)
(* ===================================================================== *)

Module Toolbar.

Record View := {
  clearDisabled : bool;
  solveDisabled : bool;
  spinner : bool;
  solveLabel : string
}.

Definition render (isLoading : bool) : View :=
  {| clearDisabled := isLoading;
     solveDisabled := isLoading;
     spinner := isLoading;
     solveLabel := if isLoading then "Solving..." else "Solve" |}.

End Toolbar.

(** [App] with the requests it is waiting for. *)
Record Session := {
  app : App.AppState;
  inFlight : list App.SolverRequest
}.

(** What the user and the environment can do to a running [App]. *)
Inductive AppEvent : Type :=
| ClickSolve (document : Document)
| ClickClear
| Settle (reply : Completion App.MathSolution)
| ClickMode (mode : App.InputMode) (ctxAvailable : bool) (rect : DOMRect)
    (document : Document)
| Typing (value : JSString)
| OnCanvas (a : Action).

Definition appStep (rasterize : Rasterizer) (e : AppEvent) (σ : Session) : Session :=
  match e with
  | ClickSolve document =>
      if Toolbar.solveDisabled (Toolbar.render (App.isLoading (app σ))) then σ
      else match handleSolveBegin rasterize document (app σ) with
           | Finished a => {| app := a; inFlight := inFlight σ |}
           | Awaiting a request => {| app := a; inFlight := inFlight σ ++ [request] |}
           end
  | ClickClear =>
      if Toolbar.clearDisabled (Toolbar.render (App.isLoading (app σ))) then σ
      else {| app := App.handleClear (app σ); inFlight := inFlight σ |}
  | Settle reply =>
      match inFlight σ with
      | [] => σ
      | _ :: rest => {| app := handleSolveResume reply (app σ); inFlight := rest |}
      end
  | ClickMode mode ctxAvailable rect document =>
      {| app := setInputMode mode ctxAvailable rect document (app σ);
         inFlight := inFlight σ |}
  | Typing value =>
      match App.inputMode (app σ) with
      | App.text => {| app := handleTextChange value (app σ); inFlight := inFlight σ |}
      | App.handwriting => σ
      end
  | OnCanvas a =>
      match App.canvasRef (app σ) with
      | Some canvas =>
          {| app := App.setCanvas (Some (exec rasterize a canvas)) (app σ);
             inFlight := inFlight σ |}
      | None => σ
      end
  end.

Definition appRun (rasterize : Rasterizer) (events : list AppEvent) (σ : Session) : Session :=
  foldl (λ σ e, appStep rasterize e σ) σ events.

Inductive appReachable (rasterize : Rasterizer) : Session → Prop :=
| appReachable_initial ctxAvailable rect document :
    appReachable rasterize
      {| app := initialApp ctxAvailable rect document; inFlight := [] |}
| appReachable_step e σ :
    appReachable rasterize σ → appReachable rasterize (appStep rasterize e σ).

(* ===================================================================== *)
(** ** The solver service *)
(* ===================================================================== *)

Module GeminiService.

(** A value produced by [JSON.parse]; the members of an object are its
    own properties, each key once. *)
#[local] Unset Elimination Schemes.
Inductive JSON : Type :=
| JNull
| JBool (b : bool)
| JNumber (n : float)
| JString (s : JSString)
| JArray (items : list JSON)
| JObject (members : list (JSString * JSON)).
#[local] Set Elimination Schemes.

Fixpoint member (name : JSString) (members : list (JSString * JSON)) : option JSON :=
  match members with
  | [] => None
  | (k, v) :: rest => if bool_decide (k = name) then Some v else member name rest
  end.

(** [value.name] for one of the names the service reads ([expression],
    [result], [explanation]): [None] is [undefined]; reading a property
    of [null] throws. *)
Definition property (value : JSON) (name : JSString) : Completion (option JSON) :=
  match value with
  | JNull => Throw (utf16 "TypeError")
  | JObject members => Normal (member name members)
  | _ => Normal None
  end.

(** Sequencing of steps that may throw. *)
Definition andThen {A B} (c : Completion A) (k : A → Completion B) : Completion B :=
  match c with
  | Normal a => k a
  | Throw e => Throw e
  end.

Inductive Part : Type :=
| textPart (text : JSString)
| imagePart (mimeType data : JSString).

Record GenerateContentParameters := {
  model : JSString;
  contents : list Part;
  responseMimeType : JSString;
  responseSchema : JSON;
  temperature : float
}.

Definition MathSolution := App.MathSolution.

Section Service.

(** The two members of the SDK's [Type] enumeration the schema names. *)
Variables Type_OBJECT Type_STRING : JSString.

(** [ai.models.generateContent], awaited: it rejects, or resolves with a
    response whose [text] may be [undefined]. *)
Variable generateContent : GenerateContentParameters → Completion (option JSString).

(** [JSON.parse]; it throws on text that is not JSON. *)
Variable JSON_parse : JSString → Completion JSON.

(** [String(n)] for a number. *)
Variable numberToString : float → JSString.

(** [String(value)].  An array is joined with commas, [null] elements
    giving the empty string.  An object goes through its [toString]
    property: an own member of that name, which is never callable in
    parsed JSON, leaves the conversion without a primitive and it throws a
    [TypeError]; without one the inherited method answers. *)
Fixpoint toString (value : JSON) : Completion JSString :=
  match value with
  | JNull => Normal (utf16 "null")
  | JBool b => Normal (if b then utf16 "true" else utf16 "false")
  | JNumber n => Normal (numberToString n)
  | JString s => Normal s
  | JArray items =>
      andThen
        ((fix elements (items : list JSON) : Completion (list JSString) :=
            match items with
            | [] => Normal []
            | item :: rest =>
                andThen (match item with
                         | JNull => Normal []
                         | _ => toString item
                         end) (λ next,
                andThen (elements rest) (λ others, Normal (next :: others)))
            end) items)
        (λ parts, Normal (join comma parts))
  | JObject members =>
      match member (utf16 "toString") members with
      | Some _ => Throw (utf16 "TypeError")
      | None => Normal (utf16 "[object Object]")
      end
  end.

Definition responseSchema_ : JSON :=
  JObject
    [(utf16 "type", JString Type_OBJECT);
     (utf16 "properties",
      JObject
        [(utf16 "expression",
          JObject [(utf16 "type", JString Type_STRING);
                   (utf16 "description", JString (utf16 "The recognized mathematical expression as a string, e.g., '2 + 2 * 4'."))]);
         (utf16 "result",
          JObject [(utf16 "type", JString Type_STRING);
                   (utf16 "description", JString (utf16 "The final calculated result as a string. If the expression is unsolvable or invalid, this should be the string 'Error'."))]);
         (utf16 "explanation",
          JObject [(utf16 "type", JString Type_STRING);
                   (utf16 "description", JString (utf16 "A detailed, step-by-step explanation of how the result was calculated. Use newline characters for line breaks."))])]);
     (utf16 "required",
      JArray [JString (utf16 "expression"); JString (utf16 "result");
              JString (utf16 "explanation")])].

(** The request for a list of parts; the temperature is the number 0.1. *)
Definition config (parts : list Part) : GenerateContentParameters :=
  {| model := utf16 "gemini-2.5-flash";
     contents := parts;
     responseMimeType := utf16 "application/json";
     responseSchema := responseSchema_;
     temperature := 0x1.999999999999ap-4%float |}.

Definition imagePrompt : JSString :=
  utf16 "You are an advanced mathematical assistant. Your task is to analyze the handwritten expression in the provided image and return a JSON object. The JSON object must have three keys: 'expression' which contains the recognized mathematical expression as a string, 'result' which contains the calculated numerical answer as a string, and 'explanation' which contains a step-by-step breakdown of the solution. If the expression is invalid or cannot be solved, the 'result' should be the string 'Error' and the 'explanation' should describe the issue. Do not include any markdown formatting (```json ... ```) or any text outside of the JSON object. Just return the raw JSON.".

Definition textPrompt (problem : JSString) : JSString :=
  utf16 "You are an advanced mathematical assistant. Your task is to solve the following mathematical expression and return a JSON object. The expression is: "
  ++ doubleQuote :: problem ++ doubleQuote ::
  utf16 ". The JSON object must have three keys: 'expression' which should be the input expression you were given, 'result' which contains the calculated numerical answer as a string, and 'explanation' which contains a step-by-step breakdown of the solution. If the expression is invalid or cannot be solved, the 'result' should be the string 'Error' and the 'explanation' should describe the issue. Do not include any markdown formatting (```json ... ```) or any text outside of the JSON object. Just return the raw JSON.".

(** The outcome of a call together with the requests it made to the API. *)
Definition solveMathProblem (imageDataUrl : JSString)
    : Completion MathSolution * list GenerateContentParameters :=
  let base64Data := split comma imageDataUrl !! 1%nat in
  if negb (truthy base64Data) then (Throw (utf16 "Invalid image data provided."), [])
  else
    let imagePart_ := imagePart (utf16 "image/png") (default [] base64Data) in
    let textPart_ := textPart imagePrompt in
    let request := config [textPart_; imagePart_] in
    let attempt : Completion MathSolution :=
      andThen (generateContent request) (λ response,
        let text := trim <$> response in
        if negb (truthy text) then Throw (utf16 "Received an empty response from the AI.")
        else
          andThen (JSON_parse (default [] text)) (λ parsedResult,
          andThen (property parsedResult (utf16 "expression")) (λ expression,
          andThen (property parsedResult (utf16 "result")) (λ result,
          andThen (property parsedResult (utf16 "explanation")) (λ explanation,
            match expression, result, explanation with
            | Some (JString expression), Some result, Some (JString explanation) =>
                andThen (toString result) (λ result,
                Normal {| App.expression := expression;
                          App.result := result;
                          App.explanation := explanation |})
            | _, _, _ => Throw (utf16 "AI response is not in the expected format.")
            end))))) in
    (match attempt with
     | Normal solution => Normal solution
     | Throw _ =>
         Throw (utf16 "The AI model could not process the request. Please try again.")
     end,
     [request]).

Definition solveMathProblemFromText (problem : JSString)
    : Completion MathSolution * list GenerateContentParameters :=
  let textPart_ := textPart (textPrompt problem) in
  let request := config [textPart_] in
  let attempt : Completion MathSolution :=
    andThen (generateContent request) (λ response,
      let text := trim <$> response in
      if negb (truthy text) then Throw (utf16 "Received an empty response from the AI.")
      else
        andThen (JSON_parse (default [] text)) (λ parsedResult,
        andThen (property parsedResult (utf16 "expression")) (λ expression,
        andThen (property parsedResult (utf16 "result")) (λ result,
        andThen (property parsedResult (utf16 "explanation")) (λ explanation,
          match expression, result, explanation with
          | Some (JString expression), Some result, Some (JString explanation) =>
              andThen (toString result) (λ result,
              Normal {| App.expression := expression;
                        App.result := result;
                        App.explanation := explanation |})
          | _, _, _ => Throw (utf16 "AI response is not in the expected format.")
          end))))) in
  (match attempt with
   | Normal solution => Normal solution
   | Throw _ =>
       Throw (utf16 "The AI model could not process the request. Please try again.")
   end,
   [request]).

(** The service as [App] calls it; [base64] is the encoder behind
    [toDataURL]. *)
Definition solver (base64 : Image → JSString) : App.Solver :=
  λ request,
    match request with
    | App.solveMathProblem imageDataUrl =>
        fst (solveMathProblem (href base64 imageDataUrl))
    | App.solveMathProblemFromText problem => fst (solveMathProblemFromText problem)
    end.

End Service.

End GeminiService.

(* ===================================================================== *)
(** ** Reading the rest of the model *)
(* ===================================================================== *)

(** *** Resizing *)
(** The context the component draws with after [setupContext]. *)
Definition penContext (document : Document) : CanvasRenderingContext2D :=
  {| lineCap := "round"; lineJoin := "round";
     strokeStyle := if dark document then RGBA 229 231 235 255 else RGBA 31 41 55 255;
     fillStyle := black; lineWidth := 4%float; path := [] |}.

(** The state one resize observer entry leaves behind. *)
Definition resized (entry : ContentRect) (document : Document) (s : CanvasState)
    : CanvasState :=
  {| canvasRef :=
       (λ canvas,
          {| width := rect_width entry; height := rect_height entry;
             bitmap := blank (rect_width entry) (rect_height entry);
             context2d := if contextAvailable canvas then penContext document
                          else defaultContext;
             contextAvailable := contextAvailable canvas;
             getBoundingClientRect := getBoundingClientRect canvas |})
       <$> canvasRef s;
     contextRef := match canvasRef s with
                   | Some canvas => contextRef s || contextAvailable canvas
                   | None => contextRef s
                   end;
     observing := observing s;
     isDrawing := isDrawing s;
     isDirty := isDirty s |}.

(** An action that can change the raster. *)
Definition mayRepaint (a : Action) : bool :=
  match a with
  | Resize _ _ | CallClearCanvas => true
  | Dispatch onMouseMove _ | Dispatch onTouchMove _ => true
  | _ => false
  end.

Definition isResize (a : Action) : bool :=
  match a with
  | Resize _ _ => true
  | _ => false
  end.

Definition isReflow (a : Action) : bool :=
  match a with
  | Reflow _ => true
  | _ => false
  end.

Definition isMove (p : EventProp) : bool :=
  match p with
  | onMouseMove | onTouchMove => true
  | _ => false
  end.

(** The action strokes the path: a move event while a stroke is in
    progress through a stored context. *)
Definition strokes (a : Action) (s : CanvasState) : bool :=
  match a with
  | Dispatch p _ => isMove p && isDrawing s && contextRef s
  | _ => false
  end.

(** The action leaves the pixel alone: when it strokes the path, the
    stroke does not reach the pixel. *)
Definition spares (rasterize : Rasterizer) (px py : nat) (a : Action) (s : CanvasState)
    : bool :=
  if strokes a s then
    match canvasRef (exec rasterize a s) with
    | Some canvas => alpha (rasterize (context2d canvas) px py) =? 0
    | None => true
    end
  else true.

(** The pixel lies outside every stroke painted along the trace. *)
Fixpoint outsideEveryStroke (rasterize : Rasterizer) (px py : nat) (trace : list Action)
    (s : CanvasState) : bool :=
  match trace with
  | [] => true
  | a :: rest =>
      spares rasterize px py a s
      && outsideEveryStroke rasterize px py rest (exec rasterize a s)
  end.

(** The component has not begun a stroke and its raster is blank. *)
Definition untouched (s : CanvasState) : Prop :=
  isDrawing s = false
  ∧ ∀ canvas, canvasRef s = Some canvas →
      bitmap canvas = blank (width canvas) (height canvas).

Definition finiteCoords (c : Coords) : bool := finite (x c) && finite (y c).

(** The component is in the middle of a stroke whose path so far is the
    open polyline [pts]. *)
Definition strokeInProgress (s : CanvasState) (O : DOMRect) (pts : list Coords) : Prop :=
  contextRef s = true
  ∧ isDrawing s = true
  ∧ ∃ canvas, canvasRef s = Some canvas
              ∧ getBoundingClientRect canvas = O
              ∧ path (context2d canvas) = [{| points := pts; closed := false |}].

(** A string of white space only (the empty string included). *)
Definition isBlank (s : JSString) : bool := forallb isWhiteSpace s.

(** A canvas without pixels. *)
Definition isEmpty (canvas : HTMLCanvasElement) : bool :=
  (width canvas =? 0)%nat || (height canvas =? 0)%nat.

(** The temporary canvas of [getImageData] once it is filled with white,
    before the live canvas is drawn on it. *)
Definition whiteSheet (rasterize : Rasterizer) (document : Document)
    (canvas : HTMLCanvasElement) : HTMLCanvasElement :=
  fillRect rasterize 0 0 (width canvas) (height canvas)
    (withContext (set_fillStyle "#FFFFFF")
       (set_height (height canvas)
          (set_width (width canvas) (createElement document)))).

(** What holds of a running [App] whatever has happened. *)
Definition AppInv (rasterize : Rasterizer) (σ : Session) : Prop :=
  (App.isLoading (app σ) = true ↔ inFlight σ ≠ [])
  ∧ (length (inFlight σ) ≤ 1)%nat
  ∧ (inFlight σ ≠ [] →
     App.solution (app σ) = None ∧ App.error (app σ) = None)
  ∧ ¬ (is_Some (App.solution (app σ)) ∧ is_Some (App.error (app σ)))
  ∧ (App.canvasRef (app σ) = None ↔ App.inputMode (app σ) = App.text)
  ∧ (∀ canvas, App.canvasRef (app σ) = Some canvas → reachable rasterize canvas).

(** The string has no occurrence of the code unit. *)
Definition hasNo (sep : N) (s : JSString) : bool := forallb (λ c, negb (c =? sep)%N) s.

Definition invalidImage : JSString := utf16 "Invalid image data provided.".

Definition couldNotProcess : JSString :=
  utf16 "The AI model could not process the request. Please try again.".


Section ServiceReading.

Variable JSON_parse : JSString → Completion GeminiService.JSON.
Variable numberToString : float → JSString.

(** The reply of the API is one the service accepts, and [solution] is
    what it makes of it: a text that is not blank and that, trimmed,
    parses to an object with a string [expression], a [result] that
    [String] converts, and a string [explanation]. *)
Definition accepts (reply : Completion (option JSString)) (solution : App.MathSolution)
    : Prop :=
  ∃ text members expression result resultText explanation,
    reply = Normal (Some text)
    ∧ isBlank text = false
    ∧ JSON_parse (trim text) = Normal (GeminiService.JObject members)
    ∧ GeminiService.member (utf16 "expression") members
      = Some (GeminiService.JString expression)
    ∧ GeminiService.member (utf16 "result") members = Some result
    ∧ GeminiService.toString numberToString result = Normal resultText
    ∧ GeminiService.member (utf16 "explanation") members
      = Some (GeminiService.JString explanation)
    ∧ solution = {| App.expression := expression;
                    App.result := resultText;
                    App.explanation := explanation |}.

(** The [try] block of both entry points, as a function of the reply. *)
Definition attempt (reply : Completion (option JSString)) : Completion App.MathSolution :=
  GeminiService.andThen reply (λ response,
    let text := trim <$> response in
    if negb (truthy text) then Throw (utf16 "Received an empty response from the AI.")
    else
      GeminiService.andThen (JSON_parse (default [] text)) (λ parsedResult,
      GeminiService.andThen (GeminiService.property parsedResult (utf16 "expression"))
        (λ expression,
      GeminiService.andThen (GeminiService.property parsedResult (utf16 "result"))
        (λ result,
      GeminiService.andThen (GeminiService.property parsedResult (utf16 "explanation"))
        (λ explanation,
        match expression, result, explanation with
        | Some (GeminiService.JString expression), Some result,
          Some (GeminiService.JString explanation) =>
            GeminiService.andThen (GeminiService.toString numberToString result)
              (λ result,
              Normal {| App.expression := expression;
                        App.result := result;
                        App.explanation := explanation |})
        | _, _, _ => Throw (utf16 "AI response is not in the expected format.")
        end))))).

End ServiceReading.

(** *** More concrete inputs *)

(** Pressed at local (2, 2) and moved to local (3, 2), not yet released. *)
Definition drawingState : CanvasState :=
  run brushRasterizer
    [Dispatch onMouseDown (MouseEvent 10%float 18.5%float);
     Dispatch onMouseMove (MouseEvent 11%float 18.5%float)]
    sampleState.

Definition inkedApp : App.AppState :=
  {| App.canvasRef := Some inkedState; App.solution := None;
     App.isLoading := false; App.error := None;
     App.inputMode := App.handwriting; App.textProblem := [] |}.

Definition textApp : App.AppState :=
  {| App.canvasRef := None; App.solution := None;
     App.isLoading := false; App.error := None;
     App.inputMode := App.text; App.textProblem := utf16 " 2 + 2 " |}.

(** A text of a space, a no-break space, an em space and an ideographic
    space. *)
Definition blankText : JSString := [32; 160; 8195; 12288]%N.

Definition blankTextApp : App.AppState :=
  {| App.canvasRef := None; App.solution := None;
     App.isLoading := false; App.error := None;
     App.inputMode := App.text; App.textProblem := blankText |}.

Definition rejectingSolver : App.Solver := λ _, Throw (utf16 "offline").

(** Ink on the canvas, then a resize to no width at all. *)
Definition collapseTo0x6 : Action :=
  Resize [{| rect_width := 0; rect_height := 6 |}] lightDocument.

Definition collapsedState : CanvasState := exec brushRasterizer collapseTo0x6 inkedState.

Definition collapsedApp : App.AppState :=
  {| App.canvasRef := Some collapsedState; App.solution := None;
     App.isLoading := false; App.error := None;
     App.inputMode := App.handwriting; App.textProblem := [] |}.

(** A session in which a stroke was drawn and Solve was clicked. *)
Definition solvingSession : Session :=
  appRun brushRasterizer
    ([OnCanvas (Resize [{| rect_width := 8; rect_height := 6 |}] lightDocument)]
     ++ map OnCanvas strokeTrace ++ [ClickSolve lightDocument])
    {| app := initialApp true sampleRect lightDocument; inFlight := [] |}.

(** A session in which a stroke was drawn and the panel then collapsed. *)
Definition collapsedSession : Session :=
  appRun brushRasterizer
    ([OnCanvas (Resize [{| rect_width := 8; rect_height := 6 |}] lightDocument)]
     ++ map OnCanvas strokeTrace ++ [OnCanvas collapseTo0x6])
    {| app := initialApp true sampleRect lightDocument; inFlight := [] |}.

(** An API that always answers with the same text, padded with a space
    and a no-break space, and a parser that reads that text. *)
Definition sampleGenerateContent
    : GeminiService.GenerateContentParameters → Completion (option JSString) :=
  λ _, Normal (Some (32%N :: utf16 "{ok}" ++ [160%N])).

Definition sampleParse : JSString → Completion GeminiService.JSON :=
  λ text,
    if bool_decide (text = utf16 "{ok}")
    then Normal (GeminiService.JObject
                   [(utf16 "expression", GeminiService.JString (utf16 "1+1"));
                    (utf16 "result", GeminiService.JNumber 2%float);
                    (utf16 "explanation", GeminiService.JString (utf16 "Add."))])
    else if bool_decide (text = utf16 "{odd}")
    then Normal (GeminiService.JObject
                   [(utf16 "expression", GeminiService.JString (utf16 "1+1"));
                    (utf16 "result",
                     GeminiService.JObject [(utf16 "toString", GeminiService.JNumber 1%float)]);
                    (utf16 "explanation", GeminiService.JString (utf16 "Add."))])
    else Throw (utf16 "SyntaxError").

Definition sampleNumberToString : float → JSString := λ _, utf16 "2".

(** A stand-in for the encoder behind [toDataURL]. *)
Definition sampleBase64 : Image → JSString := λ _, utf16 "iVBORw0KGgo=".

(* ===================================================================== *)
(** ** Properties *)
(* ===================================================================== *)

Lemma bind_run {A B} (m : M A) (k : A → M B) (s : CanvasState) :
  bind m k s = match m s with
               | (Normal a, s') => k a s'
               | (Throw e, s') => (Throw e, s')
               end.
Proof. reflexivity. Qed.

(** *** Bitmaps *)

Lemma lookup_mapPixels (f : nat → nat → rgba → rgba) (b : Bitmap) (py : nat) :
  mapPixels f b !! py = imap (λ px p, f px py p) <$> b !! py.
Proof. unfold mapPixels. rewrite list_lookup_imap. reflexivity. Qed.

Lemma pixelAt_mapPixels (f : nat → nat → rgba → rgba) (b : Bitmap) (px py : nat) :
  pixelAt (mapPixels f b) px py = f px py <$> pixelAt b px py.
Proof.
  unfold pixelAt. rewrite lookup_mapPixels.
  destruct (b !! py) as [row |]; simpl; [| reflexivity].
  rewrite list_lookup_imap. reflexivity.
Qed.

Lemma shaped_blank (w h : nat) : shaped w h (blank w h).
Proof.
  split; [apply length_replicate |].
  apply Forall_replicate, length_replicate.
Qed.

Lemma shaped_mapPixels (f : nat → nat → rgba → rgba) (w h : nat) (b : Bitmap) :
  shaped w h b → shaped w h (mapPixels f b).
Proof.
  intros [Hh Hw]. split.
  - unfold mapPixels. now rewrite length_imap.
  - apply Forall_lookup_2. intros py row Hrow.
    rewrite lookup_mapPixels in Hrow.
    destruct (b !! py) as [row0 |] eqn:E; simpl in Hrow; [| discriminate].
    inversion Hrow; subst row. rewrite length_imap.
    exact (Forall_lookup_1 _ _ _ _ Hw E).
Qed.

Lemma pixelAt_inside (w h : nat) (b : Bitmap) (px py : nat) :
  shaped w h b → (px < w)%nat → (py < h)%nat → is_Some (pixelAt b px py).
Proof.
  intros [Hh Hw] Hx Hy. unfold pixelAt.
  destruct (lookup_lt_is_Some_2 b py) as [row Hrow]; [lia |].
  rewrite Hrow. simpl. apply lookup_lt_is_Some_2.
  rewrite (Forall_lookup_1 _ _ _ _ Hw Hrow). exact Hx.
Qed.

Lemma pixelAt_bounds (w h : nat) (b : Bitmap) (px py : nat) (p : rgba) :
  shaped w h b → pixelAt b px py = Some p → (px < w)%nat ∧ (py < h)%nat.
Proof.
  intros [Hh Hw] Hp. unfold pixelAt in Hp.
  destruct (b !! py) as [row |] eqn:E; simpl in Hp; [| discriminate].
  split.
  - rewrite <- (Forall_lookup_1 _ _ _ _ Hw E). exact (lookup_lt_Some _ _ _ Hp).
  - rewrite <- Hh. exact (lookup_lt_Some _ _ _ E).
Qed.

Lemma pixelAt_uniform (w h : nat) (c : rgba) (px py : nat) :
  (px < w)%nat → (py < h)%nat → pixelAt (replicate h (replicate w c)) px py = Some c.
Proof.
  intros Hx Hy. unfold pixelAt.
  rewrite lookup_replicate_2 by exact Hy. simpl.
  now apply lookup_replicate_2.
Qed.

(** A pixel map that sends every pixel of the bitmap to the same colour
    produces the uniform bitmap. *)
Lemma mapPixels_uniform (f : nat → nat → rgba → rgba) (w h : nat) (b : Bitmap) (c : rgba) :
  shaped w h b →
  (∀ px py p, pixelAt b px py = Some p → f px py p = c) →
  mapPixels f b = replicate h (replicate w c).
Proof.
  intros [Hh Hw] Hf. apply list_eq. intros py.
  rewrite lookup_mapPixels.
  destruct (b !! py) as [row |] eqn:E; simpl.
  - assert (Hy : (py < h)%nat) by (rewrite <- Hh; exact (lookup_lt_Some _ _ _ E)).
    assert (Hrow : length row = w) by exact (Forall_lookup_1 _ _ _ _ Hw E).
    rewrite lookup_replicate_2 by exact Hy. f_equal.
    apply list_eq. intros px. rewrite list_lookup_imap.
    destruct (row !! px) as [p |] eqn:Ep; simpl.
    + assert (Hx : (px < w)%nat) by (rewrite <- Hrow; exact (lookup_lt_Some _ _ _ Ep)).
      rewrite lookup_replicate_2 by exact Hx. f_equal.
      apply Hf. unfold pixelAt. now rewrite E.
    + symmetry. apply lookup_replicate_None.
      rewrite <- Hrow. now apply lookup_ge_None.
  - symmetry. apply lookup_replicate_None.
    rewrite <- Hh. now apply lookup_ge_None.
Qed.

Lemma inRect_whole (w h px py : nat) :
  (px < w)%nat → (py < h)%nat → inRect 0 0 w h px py = true.
Proof.
  intros Hx Hy. unfold inRect.
  repeat (apply andb_true_intro; split);
    first [apply Nat.leb_le | apply Nat.ltb_lt]; lia.
Qed.

(** *** Compositing *)

Lemma over_white_opaque (rasterize : Rasterizer) (s : rgba) :
  alpha (over rasterize s white) = 255.
Proof. now apply over_backdrop. Qed.

(** A stroke changes only the pixels the rasterizer paints. *)
Lemma stroke_outside (rasterize : Rasterizer) (c : HTMLCanvasElement) (px py : nat) :
  alpha (rasterize (context2d c) px py) = 0 →
  pixelAt (bitmap (stroke rasterize c)) px py = pixelAt (bitmap c) px py.
Proof.
  intros H. unfold stroke, withBitmap. cbn [bitmap].
  rewrite pixelAt_mapPixels.
  destruct (pixelAt (bitmap c) px py) as [p |]; simpl; [| reflexivity].
  now rewrite over_transparent.
Qed.

(** *** The handlers, one by one *)

Lemma getImageData_run (rasterize : Rasterizer) (document : Document) (s : CanvasState) :
  getImageData rasterize document s
  = (match canvasRef s with
     | None => Normal None
     | Some canvas =>
         if isDirty s then
           if canvas2d document then
             match drawImage rasterize canvas 0 0 (whiteSheet rasterize document canvas) with
             | Some tempCanvas => Normal (Some (toDataURL "image/png" tempCanvas))
             | None => Throw (invalidStateMessage document)
             end
           else Normal (Some (toDataURL "image/png" canvas))
         else Normal None
     end, s).
Proof.
  unfold getImageData, whiteSheet. rewrite bind_run. cbn [get].
  destruct (canvasRef s) as [canvas |]; [| reflexivity].
  destruct (isDirty s); [| reflexivity].
  cbn [negb set_height set_width contextAvailable createElement width height].
  destruct (canvas2d document); [| reflexivity].
  destruct (drawImage _ _ _ _ _); reflexivity.
Qed.

(** [getImageData] leaves the component state as it is, however it ends. *)
Lemma getImageData_state (rasterize : Rasterizer) (document : Document) (s : CanvasState) :
  snd (getImageData rasterize document s) = s.
Proof. now rewrite getImageData_run. Qed.

Lemma getImageData_then (rasterize : Rasterizer) (document : Document) (s : CanvasState) :
  snd ((getImageData rasterize document;; ret tt) s) = s.
Proof.
  rewrite bind_run.
  pose proof (getImageData_state rasterize document s) as H.
  destruct (getImageData rasterize document s) as [[r | e] s']; exact H.
Qed.

Lemma getImageData_clean (rasterize : Rasterizer) (document : Document) (s : CanvasState) :
  isDirty s = false → getImageData rasterize document s = (Normal None, s).
Proof. intros H. rewrite getImageData_run, H. now destruct (canvasRef s). Qed.

Ltac mstep :=
  rewrite bind_run;
  cbn [onCanvas setIsDrawing setIsDirty setContextRef setObserving modify get ret
       canvasRef contextRef observing isDrawing isDirty].

Ltac split_inv := refine (conj _ (conj _ (conj _ (conj _ _)))).

Lemma Inv_initial (ctxAvailable : bool) (rect : DOMRect) :
  Inv (initialState ctxAvailable rect).
Proof.
  unfold Inv, initialState, freshCanvas. cbn [isDrawing isDirty contextRef canvasRef width height bitmap contextAvailable].
  repeat split; try discriminate; apply shaped_blank.
Qed.

Lemma Inv_setupContext (document : Document) (s : CanvasState) :
  Inv s → Inv (snd (setupContext document s)).
Proof.
  destruct s as [[canvas |] ctx obs drw dty]; [| exact id].
  unfold setupContext. rewrite bind_run. cbn [get canvasRef].
  destruct (contextAvailable canvas) eqn:E; [| exact id].
  unfold Inv. cbn -[blank shaped]. rewrite E.
  intros (Hd & Hi & Hs & Ha & Hb). split_inv; auto; intros; discriminate.
Qed.

Lemma Inv_useEffect (hasParent : bool) (document : Document) (s : CanvasState) :
  Inv s → Inv (snd (useEffect hasParent document s)).
Proof.
  intros H. unfold useEffect. rewrite bind_run. cbn [get].
  destruct (canvasRef s) as [canvas |] eqn:E; [| exact H].
  destruct hasParent; [| exact H]. cbn [negb].
  rewrite bind_run. cbn [setObserving modify].
  apply Inv_setupContext.
  destruct s; exact H.
Qed.

Lemma Inv_resizeCallback (entries : list ContentRect) (document : Document) (s : CanvasState) :
  Inv s → Inv (snd (resizeCallback entries document s)).
Proof.
  revert s. induction entries as [| entry rest IH]; intros s H; [exact H |].
  cbn [resizeCallback]. do 3 mstep.
  set (s1 := {| canvasRef := _ |}).
  assert (H1 : Inv s1).
  { subst s1. destruct s as [[canvas |] ctx obs drw dty]; [| exact H].
    unfold Inv in *. cbn -[blank shaped] in *.
    destruct H as (Hd & Hi & Hs & Ha & Hb).
    split_inv; auto using shaped_blank. }
  pose proof (Inv_setupContext document s1 H1) as H2.
  destruct (setupContext document s1) as [[[] | e] s2] eqn:E; cbn [snd] in H2.
  - now apply IH.
  - exact H2.
Qed.

Lemma getCoords_state (event : SyntheticEvent) (s : CanvasState) :
  snd (getCoords event s) = s.
Proof.
  unfold getCoords. rewrite bind_run. cbn [get].
  destruct (canvasRef s) as [canvas |]; [| reflexivity].
  destruct event as [cX cY | touches]; [reflexivity |].
  destruct (touches !! 0%nat); reflexivity.
Qed.

Lemma startDrawing_without_context (event : SyntheticEvent) (s : CanvasState) :
  contextRef s = false → startDrawing event s = (Normal tt, s).
Proof.
  intros H. unfold startDrawing. rewrite bind_run. cbn [get]. now rewrite H.
Qed.

Lemma draw_idle (rasterize : Rasterizer) (event : SyntheticEvent) (s : CanvasState) :
  isDrawing s = false ∨ contextRef s = false →
  draw rasterize event s = (Normal tt, s).
Proof.
  intros H. unfold draw. rewrite bind_run. cbn [get].
  destruct H as [H | H]; rewrite H; [reflexivity |].
  now rewrite orb_true_r.
Qed.

Lemma stopDrawing_run (s : CanvasState) :
  stopDrawing s
  = (Normal tt,
     {| canvasRef := if contextRef s then closePath <$> canvasRef s else canvasRef s;
        contextRef := contextRef s; observing := observing s;
        isDrawing := false; isDirty := isDirty s |}).
Proof.
  destruct s as [c [] obs drw dty]; reflexivity.
Qed.

Lemma clearCanvas_run (s : CanvasState) :
  clearCanvas s
  = (Normal tt,
     match canvasRef s, contextRef s with
     | Some canvas, true =>
         {| canvasRef := Some (clearRect 0 0 (width canvas) (height canvas) canvas);
            contextRef := true; observing := observing s;
            isDrawing := isDrawing s; isDirty := false |}
     | _, _ => s
     end).
Proof.
  destruct s as [[canvas |] [] obs drw dty]; reflexivity.
Qed.

Lemma Inv_startDrawing (event : SyntheticEvent) (s : CanvasState) :
  Inv s → Inv (snd (startDrawing event s)).
Proof.
  intros H. destruct (contextRef s) eqn:Ex.
  2: { now rewrite startDrawing_without_context. }
  unfold startDrawing. mstep. rewrite Ex. cbn [negb]. rewrite bind_run.
  pose proof (getCoords_state event s) as Hs.
  destruct (getCoords event s) as [[c | e] s'] eqn:Eg; cbn [snd] in Hs; subst s'; [| exact H].
  destruct s as [[canvas |] ctx obs drw dty]; cbn [contextRef] in Ex; subst ctx.
  - unfold Inv in *. cbn -[blank shaped] in H.
    destruct H as (Hd & Hi & Hs & Ha & Hb).
    unfold moveTo. destruct (finite (x c) && finite (y c)), dty;
      cbn -[blank shaped]; split_inv; auto; intros; discriminate.
  - destruct H as (_ & _ & H). cbn in H. discriminate.
Qed.

Lemma Inv_draw (rasterize : Rasterizer) (event : SyntheticEvent) (s : CanvasState) :
  Inv s → Inv (snd (draw rasterize event s)).
Proof.
  intros H. destruct (isDrawing s) eqn:Ed.
  2: { rewrite draw_idle; [exact H | now left]. }
  destruct (contextRef s) eqn:Ex.
  2: { rewrite draw_idle; [exact H | now right]. }
  unfold draw. mstep. rewrite Ed, Ex. cbn [negb orb]. rewrite bind_run.
  pose proof (getCoords_state event s) as Hs.
  destruct (getCoords event s) as [[c | e] s'] eqn:Eg; cbn [snd] in Hs; subst s'; [| exact H].
  destruct s as [[canvas |] ctx obs drw dty]; cbn [contextRef] in Ex; subst ctx.
  - unfold Inv in *. cbn -[blank shaped] in H.
    destruct H as (Hd & Hi & Hs & Ha & Hb).
    unfold lineTo. destruct (finite (x c) && finite (y c));
      cbn -[blank shaped mapPixels]; split_inv; auto using shaped_mapPixels;
      intros; discriminate.
  - destruct H as (_ & _ & H). cbn in H. discriminate.
Qed.

Lemma Inv_stopDrawing (s : CanvasState) : Inv s → Inv (snd (stopDrawing s)).
Proof.
  intros H. rewrite stopDrawing_run. cbn [snd].
  destruct s as [[canvas |] [] obs drw dty]; unfold Inv in *;
    cbn -[blank shaped] in *; intuition discriminate.
Qed.

Lemma Inv_clearCanvas (s : CanvasState) : Inv s → Inv (snd (clearCanvas s)).
Proof.
  intros H. rewrite clearCanvas_run. cbn [snd].
  destruct s as [[canvas |] [] obs drw dty]; try exact H.
  unfold Inv in *. cbn -[blank shaped mapPixels] in *.
  destruct H as (Hd & Hi & Hs & Ha & Hb).
  split_inv; auto using shaped_mapPixels; intros; discriminate.
Qed.

Lemma Inv_exec (rasterize : Rasterizer) (a : Action) (s : CanvasState) :
  Inv s → Inv (exec rasterize a s).
Proof.
  intros H. unfold exec. destruct a as [hasParent document | entries document | rect | p event | | document];
    cbn [perform].
  - now apply Inv_useEffect.
  - rewrite bind_run. cbn [get]. destruct (observing s); [| exact H].
    now apply Inv_resizeCallback.
  - destruct s as [[canvas |] ctx obs drw dty]; exact H.
  - destruct p; cbn [handler];
      auto using Inv_startDrawing, Inv_draw, Inv_stopDrawing.
  - now apply Inv_clearCanvas.
  - rewrite getImageData_then. exact H.
Qed.

(** Every reachable state satisfies the invariant. *)
Lemma reachable_Inv (rasterize : Rasterizer) (s : CanvasState) :
  reachable rasterize s → Inv s.
Proof.
  induction 1 as [ctxAvailable rect | a s _ IH].
  - apply Inv_initial.
  - now apply Inv_exec.
Qed.

Lemma reachable_run (rasterize : Rasterizer) (trace : list Action) (s : CanvasState) :
  reachable rasterize s → reachable rasterize (run rasterize trace s).
Proof.
  revert s. induction trace as [| a trace IH]; intros s H; [exact H |].
  cbn [run foldl]. apply IH. now constructor.
Qed.

(** *** The ink flag along a trace *)

Lemma isDirty_setupContext (document : Document) (s : CanvasState) :
  isDirty (snd (setupContext document s)) = isDirty s.
Proof.
  destruct s as [[canvas |] ctx obs drw dty]; [| reflexivity].
  unfold setupContext. rewrite bind_run. cbn [get canvasRef].
  destruct (contextAvailable canvas); reflexivity.
Qed.

Lemma isDirty_resizeCallback (entries : list ContentRect) (document : Document)
    (s : CanvasState) :
  isDirty (snd (resizeCallback entries document s)) = isDirty s.
Proof.
  revert s. induction entries as [| entry rest IH]; intros s; [reflexivity |].
  cbn [resizeCallback]. do 3 mstep.
  set (s1 := {| canvasRef := _ |}).
  pose proof (isDirty_setupContext document s1) as H.
  destruct (setupContext document s1) as [[[] | e] s2]; cbn [snd] in H |- *.
  - now rewrite IH.
  - exact H.
Qed.

Lemma isDirty_draw (rasterize : Rasterizer) (event : SyntheticEvent) (s : CanvasState) :
  isDirty (snd (draw rasterize event s)) = isDirty s.
Proof.
  unfold draw. rewrite bind_run. cbn [get].
  destruct (negb (isDrawing s) || negb (contextRef s)); [reflexivity |].
  rewrite bind_run.
  pose proof (getCoords_state event s) as Hs.
  destruct (getCoords event s) as [[c | e] s']; cbn [snd] in Hs; subst s'; reflexivity.
Qed.

Lemma isDirty_exec_false (rasterize : Rasterizer) (a : Action) (s : CanvasState) :
  beginsStroke a = false → isDirty s = false → isDirty (exec rasterize a s) = false.
Proof.
  intros Ha Hs. unfold exec.
  destruct a as [hasParent document | entries document | rect | p event | | document];
    cbn [perform].
  - unfold useEffect. rewrite bind_run. cbn [get].
    destruct (canvasRef s); [| exact Hs]. destruct hasParent; [| exact Hs].
    cbn [negb]. mstep. now rewrite isDirty_setupContext.
  - rewrite bind_run. cbn [get]. destruct (observing s); [| exact Hs].
    now rewrite isDirty_resizeCallback.
  - exact Hs.
  - destruct p; cbn [handler]; try discriminate Ha;
      rewrite ?isDirty_draw, ?stopDrawing_run; exact Hs.
  - rewrite clearCanvas_run. cbn [snd].
    destruct (canvasRef s), (contextRef s); try exact Hs; reflexivity.
  - rewrite getImageData_then. exact Hs.
Qed.

Lemma isDirty_run_false (rasterize : Rasterizer) (trace : list Action) (s : CanvasState) :
  Forall (λ a, beginsStroke a = false) trace →
  isDirty s = false → isDirty (run rasterize trace s) = false.
Proof.
  intros H. revert s. induction H as [| a trace Ha _ IH]; intros s Hs; [exact Hs |].
  cbn [run foldl]. apply IH. now apply isDirty_exec_false.
Qed.

Lemma pixelAt_blank_transparent (w h px py : nat) (p : rgba) :
  pixelAt (blank w h) px py = Some p → p = transparent.
Proof.
  intros Hp.
  destruct (pixelAt_bounds _ _ _ _ _ _ (shaped_blank w h) Hp) as [Hx Hy].
  unfold blank in Hp. rewrite pixelAt_uniform in Hp by assumption. congruence.
Qed.

Lemma bitmap_setupContext (document : Document) (s : CanvasState) :
  bitmap <$> canvasRef (snd (setupContext document s)) = bitmap <$> canvasRef s.
Proof.
  destruct s as [[canvas |] ctx obs drw dty]; [| reflexivity].
  unfold setupContext. rewrite bind_run. cbn [get canvasRef].
  destruct (contextAvailable canvas); reflexivity.
Qed.

Lemma livePixel_bitmap (s s' : CanvasState) (px py : nat) :
  bitmap <$> canvasRef s' = bitmap <$> canvasRef s →
  livePixel s' px py = livePixel s px py.
Proof.
  unfold livePixel. intros H.
  destruct (canvasRef s') as [c' |], (canvasRef s) as [c |]; cbn in *; congruence.
Qed.

Lemma transparentAt_resizeCallback (entries : list ContentRect) (document : Document)
    (s : CanvasState) (px py : nat) :
  transparentAt s px py →
  transparentAt (snd (resizeCallback entries document s)) px py.
Proof.
  revert s. induction entries as [| entry rest IH]; intros s H; [exact H |].
  cbn [resizeCallback]. do 3 mstep.
  set (s1 := {| canvasRef := _ |}).
  assert (H1 : transparentAt s1 px py).
  { intros p. subst s1. unfold livePixel. cbn [canvasRef].
    destruct (canvasRef s) as [canvas |]; cbn; [| discriminate].
    intros Hp. now rewrite (pixelAt_blank_transparent _ _ _ _ _ Hp). }
  pose proof (bitmap_setupContext document s1) as Hb.
  destruct (setupContext document s1) as [[[] | e] s2]; cbn [snd] in Hb |- *.
  - apply IH. intros p. rewrite (livePixel_bitmap _ _ _ _ Hb). apply H1.
  - intros p. rewrite (livePixel_bitmap _ _ _ _ Hb). apply H1.
Qed.

(** A pixel that an action spares stays free of ink. *)
Lemma spared_pixel_stays_transparent (rasterize : Rasterizer) (a : Action)
    (s : CanvasState) (px py : nat) :
  spares rasterize px py a s = true →
  transparentAt s px py → transparentAt (exec rasterize a s) px py.
Proof.
  intros Hsp H. unfold exec.
  destruct a as [hasParent document | entries document | rect | p event | | document];
    cbn [perform].
  - unfold useEffect. rewrite bind_run. cbn [get].
    destruct (canvasRef s) as [canvas |] eqn:Ec; [| exact H].
    destruct hasParent; [| exact H]. cbn [negb]. mstep.
    intros q. rewrite (livePixel_bitmap _ _ _ _ (bitmap_setupContext _ _)).
    cbn [canvasRef]. rewrite Ec. intros Hq. apply H. unfold livePixel. now rewrite Ec.
  - rewrite bind_run. cbn [get]. destruct (observing s); [| exact H].
    now apply transparentAt_resizeCallback.
  - intros q Hq. apply H. revert Hq. unfold livePixel. cbn.
    now destruct (canvasRef s).
  - assert (Hstop : transparentAt (snd (stopDrawing s)) px py).
    { rewrite stopDrawing_run. intros q Hq. apply H. revert Hq.
      unfold livePixel. cbn. now destruct (contextRef s), (canvasRef s). }
    assert (Hstart : transparentAt (snd (startDrawing event s)) px py).
    { unfold startDrawing. rewrite bind_run. cbn [get].
      destruct (negb (contextRef s)); [exact H |]. rewrite bind_run.
      pose proof (getCoords_state event s) as Hs.
      destruct (getCoords event s) as [[c | e] s'];
        cbn [snd] in Hs; subst s'; [| exact H].
      intros q Hq. apply H. revert Hq. unfold livePixel, moveTo.
      destruct s as [[canvas |] ctx obs drw dty];
        destruct (finite (x c) && finite (y c)), dty; cbn; auto. }
    assert (Hdraw : isMove p = true → transparentAt (snd (draw rasterize event s)) px py).
    { intros Hmove. unfold spares, strokes in Hsp. rewrite Hmove in Hsp.
      replace (exec rasterize (Dispatch p event) s)
        with (snd (draw rasterize event s)) in Hsp
        by (destruct p; try discriminate Hmove; reflexivity).
      revert Hsp. unfold draw. rewrite bind_run. cbn [get].
      destruct (isDrawing s) eqn:Ed; [| intros _; exact H].
      destruct (contextRef s) eqn:Ex; [| intros _; exact H].
      cbn [negb orb andb]. rewrite bind_run.
      pose proof (getCoords_state event s) as Hs.
      destruct (getCoords event s) as [[c | e] s'];
        cbn [snd] in Hs; subst s'; [| intros _; exact H].
      destruct s as [[canvas |] ctx obs drw dty]; [| intros _ q; discriminate].
      cbn -[stroke lineTo]. intros Hsp q. unfold livePixel. cbn -[stroke lineTo].
      rewrite stroke_outside by (apply Z.eqb_eq; exact Hsp).
      intros Hq. apply H. revert Hq. unfold livePixel, lineTo.
      destruct (finite (x c) && finite (y c)); cbn; auto. }
    destruct p; cbn [handler]; auto.
  - rewrite clearCanvas_run. cbn [snd].
    destruct (canvasRef s) as [canvas |] eqn:Ec; [| exact H].
    destruct (contextRef s); [| exact H].
    intros q. unfold livePixel. cbn [canvasRef mbind option_bind clearRect withBitmap bitmap].
    rewrite pixelAt_mapPixels.
    destruct (pixelAt (bitmap canvas) px py) as [q0 |] eqn:Eq; cbn; [| discriminate].
    destruct (inRect 0 0 (width canvas) (height canvas) px py).
    + now intros [= <-].
    + intros [= <-]. apply H. unfold livePixel. now rewrite Ec.
  - rewrite getImageData_then. exact H.
Qed.

(** A pixel outside every stroke of a trace from the first render holds
    no ink. *)
Lemma outside_strokes_transparent (rasterize : Rasterizer) (trace : list Action)
    (s : CanvasState) (px py : nat) :
  outsideEveryStroke rasterize px py trace s = true →
  transparentAt s px py → transparentAt (run rasterize trace s) px py.
Proof.
  revert s. induction trace as [| a trace IH]; intros s Ho H; [exact H |].
  cbn [outsideEveryStroke] in Ho. apply andb_prop in Ho as [Ha Ho].
  cbn [run foldl]. apply IH; [exact Ho |].
  now apply spared_pixel_stays_transparent.
Qed.

Lemma initialState_transparent (ctxAvailable : bool) (rect : DOMRect) (px py : nat) :
  transparentAt (initialState ctxAvailable rect) px py.
Proof.
  intros p Hp. unfold livePixel, initialState, freshCanvas in Hp.
  cbn [canvasRef bitmap mbind option_bind] in Hp.
  now rewrite (pixelAt_blank_transparent _ _ _ _ _ Hp).
Qed.

(** *** The App side of clearing *)

Lemma handleClear_handwriting (a : App.AppState) (canvas : CanvasState) :
  App.inputMode a = App.handwriting →
  App.canvasRef a = Some canvas →
  App.canvasRef (App.handleClear a) = Some (snd (clearCanvas canvas))
  ∧ App.solution (App.handleClear a) = None
  ∧ App.error (App.handleClear a) = None
  ∧ App.isLoading (App.handleClear a) = false
  ∧ App.textProblem (App.handleClear a) = App.textProblem a.
Proof.
  intros Hm Hc. unfold App.handleClear. rewrite Hm, Hc. cbn. auto.
Qed.

Lemma sampleState_reachable : reachable brushRasterizer sampleState.
Proof.
  change sampleState
    with (run brushRasterizer mountTrace (initialState true sampleRect)).
  apply reachable_run. constructor.
Qed.

Lemma inkedState_reachable : reachable brushRasterizer inkedState.
Proof. apply reachable_run, sampleState_reachable. Qed.

Lemma contextlessState_reachable : reachable brushRasterizer contextlessState.
Proof. apply reachable_run. constructor. Qed.

(* ===================================================================== *)
(** ** The claims *)
(* ===================================================================== *)

(** C1. While [isDirty] is false [getImageData] returns [null]: it neither
    throws nor returns an image.  In particular this is so in every state
    reached from the first render by a trace in which no stroke begins. *)
Theorem C1_no_ink_no_snapshot :
  ∀ (rasterize : Rasterizer) (document : Document),
    (∀ s, isDirty s = false → getImageData rasterize document s = (Normal None, s))
    ∧ (∀ ctxAvailable rect trace,
         Forall (λ a, beginsStroke a = false) trace →
         let s := run rasterize trace (initialState ctxAvailable rect) in
         getImageData rasterize document s = (Normal None, s)).
Proof.
  intros rasterize document.
  split; [apply getImageData_clean |].
  intros ctxAvailable rect trace Htrace s. apply getImageData_clean.
  now apply isDirty_run_false.
Qed.

Lemma C1_no_ink_no_snapshot_witness :
  getImageData brushRasterizer lightDocument sampleState = (Normal None, sampleState)
  ∧ getImageData brushRasterizer lightDocument
      (run brushRasterizer mountTrace (initialState true sampleRect))
    = (Normal None, run brushRasterizer mountTrace (initialState true sampleRect)).
Proof.
  destruct (C1_no_ink_no_snapshot brushRasterizer lightDocument) as [H1 H2].
  split.
  - apply H1. reflexivity.
  - apply (H2 true sampleRect mountTrace). repeat constructor.
Defined.

(** *** The composite built by [getImageData] *)

Lemma isEmpty_false (canvas : HTMLCanvasElement) :
  (0 < width canvas)%nat → (0 < height canvas)%nat → isEmpty canvas = false.
Proof.
  intros Hw Hh. unfold isEmpty.
  destruct (width canvas); [lia |]. destruct (height canvas); [lia |]. reflexivity.
Qed.

Lemma isEmpty_true (canvas : HTMLCanvasElement) :
  width canvas = 0%nat ∨ height canvas = 0%nat → isEmpty canvas = true.
Proof.
  unfold isEmpty. intros [-> | ->]; [reflexivity | apply orb_true_r].
Qed.

Lemma isEmpty_size (c c' : HTMLCanvasElement) :
  width c' = width c → height c' = height c → isEmpty c' = isEmpty c.
Proof. unfold isEmpty. now intros -> ->. Qed.

Lemma toDataURL_run (type : string) (c : HTMLCanvasElement) :
  toDataURL type c
  = if isEmpty c then EmptyDataURL
    else ImageDataURL {| mimeType := type; imageWidth := width c;
                         imageHeight := height c; pixels := bitmap c |}.
Proof. reflexivity. Qed.

Lemma drawImage_empty (rasterize : Rasterizer) (src c : HTMLCanvasElement) (dx dy : nat) :
  isEmpty src = true → drawImage rasterize src dx dy c = None.
Proof. unfold isEmpty, drawImage. now intros ->. Qed.

(** On a canvas with pixels, the live canvas is drawn onto the white
    sheet: the result has the size of the canvas and holds, at every
    position, the live pixel composited over white. *)
Lemma drawImage_onto_sheet (rasterize : Rasterizer) (document : Document)
    (canvas : HTMLCanvasElement) :
  isEmpty canvas = false →
  shaped (width canvas) (height canvas) (bitmap canvas) →
  ∃ tempCanvas,
    drawImage rasterize canvas 0 0 (whiteSheet rasterize document canvas) = Some tempCanvas
    ∧ width tempCanvas = width canvas
    ∧ height tempCanvas = height canvas
    ∧ shaped (width canvas) (height canvas) (bitmap tempCanvas)
    ∧ ∀ px py p,
        pixelAt (bitmap canvas) px py = Some p →
        pixelAt (bitmap tempCanvas) px py = Some (over rasterize p white).
Proof.
  intros He Hs. unfold drawImage. unfold isEmpty in He. rewrite He.
  eexists. split; [reflexivity |].
  unfold whiteSheet.
  cbn [fillRect withBitmap withContext set_height set_width bitmap width height context2d].
  split; [reflexivity |]. split; [reflexivity |].
  split; [do 2 apply shaped_mapPixels; apply shaped_blank |].
  intros px py p Hp.
  destruct (pixelAt_bounds _ _ _ _ _ _ Hs Hp) as [Hx Hy].
  rewrite !pixelAt_mapPixels. unfold blank. rewrite pixelAt_uniform by assumption.
  cbn [fmap option_fmap option_map Nat.leb andb].
  rewrite !Nat.sub_0_r, Hp, inRect_whole by assumption.
  do 2 f_equal. now apply over_opaque.
Qed.

Lemma getImageData_dirty (rasterize : Rasterizer) (document : Document)
    (s : CanvasState) (canvas : HTMLCanvasElement) :
  canvasRef s = Some canvas →
  isDirty s = true →
  getImageData rasterize document s
  = (if canvas2d document then
       match drawImage rasterize canvas 0 0 (whiteSheet rasterize document canvas) with
       | Some tempCanvas => Normal (Some (toDataURL "image/png" tempCanvas))
       | None => Throw (invalidStateMessage document)
       end
     else Normal (Some (toDataURL "image/png" canvas)), s).
Proof. intros Hc Hd. now rewrite getImageData_run, Hc, Hd. Qed.

(** With ink on a canvas without pixels no image comes back. *)
Lemma getImageData_empty (rasterize : Rasterizer) (document : Document)
    (s : CanvasState) (canvas : HTMLCanvasElement) :
  canvasRef s = Some canvas →
  isDirty s = true →
  isEmpty canvas = true →
  getImageData rasterize document s
  = (if canvas2d document then Throw (invalidStateMessage document)
     else Normal (Some EmptyDataURL), s).
Proof.
  intros Hc Hd He. rewrite (getImageData_dirty _ _ _ _ Hc Hd).
  rewrite (drawImage_empty _ _ _ _ _ He), toDataURL_run, He. reflexivity.
Qed.

(** With ink on a canvas with pixels an image comes back. *)
Lemma getImageData_image (rasterize : Rasterizer) (document : Document)
    (s : CanvasState) (canvas : HTMLCanvasElement) :
  canvasRef s = Some canvas →
  isDirty s = true →
  isEmpty canvas = false →
  shaped (width canvas) (height canvas) (bitmap canvas) →
  ∃ image,
    getImageData rasterize document s = (Normal (Some (ImageDataURL image)), s)
    ∧ mimeType image = "image/png"%string
    ∧ imageWidth image = width canvas
    ∧ imageHeight image = height canvas
    ∧ shaped (width canvas) (height canvas) (pixels image)
    ∧ (canvas2d document = true →
       ∀ px py p,
         pixelAt (bitmap canvas) px py = Some p →
         pixelAt (pixels image) px py = Some (over rasterize p white))
    ∧ (canvas2d document = false → pixels image = bitmap canvas).
Proof.
  intros Hc Hd He Hs. rewrite (getImageData_dirty _ _ _ _ Hc Hd).
  destruct (canvas2d document).
  - destruct (drawImage_onto_sheet rasterize document canvas He Hs)
      as (tempCanvas & -> & Hw & Hh & Hst & Hpx).
    rewrite toDataURL_run, (isEmpty_size _ _ Hw Hh), He.
    eexists. split; [reflexivity |]. cbn [mimeType imageWidth imageHeight pixels].
    split; [reflexivity |]. split; [exact Hw |]. split; [exact Hh |].
    split; [exact Hst |]. split; [intros _; exact Hpx | discriminate].
  - rewrite toDataURL_run, He.
    eexists. split; [reflexivity |]. cbn [mimeType imageWidth imageHeight pixels].
    split; [reflexivity |]. split; [reflexivity |]. split; [reflexivity |].
    split; [exact Hs |]. split; [discriminate | reflexivity].
Qed.

(** A bitmap of a given shape whose pixels all have one colour. *)
Lemma shaped_uniform (w h : nat) (b : Bitmap) (c : rgba) :
  shaped w h b →
  (∀ px py p, pixelAt b px py = Some p → p = c) →
  b = replicate h (replicate w c).
Proof.
  intros [Hh Hw] Hc. apply list_eq. intros py.
  destruct (b !! py) as [row |] eqn:E.
  - assert (Hy : (py < h)%nat) by (rewrite <- Hh; exact (lookup_lt_Some _ _ _ E)).
    assert (Hrow : length row = w) by exact (Forall_lookup_1 _ _ _ _ Hw E).
    rewrite lookup_replicate_2 by exact Hy. f_equal.
    apply list_eq. intros px.
    destruct (row !! px) as [p |] eqn:Ep.
    + assert (Hx : (px < w)%nat) by (rewrite <- Hrow; exact (lookup_lt_Some _ _ _ Ep)).
      rewrite lookup_replicate_2 by exact Hx. f_equal.
      apply (Hc px py). unfold pixelAt. rewrite E. exact Ep.
    + symmetry. apply lookup_replicate_None.
      rewrite <- Hrow. now apply lookup_ge_None.
  - symmetry. apply lookup_replicate_None.
    rewrite <- Hh. now apply lookup_ge_None.
Qed.

(** The image of a blank canvas with pixels: all white on the main path,
    the blank raster itself on the fallback path. *)
Lemma getImageData_blank (rasterize : Rasterizer) (document : Document)
    (s : CanvasState) (canvas : HTMLCanvasElement) :
  canvasRef s = Some canvas →
  isDirty s = true →
  isEmpty canvas = false →
  bitmap canvas = blank (width canvas) (height canvas) →
  getImageData rasterize document s
  = (Normal (Some (ImageDataURL
                     {| mimeType := "image/png";
                        imageWidth := width canvas;
                        imageHeight := height canvas;
                        pixels := if canvas2d document
                                  then whiteBitmap (width canvas) (height canvas)
                                  else blank (width canvas) (height canvas) |})), s).
Proof.
  intros Hc Hd He Hb.
  assert (Hs : shaped (width canvas) (height canvas) (bitmap canvas))
    by (rewrite Hb; apply shaped_blank).
  destruct (getImageData_image rasterize document s canvas Hc Hd He Hs)
    as ([mt iw ih px] & -> & Hm & Hw & Hh & Hsp & Hmain & Hfall).
  cbn [mimeType imageWidth imageHeight pixels] in *. subst mt iw ih.
  do 5 f_equal.
  destruct (canvas2d document).
  - apply (shaped_uniform _ _ _ _ Hsp). intros x y q Hq.
    destruct (pixelAt_bounds _ _ _ _ _ _ Hsp Hq) as [Hx Hy].
    assert (Hlive : pixelAt (bitmap canvas) x y = Some transparent).
    { rewrite Hb. unfold blank. now apply pixelAt_uniform. }
    rewrite (Hmain eq_refl x y transparent Hlive) in Hq. injection Hq as <-.
    now apply over_transparent.
  - rewrite (Hfall eq_refl). exact Hb.
Qed.

(** C2, as amended. In every reachable state with [isDirty] set, on a
    canvas of nonzero width and height, [getImageData] returns an image of
    the size of the live canvas.  When the temporary canvas hands out a 2D
    context, each pixel of the image is the live pixel composited over
    opaque white, at the same position: the image is opaque everywhere,
    white where the live raster is transparent, and the live pixel itself
    where that is opaque; so a pixel that lies outside every stroke
    painted since the first render is white.  When the temporary canvas
    hands out no context, the image is the live raster as it is.  On a
    canvas of width or height zero no image comes back: [drawImage]
    throws, or, when the temporary canvas hands out no context, the result
    is the URL [data:,]. *)
Theorem C2_snapshot_is_white_backed :
  ∀ (rasterize : Rasterizer) (document : Document),
    (∀ s,
       reachable rasterize s →
       isDirty s = true →
       ∃ canvas,
         canvasRef s = Some canvas
         ∧ ((0 < width canvas)%nat → (0 < height canvas)%nat →
            ∃ image,
              getImageData rasterize document s
              = (Normal (Some (ImageDataURL image)), s)
              ∧ mimeType image = "image/png"%string
              ∧ imageWidth image = width canvas
              ∧ imageHeight image = height canvas
              ∧ shaped (width canvas) (height canvas) (pixels image)
              ∧ (canvas2d document = true →
                 ∀ px py, (px < width canvas)%nat → (py < height canvas)%nat →
                   ∃ p q, pixelAt (bitmap canvas) px py = Some p
                          ∧ pixelAt (pixels image) px py = Some q
                          ∧ q = over rasterize p white
                          ∧ alpha q = 255
                          ∧ (alpha p = 0 → q = white)
                          ∧ (alpha p = 255 → q = p))
              ∧ (canvas2d document = false → pixels image = bitmap canvas))
         ∧ (width canvas = 0%nat ∨ height canvas = 0%nat →
            getImageData rasterize document s
            = (if canvas2d document then Throw (invalidStateMessage document)
               else Normal (Some EmptyDataURL), s)))
    ∧ (∀ ctxAvailable rect trace px py image q,
         let s := run rasterize trace (initialState ctxAvailable rect) in
         outsideEveryStroke rasterize px py trace (initialState ctxAvailable rect)
         = true →
         canvas2d document = true →
         fst (getImageData rasterize document s) = Normal (Some (ImageDataURL image)) →
         pixelAt (pixels image) px py = Some q →
         q = white).
Proof.
  intros rasterize document. split.
  - intros s Hr Hd.
    destruct (reachable_Inv _ _ Hr) as (_ & Hi & Hc).
    specialize (Hi Hd).
    destruct (canvasRef s) as [canvas |] eqn:Ec; [| congruence].
    destruct Hc as (Hs & _ & _).
    exists canvas. split; [reflexivity |]. split.
    + intros Hw Hh.
      destruct (getImageData_image rasterize document s canvas Ec Hd
                  (isEmpty_false canvas Hw Hh) Hs)
        as (image & Hg & Hm & Hiw & Hih & Hsp & Hmain & Hfall).
      exists image. repeat (split; [assumption |]).
      split; [| exact Hfall].
      intros H2 px py Hx Hy.
      destruct (pixelAt_inside _ _ _ px py Hs Hx Hy) as [p Hp].
      exists p, (over rasterize p white).
      split; [exact Hp |]. split; [now apply Hmain |]. split; [reflexivity |].
      split; [apply over_white_opaque |].
      split; [apply over_transparent | apply over_opaque].
    + intros Hz. apply (getImageData_empty _ _ _ canvas Ec Hd). now apply isEmpty_true.
  - intros ctxAvailable rect trace px py image q s Hout H2 Hg Hq.
    assert (Hr : reachable rasterize s) by (apply reachable_run; constructor).
    assert (Ht : transparentAt s px py)
      by (apply outside_strokes_transparent;
          [exact Hout | apply initialState_transparent]).
    destruct (reachable_Inv _ _ Hr) as (_ & _ & Hc).
    destruct (canvasRef s) as [canvas |] eqn:Ec.
    2: { rewrite getImageData_run, Ec in Hg. discriminate Hg. }
    destruct Hc as (Hs & _ & _).
    destruct (isDirty s) eqn:Hd.
    2: { rewrite (getImageData_clean _ _ _ Hd) in Hg. discriminate Hg. }
    destruct (isEmpty canvas) eqn:He.
    { rewrite (getImageData_empty _ _ _ _ Ec Hd He), H2 in Hg. discriminate Hg. }
    destruct (getImageData_image rasterize document s canvas Ec Hd He Hs)
      as (image' & Hg' & _ & _ & _ & Hsp & Hmain & _).
    rewrite Hg' in Hg. injection Hg as ->.
    destruct (pixelAt_bounds _ _ _ _ _ _ Hsp Hq) as [Hx Hy].
    destruct (pixelAt_inside _ _ _ px py Hs Hx Hy) as [p Hp].
    rewrite (Hmain H2 px py p Hp) in Hq. injection Hq as <-.
    apply over_transparent. apply Ht. unfold livePixel. now rewrite Ec.
Qed.

Lemma C2_snapshot_is_white_backed_witness :
  (∃ canvas,
     canvasRef inkedState = Some canvas
     ∧ ((0 < width canvas)%nat → (0 < height canvas)%nat →
        ∃ image,
          getImageData brushRasterizer lightDocument inkedState
          = (Normal (Some (ImageDataURL image)), inkedState)
          ∧ mimeType image = "image/png"%string
          ∧ imageWidth image = width canvas
          ∧ imageHeight image = height canvas
          ∧ shaped (width canvas) (height canvas) (pixels image)
          ∧ (canvas2d lightDocument = true →
             ∀ px py, (px < width canvas)%nat → (py < height canvas)%nat →
               ∃ p q, pixelAt (bitmap canvas) px py = Some p
                      ∧ pixelAt (pixels image) px py = Some q
                      ∧ q = over brushRasterizer p white
                      ∧ alpha q = 255
                      ∧ (alpha p = 0 → q = white)
                      ∧ (alpha p = 255 → q = p))
          ∧ (canvas2d lightDocument = false → pixels image = bitmap canvas))
     ∧ (width canvas = 0%nat ∨ height canvas = 0%nat →
        getImageData brushRasterizer lightDocument inkedState
        = (if canvas2d lightDocument then Throw (invalidStateMessage lightDocument)
           else Normal (Some EmptyDataURL), inkedState)))
  ∧ (outsideEveryStroke brushRasterizer 7 5 (mountTrace ++ strokeTrace)
       (initialState true sampleRect) = true
     ∧ exportedPixel brushRasterizer lightDocument inkedState 7 5 = Some white
     ∧ exportedPixel brushRasterizer lightDocument inkedState 0 0
       = Some (RGBA 31 41 55 255)).
Proof.
  destruct (C2_snapshot_is_white_backed brushRasterizer lightDocument) as [H1 H2].
  split.
  - apply (H1 inkedState).
    + exact inkedState_reachable.
    + reflexivity.
  - split; [reflexivity |]. split; [| reflexivity].
    pose proof (H2 true sampleRect (mountTrace ++ strokeTrace) 7%nat 5%nat) as K.
    cbv zeta in K.
    change (run brushRasterizer (mountTrace ++ strokeTrace) (initialState true sampleRect))
      with inkedState in K.
    unfold exportedPixel.
    destruct (fst (getImageData brushRasterizer lightDocument inkedState))
      as [[[| image] |] | e] eqn:Eg; try (vm_compute in Eg; discriminate Eg).
    destruct (pixelAt (pixels image) 7 5) as [q |] eqn:Eq.
    + f_equal. exact (K image q eq_refl eq_refl eq_refl Eq).
    + vm_compute in Eg. injection Eg as <-. vm_compute in Eq. discriminate Eq.
Defined.

(** The claim as first stated fails in two ways.  With ink on the canvas
    and a document whose new canvases hand out no 2D context, the pixel at
    (7, 5), which no stroke touched, is transparent in the exported image.
    And with ink on a canvas that a resize has left without width,
    [getImageData] returns no image at all: it throws. *)
Lemma C2_counterexample :
  (reachable brushRasterizer inkedState
   ∧ isDirty inkedState = true
   ∧ livePixel inkedState 7 5 = Some transparent
   ∧ exportedPixel brushRasterizer starvedDocument inkedState 7 5 = Some transparent
   ∧ exportedPixel brushRasterizer starvedDocument inkedState 7 5 ≠ Some white)
  ∧ (reachable brushRasterizer collapsedState
     ∧ isDirty collapsedState = true
     ∧ (width <$> canvasRef collapsedState) = Some 0%nat
     ∧ fst (getImageData brushRasterizer lightDocument collapsedState)
       = Throw (invalidStateMessage lightDocument)).
Proof.
  split.
  - split; [exact inkedState_reachable |].
    split; [reflexivity |]. split; [reflexivity |]. split; [reflexivity |].
    discriminate.
  - split; [constructor; exact inkedState_reachable |].
    split; [reflexivity |]. split; reflexivity.
Qed.

(** C3, the code at the failing input.  A resize never touches
    [isDirty]; so after press, move, release and a resize the flag is
    still set, the live raster is blank, and [getImageData] returns an
    all-white image instead of [null]. *)
Theorem C3_resize_keeps_ink_flag :
  (∀ (rasterize : Rasterizer) entries document s,
     isDirty (exec rasterize (Resize entries document) s) = isDirty s)
  ∧ (let s := run brushRasterizer (mountTrace ++ strokeTrace ++ [resizeTo8x6])
                (initialState true sampleRect) in
     isDirty s = true
     ∧ (bitmap <$> canvasRef s) = Some (blank 8 6)
     ∧ fst (getImageData brushRasterizer lightDocument s)
       = Normal (Some (ImageDataURL
                         {| mimeType := "image/png"; imageWidth := 8; imageHeight := 6;
                            pixels := whiteBitmap 8 6 |}))).
Proof.
  split.
  - intros rasterize entries document s. unfold exec. cbn [perform].
    rewrite bind_run. cbn [get]. destruct (observing s); [| reflexivity].
    apply isDirty_resizeCallback.
  - vm_compute. auto.
Qed.

Lemma clearRect_whole (canvas : HTMLCanvasElement) :
  shaped (width canvas) (height canvas) (bitmap canvas) →
  bitmap (clearRect 0 0 (width canvas) (height canvas) canvas)
  = blank (width canvas) (height canvas).
Proof.
  intros Hs. cbn [clearRect withBitmap bitmap].
  apply mapPixels_uniform; [exact Hs |].
  intros px py p Hp.
  destruct (pixelAt_bounds _ _ _ _ _ _ Hs Hp) as [Hx Hy].
  now rewrite inRect_whole.
Qed.

(** C4. From every reachable state, [clearCanvas] returns normally and
    leaves [isDirty] false and the whole raster transparent, at the size it
    had; [getImageData] right after it returns [null]; and clearing a
    second time changes nothing. *)
Theorem C4_clear_erases_and_resets :
  ∀ (rasterize : Rasterizer) (s : CanvasState),
    reachable rasterize s →
    let s' := snd (clearCanvas s) in
    fst (clearCanvas s) = Normal tt
    ∧ isDirty s' = false
    ∧ (∀ canvas, canvasRef s = Some canvas →
         ∃ canvas', canvasRef s' = Some canvas'
                    ∧ width canvas' = width canvas
                    ∧ height canvas' = height canvas
                    ∧ bitmap canvas' = blank (width canvas) (height canvas))
    ∧ (∀ document, getImageData rasterize document s' = (Normal None, s'))
    ∧ clearCanvas s' = (Normal tt, s').
Proof.
  intros rasterize s Hr s'.
  pose proof (reachable_Inv _ _ Hr) as (Hd & Hi & Hc).
  assert (Hdirty : isDirty s' = false).
  { subst s'. rewrite clearCanvas_run. cbn [snd].
    destruct (canvasRef s) as [canvas |], (contextRef s); try reflexivity;
      destruct (isDirty s); try reflexivity; now specialize (Hi eq_refl). }
  split; [now rewrite clearCanvas_run |].
  split; [exact Hdirty |].
  split.
  { intros canvas Ec. rewrite Ec in Hc. destruct Hc as (Hs & _ & Hb).
    subst s'. rewrite clearCanvas_run, Ec. cbn [snd].
    destruct (contextRef s).
    - eexists. split; [reflexivity |]. split; [reflexivity |]. split; [reflexivity |].
      now apply clearRect_whole.
    - exists canvas. rewrite Ec. auto. }
  split.
  { intros document. now apply getImageData_clean. }
  subst s'. rewrite !clearCanvas_run. cbn [snd]. f_equal.
  destruct (canvasRef s) as [canvas |] eqn:Ec; [| now rewrite Ec].
  destruct (contextRef s) eqn:Ex; [| now rewrite Ec, Ex].
  destruct Hc as (Hs & _ & _).
  cbn [canvasRef contextRef observing isDrawing]. f_equal. f_equal.
  pose proof (clearRect_whole canvas Hs) as H1.
  unfold clearRect, withBitmap in *. cbn [bitmap width height context2d
    contextAvailable getBoundingClientRect] in *.
  f_equal. rewrite H1.
  apply mapPixels_uniform; [apply shaped_blank |].
  intros px py p Hp.
  destruct (pixelAt_bounds _ _ _ _ _ _ (shaped_blank _ _) Hp) as [Hx Hy].
  now rewrite inRect_whole.
Qed.

Lemma C4_clear_erases_and_resets_witness :
  let s' := snd (clearCanvas inkedState) in
  fst (clearCanvas inkedState) = Normal tt
  ∧ isDirty s' = false
  ∧ (∀ canvas, canvasRef inkedState = Some canvas →
       ∃ canvas', canvasRef s' = Some canvas'
                  ∧ width canvas' = width canvas
                  ∧ height canvas' = height canvas
                  ∧ bitmap canvas' = blank (width canvas) (height canvas))
  ∧ (∀ document, getImageData brushRasterizer document s' = (Normal None, s'))
  ∧ clearCanvas s' = (Normal tt, s').
Proof.
  exact (C4_clear_erases_and_resets brushRasterizer inkedState inkedState_reachable).
Defined.

(** C5. In handwriting mode, when [getImageData] returns [null],
    [handleSolve] sets the error message, ends with [isLoading] false and
    no solution, and sends nothing to the solver. *)
Theorem C5_empty_canvas_is_reported_not_solved :
  ∀ (solve : App.Solver) (rasterize : Rasterizer) (document : Document)
    (a : App.AppState) (canvas : CanvasState),
    App.inputMode a = App.handwriting →
    App.canvasRef a = Some canvas →
    fst (getImageData rasterize document canvas) = Normal None →
    snd (App.handleSolve solve rasterize document a) = []
    ∧ App.error (fst (App.handleSolve solve rasterize document a))
      = Some (utf16 "The canvas is empty. Please write a math problem.")
    ∧ App.isLoading (fst (App.handleSolve solve rasterize document a)) = false
    ∧ App.solution (fst (App.handleSolve solve rasterize document a)) = None
    ∧ App.canvasRef (fst (App.handleSolve solve rasterize document a)) = Some canvas.
Proof.
  intros solve rasterize document a canvas Hm Hc Hg.
  unfold App.handleSolve.
  cbn [App.setSolution App.setError App.setIsLoading App.inputMode App.canvasRef].
  rewrite Hm, Hc.
  pose proof (getImageData_state rasterize document canvas) as Hs.
  destruct (getImageData rasterize document canvas) as [r canvas'].
  cbn [fst snd] in Hg, Hs. subst r canvas'.
  cbn. auto.
Qed.

Lemma C5_empty_canvas_is_reported_not_solved_witness :
  snd (App.handleSolve constantSolver brushRasterizer lightDocument sampleApp) = []
  ∧ App.error (fst (App.handleSolve constantSolver brushRasterizer lightDocument sampleApp))
    = Some (utf16 "The canvas is empty. Please write a math problem.")
  ∧ App.isLoading (fst (App.handleSolve constantSolver brushRasterizer lightDocument
                          sampleApp)) = false
  ∧ App.solution (fst (App.handleSolve constantSolver brushRasterizer lightDocument
                         sampleApp)) = None
  ∧ App.canvasRef (fst (App.handleSolve constantSolver brushRasterizer lightDocument
                          sampleApp))
    = Some sampleState.
Proof.
  apply (C5_empty_canvas_is_reported_not_solved constantSolver brushRasterizer
           lightDocument sampleApp sampleState); reflexivity.
Defined.

(** C6. A begin event at viewport point [P] on a surface whose bounding
    box has origin [O] is mapped to [(P.x - O.x, P.y - O.y)], for mouse
    events and for touch events alike (of a touch event the first contact
    point counts); [startDrawing] opens the path at exactly that point. *)
Theorem C6_begin_records_surface_local_point :
  ∀ (s : CanvasState) (canvas : HTMLCanvasElement) (event : SyntheticEvent) (P : Touch),
    canvasRef s = Some canvas →
    firstContact event = Some P →
    let O := getBoundingClientRect canvas in
    getCoords event s = (Normal (relativeTo O P), s)
    ∧ (contextRef s = true →
       finite (x (relativeTo O P)) && finite (y (relativeTo O P)) = true →
       ∃ canvas',
         canvasRef (snd (startDrawing event s)) = Some canvas'
         ∧ path (context2d canvas')
           = [{| points := [relativeTo O P]; closed := false |}]).
Proof.
  intros s canvas event P Hc HP O.
  assert (Hg : getCoords event s = (Normal (relativeTo O P), s)).
  { unfold getCoords. rewrite bind_run. cbn [get]. rewrite Hc.
    destruct event as [cX cY | touches]; simpl in HP.
    - inversion HP; subst. reflexivity.
    - destruct touches as [| t ts]; simpl in HP; [discriminate |].
      inversion HP; subst. reflexivity. }
  split; [exact Hg |].
  intros Hctx Hfin.
  destruct s as [cr ctx obs drawing dirty]. simpl in Hc, Hctx. subst cr ctx.
  unfold startDrawing. rewrite bind_run.
  cbn [get contextRef negb]. rewrite bind_run, Hg.
  unfold bind, onCanvas, setIsDrawing, setIsDirty, modify, ret.
  cbn -[finite relativeTo moveTo beginPath].
  unfold moveTo. rewrite Hfin.
  destruct dirty; cbn -[relativeTo]; eexists; split; reflexivity.
Qed.

Lemma C6_begin_records_surface_local_point_witness :
  getCoords sampleTouch sampleState
  = (Normal {| x := 50%float; y := 50%float |}, sampleState)
  ∧ ∃ canvas',
      canvasRef (snd (startDrawing sampleTouch sampleState)) = Some canvas'
      ∧ path (context2d canvas')
        = [{| points := [{| x := 50%float; y := 50%float |}]; closed := false |}].
Proof.
  destruct (C6_begin_records_surface_local_point sampleState sampleCanvas sampleTouch
              {| clientX := 58%float; clientY := 66.5%float |} eq_refl eq_refl)
    as [H1 H2].
  split; [exact H1 |].
  exact (H2 eq_refl eq_refl).
Defined.

(** C7. [getImageData] leaves the component state, and with it the live
    raster, [isDirty] and [isDrawing], exactly as it was, however it ends
    and however often it is called; a call does not change what a later
    call returns.  It returns normally on every canvas of nonzero width
    and height, during a stroke as after it.  It throws in one situation
    only, and the state is untouched then too: ink on a canvas of width or
    height zero, with a temporary canvas that hands out a context, where
    [drawImage] refuses the empty source. *)
Theorem C7_getImageData_is_a_pure_read :
  ∀ (rasterize : Rasterizer) (document : Document) (s : CanvasState),
    snd (getImageData rasterize document s) = s
    ∧ (∀ n, Nat.iter n (λ s0, snd (getImageData rasterize document s0)) s = s)
    ∧ (∀ document',
         getImageData rasterize document' (snd (getImageData rasterize document s))
         = getImageData rasterize document' s)
    ∧ (∀ canvas, canvasRef s = Some canvas →
         (0 < width canvas)%nat → (0 < height canvas)%nat →
         ∃ r, fst (getImageData rasterize document s) = Normal r)
    ∧ (∀ e, fst (getImageData rasterize document s) = Throw e ↔
         e = invalidStateMessage document
         ∧ isDirty s = true
         ∧ canvas2d document = true
         ∧ ∃ canvas, canvasRef s = Some canvas
                     ∧ (width canvas = 0%nat ∨ height canvas = 0%nat)).
Proof.
  intros rasterize document s.
  assert (H : ∀ d s0, snd (getImageData rasterize d s0) = s0)
    by (intros; apply getImageData_state).
  split; [apply H |].
  split.
  { induction n as [| n IH]; [reflexivity |].
    cbn [Nat.iter nat_rect]. unfold Nat.iter in IH. now rewrite IH. }
  split; [intros document'; now rewrite H |].
  assert (Hsize : ∀ canvas, isEmpty canvas = true ↔
                    (width canvas = 0%nat ∨ height canvas = 0%nat)).
  { intros canvas. split; [| apply isEmpty_true].
    unfold isEmpty. intros Hz. apply orb_prop in Hz as [Hz | Hz];
      apply Nat.eqb_eq in Hz; auto. }
  rewrite getImageData_run. cbn [fst].
  destruct (canvasRef s) as [canvas |] eqn:Ec.
  2: { split; [discriminate |]. intros e. split; [discriminate |].
       now intros (_ & _ & _ & canvas & Hc & _). }
  destruct (isDirty s) eqn:Hd.
  2: { split; [eauto |]. intros e. split; [discriminate |].
       now intros (_ & Hd' & _). }
  destruct (canvas2d document) eqn:H2.
  2: { split; [eauto |]. intros e. split; [discriminate |].
       now intros (_ & _ & H2' & _). }
  destruct (isEmpty canvas) eqn:He.
  - rewrite (drawImage_empty _ _ _ _ _ He). split.
    + intros c [= <-] Hw Hh. rewrite (isEmpty_false canvas Hw Hh) in He. discriminate.
    + intros e. split.
      * intros [= <-]. repeat split; auto. exists canvas. split; [reflexivity |].
        now apply Hsize.
      * now intros (-> & _).
  - unfold drawImage. unfold isEmpty in He. rewrite He. split; [eauto |].
    intros e. split; [discriminate |].
    intros (_ & _ & _ & c & [= <-] & Hz). apply Hsize in Hz.
    unfold isEmpty in Hz. congruence.
Qed.

Lemma C7_getImageData_is_a_pure_read_witness :
  snd (getImageData brushRasterizer lightDocument drawingState) = drawingState
  ∧ (∃ r, fst (getImageData brushRasterizer lightDocument drawingState) = Normal r)
  ∧ snd (getImageData brushRasterizer lightDocument collapsedState) = collapsedState
  ∧ fst (getImageData brushRasterizer lightDocument collapsedState)
    = Throw (invalidStateMessage lightDocument).
Proof.
  destruct (C7_getImageData_is_a_pure_read brushRasterizer lightDocument drawingState)
    as (H1 & _ & _ & H4 & _).
  destruct (C7_getImageData_is_a_pure_read brushRasterizer lightDocument collapsedState)
    as (K1 & _ & _ & _ & K5).
  split; [exact H1 |].
  split.
  { destruct (canvasRef drawingState) as [canvas |] eqn:Ec; [| discriminate Ec].
    apply (H4 canvas eq_refl); vm_compute in Ec; injection Ec as <-; cbn; lia. }
  split; [exact K1 |].
  apply K5. split; [reflexivity |]. split; [reflexivity |]. split; [reflexivity |].
  eexists. split; [reflexivity |]. left. reflexivity.
Defined.

Lemma closeLast_snoc (before : list SubPath) (sp : SubPath) :
  closeLast (before ++ [sp])
  = before ++ [{| points := points sp; closed := true |};
               {| points := take 1 (points sp); closed := false |}].
Proof.
  unfold closeLast. rewrite reverse_snoc. now rewrite reverse_involutive.
Qed.

(** C8. On the canvas, leaving with the mouse runs the very transition of
    releasing the button (and of lifting the finger).  [isDrawing] becomes
    false.  The path of the stored context is closed: its last subpath is
    marked closed and a new subpath is opened at that subpath's first
    point (a path without subpaths stays empty).  Nothing else changes:
    the raster, the size, [isDirty] and the stored references are as
    before.  While a stroke is being drawn the context is stored, so this
    is what happens then.  And once it has happened a move event changes
    nothing, so no stroke goes on. *)
Theorem C8_leave_ends_the_stroke_like_release :
  ∀ (rasterize : Rasterizer) (s : CanvasState) (leave release : SyntheticEvent),
    let s' := snd (handler rasterize onMouseLeave leave s) in
    handler rasterize onMouseLeave leave s = handler rasterize onMouseUp release s
    ∧ handler rasterize onMouseLeave leave s = handler rasterize onTouchEnd release s
    ∧ fst (handler rasterize onMouseLeave leave s) = Normal tt
    ∧ isDrawing s' = false
    ∧ isDirty s' = isDirty s
    ∧ contextRef s' = contextRef s
    ∧ (reachable rasterize s → isDrawing s = true →
       contextRef s = true ∧ is_Some (canvasRef s))
    ∧ (∀ canvas, canvasRef s = Some canvas → contextRef s = true →
         ∃ canvas',
           canvasRef s' = Some canvas'
           ∧ bitmap canvas' = bitmap canvas
           ∧ width canvas' = width canvas
           ∧ height canvas' = height canvas
           ∧ (path (context2d canvas) = [] → path (context2d canvas') = [])
           ∧ (∀ before sp,
                path (context2d canvas) = before ++ [sp] →
                path (context2d canvas')
                = before ++ [{| points := points sp; closed := true |};
                             {| points := take 1 (points sp); closed := false |}]))
    ∧ (∀ p move, p = onMouseMove ∨ p = onTouchMove →
         handler rasterize p move s' = (Normal tt, s')).
Proof.
  intros rasterize s leave release s'.
  split; [reflexivity |]. split; [reflexivity |].
  subst s'. cbn [handler]. rewrite stopDrawing_run.
  cbn [fst snd isDrawing isDirty contextRef].
  split; [reflexivity |]. split; [reflexivity |]. split; [reflexivity |].
  split; [reflexivity |].
  split.
  { intros Hr Hd. destruct (reachable_Inv _ _ Hr) as (Hx & _ & Hc).
    specialize (Hx Hd). split; [exact Hx |].
    destruct (canvasRef s); [eauto | congruence]. }
  split.
  - intros canvas Ec Ex. cbn [canvasRef]. rewrite Ex, Ec.
    eexists. split; [reflexivity |].
    cbn [closePath withContext bitmap width height context2d set_path path].
    split; [reflexivity |]. split; [reflexivity |]. split; [reflexivity |].
    split.
    + now intros ->.
    + intros before sp ->. apply closeLast_snoc.
  - intros p move [-> | ->]; cbn [handler]; apply draw_idle; now left.
Qed.

Lemma C8_leave_ends_the_stroke_like_release_witness :
  let leave := MouseEvent 30%float 18.5%float in
  let s' := snd (handler brushRasterizer onMouseLeave leave drawingState) in
  isDrawing drawingState = true
  ∧ (path ∘ context2d <$> canvasRef drawingState)
    = Some [{| points := [{| x := 2%float; y := 2%float |};
                          {| x := 3%float; y := 2%float |}];
               closed := false |}]
  ∧ handler brushRasterizer onMouseLeave leave drawingState
    = handler brushRasterizer onMouseUp leave drawingState
  ∧ isDrawing s' = false
  ∧ (∃ canvas',
       canvasRef s' = Some canvas'
       ∧ path (context2d canvas')
         = [{| points := [{| x := 2%float; y := 2%float |};
                          {| x := 3%float; y := 2%float |}];
               closed := true |};
            {| points := [{| x := 2%float; y := 2%float |}]; closed := false |}])
  ∧ handler brushRasterizer onMouseMove (MouseEvent 31%float 18.5%float) s'
    = (Normal tt, s').
Proof.
  intros leave s'.
  destruct (C8_leave_ends_the_stroke_like_release brushRasterizer drawingState leave leave)
    as (H1 & _ & _ & H4 & _ & _ & _ & H8 & H9).
  split; [reflexivity |]. split; [reflexivity |].
  split; [exact H1 |]. split; [exact H4 |].
  split.
  - destruct (canvasRef drawingState) as [canvas |] eqn:Ec; [| discriminate Ec].
    destruct (H8 canvas eq_refl eq_refl) as (canvas' & Hc' & _ & _ & _ & _ & Hp).
    exists canvas'. split; [exact Hc' |].
    vm_compute in Ec. injection Ec as <-.
    exact (Hp [] {| points := [{| x := 2%float; y := 2%float |};
                               {| x := 3%float; y := 2%float |}];
                    closed := false |} eq_refl).
  - apply H9. now left.
Defined.

(** C9. In a reachable state whose context is missing, [clearCanvas],
    [startDrawing], [draw] and [stopDrawing] all return normally and leave
    the state exactly as it was, whatever the event.  And in any state, on
    an event that carries a contact point, none of them throws. *)
Theorem C9_operations_ignore_a_missing_context :
  ∀ (rasterize : Rasterizer) (s : CanvasState) (event : SyntheticEvent),
    (reachable rasterize s → contextRef s = false →
       clearCanvas s = (Normal tt, s)
       ∧ startDrawing event s = (Normal tt, s)
       ∧ draw rasterize event s = (Normal tt, s)
       ∧ stopDrawing s = (Normal tt, s))
    ∧ (is_Some (firstContact event) →
       fst (clearCanvas s) = Normal tt
       ∧ fst (startDrawing event s) = Normal tt
       ∧ fst (draw rasterize event s) = Normal tt
       ∧ fst (stopDrawing s) = Normal tt).
Proof.
  intros rasterize s event. split.
  - intros Hr Hx.
    destruct (reachable_Inv _ _ Hr) as (Hd & _ & _).
    split.
    { rewrite clearCanvas_run, Hx. now destruct (canvasRef s). }
    split; [now apply startDrawing_without_context |].
    split; [apply draw_idle; now right |].
    rewrite stopDrawing_run, Hx.
    destruct s as [c ctx obs [] dty]; cbn in *; [| now subst ctx].
    specialize (Hd eq_refl). congruence.
  - intros [P HP].
    assert (Hg : ∃ c, getCoords event s = (Normal c, s)).
    { unfold getCoords. rewrite bind_run. cbn [get].
      destruct (canvasRef s) as [canvas |]; [| eexists; reflexivity].
      destruct event as [cX cY | [| t ts]]; try discriminate HP;
        eexists; reflexivity. }
    destruct Hg as [c Hg].
    split; [now rewrite clearCanvas_run |].
    split.
    { unfold startDrawing. rewrite bind_run. cbn [get].
      destruct (negb (contextRef s)); [reflexivity |].
      rewrite bind_run, Hg.
      destruct (isDirty s); reflexivity. }
    split; [| now rewrite stopDrawing_run].
    unfold draw. rewrite bind_run. cbn [get].
    destruct (negb (isDrawing s) || negb (contextRef s)); [reflexivity |].
    now rewrite bind_run, Hg.
Qed.

Lemma C9_operations_ignore_a_missing_context_witness :
  (clearCanvas contextlessState = (Normal tt, contextlessState)
   ∧ startDrawing sampleTouch contextlessState = (Normal tt, contextlessState)
   ∧ draw brushRasterizer sampleTouch contextlessState = (Normal tt, contextlessState)
   ∧ stopDrawing contextlessState = (Normal tt, contextlessState))
  ∧ (fst (clearCanvas inkedState) = Normal tt
     ∧ fst (startDrawing sampleTouch inkedState) = Normal tt
     ∧ fst (draw brushRasterizer sampleTouch inkedState) = Normal tt
     ∧ fst (stopDrawing inkedState) = Normal tt).
Proof.
  split.
  - apply (C9_operations_ignore_a_missing_context brushRasterizer contextlessState
             sampleTouch).
    + exact contextlessState_reachable.
    + reflexivity.
  - apply (C9_operations_ignore_a_missing_context brushRasterizer inkedState
             sampleTouch).
    eexists. reflexivity.
Defined.

(** C10, as amended. A tap on a surface with a stored context sets
    [isDirty] and paints nothing.  On a surface that was blank and has
    nonzero width and height, [getImageData] then returns an image, not
    [null], of the size of the canvas and without a stroke pixel: all
    white when the temporary canvas hands out a 2D context, all
    transparent when it hands out none.  On a surface of width or height
    zero it returns no image: [drawImage] throws, or, when the temporary
    canvas hands out no context, the result is the URL [data:,]. *)
Theorem C10_tap_marks_ink_without_painting :
  ∀ (rasterize : Rasterizer) (s : CanvasState) (canvas : HTMLCanvasElement)
    (event : SyntheticEvent) (document : Document),
    canvasRef s = Some canvas →
    contextRef s = true →
    is_Some (firstContact event) →
    let s' := tap event s in
    isDirty s' = true
    ∧ isDrawing s' = false
    ∧ (∃ canvas', canvasRef s' = Some canvas'
                  ∧ width canvas' = width canvas
                  ∧ height canvas' = height canvas
                  ∧ bitmap canvas' = bitmap canvas)
    ∧ (bitmap canvas = blank (width canvas) (height canvas) →
       (0 < width canvas)%nat → (0 < height canvas)%nat →
       fst (getImageData rasterize document s')
       = Normal (Some (ImageDataURL
                         {| mimeType := "image/png";
                            imageWidth := width canvas;
                            imageHeight := height canvas;
                            pixels := if canvas2d document
                                      then whiteBitmap (width canvas) (height canvas)
                                      else blank (width canvas) (height canvas) |})))
    ∧ (width canvas = 0%nat ∨ height canvas = 0%nat →
       fst (getImageData rasterize document s')
       = if canvas2d document then Throw (invalidStateMessage document)
         else Normal (Some EmptyDataURL)).
Proof.
  intros rasterize s canvas event document Ec Ex [P HP] s'.
  destruct s as [cr ctx obs drw dty]. cbn [canvasRef contextRef] in Ec, Ex. subst cr ctx.
  assert (Hs' : ∃ canvas',
             s' = {| canvasRef := Some canvas'; contextRef := true; observing := obs;
                     isDrawing := false; isDirty := true |}
             ∧ width canvas' = width canvas ∧ height canvas' = height canvas
             ∧ bitmap canvas' = bitmap canvas).
  { subst s'. unfold tap. rewrite stopDrawing_run.
    unfold startDrawing. rewrite bind_run. cbn [get contextRef negb]. rewrite bind_run.
    assert (Hg : ∃ c, getCoords event
                        {| canvasRef := Some canvas; contextRef := true; observing := obs;
                           isDrawing := drw; isDirty := dty |}
                      = (Normal c, {| canvasRef := Some canvas; contextRef := true;
                                      observing := obs; isDrawing := drw; isDirty := dty |})).
    { destruct event as [cX cY | [| t ts]]; try discriminate HP; eexists; reflexivity. }
    destruct Hg as [c ->].
    unfold moveTo. destruct (finite (x c) && finite (y c)), dty;
      cbn; eexists; repeat split; reflexivity. }
  destruct Hs' as (canvas' & -> & Hw & Hh & Hb).
  cbn [isDirty isDrawing canvasRef].
  split; [reflexivity |]. split; [reflexivity |].
  split; [exists canvas'; auto |].
  split.
  - intros Hblank Hpw Hph.
    match goal with
    | |- context [getImageData _ _ ?st] =>
        rewrite (getImageData_blank rasterize document st canvas' eq_refl eq_refl)
    end.
    + cbn [fst]. now rewrite Hw, Hh.
    + apply isEmpty_false; congruence.
    + congruence.
  - intros Hz.
    match goal with
    | |- context [getImageData _ _ ?st] =>
        rewrite (getImageData_empty rasterize document st canvas' eq_refl eq_refl)
    end; [reflexivity |].
    apply isEmpty_true. now rewrite Hw, Hh.
Qed.

Lemma C10_tap_marks_ink_without_painting_witness :
  let s' := tap sampleTouch sampleState in
  isDirty s' = true
  ∧ isDrawing s' = false
  ∧ (∃ canvas', canvasRef s' = Some canvas'
                ∧ width canvas' = 8%nat ∧ height canvas' = 6%nat
                ∧ bitmap canvas' = blank 8 6)
  ∧ fst (getImageData brushRasterizer lightDocument s')
    = Normal (Some (ImageDataURL
                      {| mimeType := "image/png"; imageWidth := 8; imageHeight := 6;
                         pixels := whiteBitmap 8 6 |})).
Proof.
  intros s'.
  destruct (C10_tap_marks_ink_without_painting brushRasterizer sampleState sampleCanvas
              sampleTouch lightDocument eq_refl eq_refl (ex_intro _ _ eq_refl))
    as (H1 & H2 & H3 & H4 & _).
  split; [exact H1 |]. split; [exact H2 |]. split; [exact H3 |].
  apply (H4 eq_refl); cbn; lia.
Defined.

(** The claim as first stated fails in two ways.  After a tap on the blank
    surface, with a document whose new canvases hand out no 2D context, the
    image returned is all transparent, not white.  And after a tap on a
    surface that a resize has left without width, no image is returned:
    [getImageData] throws. *)
Lemma C10_counterexample :
  (let s := run brushRasterizer
              [Dispatch onMouseDown (MouseEvent 10%float 18.5%float);
               Dispatch onMouseUp (MouseEvent 10%float 18.5%float)]
              sampleState in
   s = tap (MouseEvent 10%float 18.5%float) sampleState
   ∧ isDirty s = true
   ∧ fst (getImageData brushRasterizer starvedDocument s)
     = Normal (Some (ImageDataURL
                       {| mimeType := "image/png"; imageWidth := 8; imageHeight := 6;
                          pixels := blank 8 6 |}))
   ∧ exportedPixel brushRasterizer starvedDocument s 0 0 = Some transparent
   ∧ exportedPixel brushRasterizer starvedDocument s 0 0 ≠ Some white)
  ∧ (let s := tap (MouseEvent 10%float 18.5%float)
                (exec brushRasterizer collapseTo0x6 sampleState) in
     isDirty s = true
     ∧ (width <$> canvasRef s) = Some 0%nat
     ∧ fst (getImageData brushRasterizer lightDocument s)
       = Throw (invalidStateMessage lightDocument)).
Proof.
  cbv zeta. split.
  - split; [reflexivity |]. split; [reflexivity |]. split; [reflexivity |].
    split; [reflexivity | discriminate].
  - split; [reflexivity |]. split; reflexivity.
Qed.

(* ===================================================================== *)
(** ** Further properties *)
(* ===================================================================== *)

Lemma resizeCallback_cons (entry : ContentRect) (rest : list ContentRect)
    (document : Document) (s : CanvasState) :
  resizeCallback (entry :: rest) document s
  = resizeCallback rest document (resized entry document s).
Proof.
  cbn [resizeCallback]. do 3 mstep.
  destruct s as [[[w h b k [] r] |] ctx obs drw dty]; [| | reflexivity].
  - destruct ctx, (dark document) eqn:E; unfold resized, penContext; cbn; rewrite ?E; reflexivity.
  - unfold resized; cbn. now rewrite orb_false_r.
Qed.

Lemma resizeCallback_normal (entries : list ContentRect) (document : Document)
    (s : CanvasState) :
  fst (resizeCallback entries document s) = Normal tt.
Proof.
  revert s. induction entries as [| entry rest IH]; intros s; [reflexivity |].
  rewrite resizeCallback_cons. apply IH.
Qed.

Lemma resizeCallback_snoc (entries : list ContentRect) (entry : ContentRect)
    (document : Document) (s : CanvasState) :
  snd (resizeCallback (entries ++ [entry]) document s)
  = resized entry document (snd (resizeCallback entries document s)).
Proof.
  revert s. induction entries as [| e rest IH]; intros s.
  - change ([] ++ [entry]) with [entry]. rewrite resizeCallback_cons. reflexivity.
  - change ((e :: rest) ++ [entry]) with (e :: (rest ++ [entry])).
    rewrite !resizeCallback_cons. apply IH.
Qed.

Lemma resized_keeps (entry : ContentRect) (document : Document) (s : CanvasState) :
  (contextAvailable <$> canvasRef (resized entry document s))
  = (contextAvailable <$> canvasRef s)
  ∧ (getBoundingClientRect <$> canvasRef (resized entry document s))
    = (getBoundingClientRect <$> canvasRef s)
  ∧ observing (resized entry document s) = observing s
  ∧ isDrawing (resized entry document s) = isDrawing s
  ∧ isDirty (resized entry document s) = isDirty s
  ∧ (contextRef s = true → contextRef (resized entry document s) = true).
Proof.
  destruct s as [[canvas |] ctx obs drw dty]; cbn; repeat split; auto.
  intros ->. reflexivity.
Qed.

Lemma resizeCallback_keeps (entries : list ContentRect) (document : Document)
    (s : CanvasState) :
  let s' := snd (resizeCallback entries document s) in
  (contextAvailable <$> canvasRef s') = (contextAvailable <$> canvasRef s)
  ∧ (getBoundingClientRect <$> canvasRef s') = (getBoundingClientRect <$> canvasRef s)
  ∧ observing s' = observing s
  ∧ isDrawing s' = isDrawing s
  ∧ isDirty s' = isDirty s
  ∧ (contextRef s = true → contextRef s' = true).
Proof.
  revert s. induction entries as [| entry rest IH]; intros s; [cbn; auto 10 |].
  cbn zeta. rewrite resizeCallback_cons.
  destruct (IH (resized entry document s)) as (H1 & H2 & H3 & H4 & H5 & H6).
  destruct (resized_keeps entry document s) as (K1 & K2 & K3 & K4 & K5 & K6).
  repeat split; try congruence. auto.
Qed.

Lemma resizeCallback_without_context (entries : list ContentRect)
    (document : Document) (s : CanvasState) :
  (contextAvailable <$> canvasRef s) = Some false →
  contextRef s = false →
  contextRef (snd (resizeCallback entries document s)) = false.
Proof.
  revert s. induction entries as [| e rest IH]; intros s Ha Ex; [exact Ex |].
  rewrite resizeCallback_cons. apply IH.
  - destruct (resized_keeps e document s) as (K1 & _). now rewrite K1.
  - unfold resized. destruct (canvasRef s) as [canvas |]; cbn in *; [| exact Ex].
    injection Ha as ->. now rewrite Ex.
Qed.

(** X1. A resize observer callback with at least one entry leaves the
    canvas at the size of the last entry with a blank raster; the flags
    [isDrawing] and [isDirty], the bounding box and the availability of
    the context are as before.  When the canvas hands out a context, the
    context is stored and set to the pen style of the document, with an
    empty path; otherwise the stored reference is as before. *)
Theorem resize_applies_the_last_entry :
  ∀ (rasterize : Rasterizer) (entries : list ContentRect) (entry : ContentRect)
    (document : Document) (s : CanvasState) (canvas : HTMLCanvasElement),
    canvasRef s = Some canvas →
    observing s = true →
    let s' := exec rasterize (Resize (entries ++ [entry]) document) s in
    canvasRef s'
    = Some {| width := rect_width entry; height := rect_height entry;
              bitmap := blank (rect_width entry) (rect_height entry);
              context2d := if contextAvailable canvas then penContext document
                           else defaultContext;
              contextAvailable := contextAvailable canvas;
              getBoundingClientRect := getBoundingClientRect canvas |}
    ∧ contextRef s' = contextRef s || contextAvailable canvas
    ∧ observing s' = true
    ∧ isDrawing s' = isDrawing s
    ∧ isDirty s' = isDirty s.
Proof.
  intros rasterize entries entry document s canvas Hc Ho s'.
  assert (Hs' : s' = resized entry document (snd (resizeCallback entries document s))).
  { subst s'. unfold exec. cbn [perform]. rewrite bind_run. cbn [get]. rewrite Ho.
    apply resizeCallback_snoc. }
  destruct (resizeCallback_keeps entries document s) as (H1 & H2 & H3 & H4 & H5 & H6).
  set (s0 := snd (resizeCallback entries document s)) in *.
  rewrite Hc in H1, H2. cbn in H1, H2.
  destruct (canvasRef s0) as [canvas0 |] eqn:E0; [| discriminate].
  cbn in H1, H2. injection H1 as H1. injection H2 as H2.
  rewrite Hs'. unfold resized. rewrite E0.
  cbn [canvasRef contextRef observing isDrawing isDirty fmap option_fmap option_map].
  rewrite H1, H2.
  split; [reflexivity |].
  split.
  { destruct (contextRef s) eqn:Ex.
    - now rewrite (H6 eq_refl).
    - cbn [orb]. destruct (contextAvailable canvas) eqn:Ea; [apply orb_true_r |].
      rewrite orb_false_r.
      apply resizeCallback_without_context; [now rewrite Hc; cbn; rewrite Ea | exact Ex]. }
  split; [congruence |]. split; congruence.
Qed.

(** X2. The mount effect.  Without a parent element it does nothing at
    all.  With one, the observer is attached; the context is stored and
    given the pen style exactly when the canvas hands one out, and the
    raster, the size and both flags stay as they were. *)
Theorem mount_effect_outcome :
  ∀ (rasterize : Rasterizer) (document : Document) (s : CanvasState)
    (canvas : HTMLCanvasElement),
    canvasRef s = Some canvas →
    exec rasterize (Mount false document) s = s
    ∧ let s' := exec rasterize (Mount true document) s in
      observing s' = true
      ∧ isDrawing s' = isDrawing s
      ∧ isDirty s' = isDirty s
      ∧ contextRef s' = contextRef s || contextAvailable canvas
      ∧ canvasRef s'
        = Some (if contextAvailable canvas
                then withContext
                       (λ k, {| lineCap := "round"; lineJoin := "round";
                                strokeStyle := strokeStyle (penContext document);
                                fillStyle := fillStyle k;
                                lineWidth := 4%float; path := path k |}) canvas
                else canvas).
Proof.
  intros rasterize document s canvas Hc. split.
  - unfold exec. cbn [perform]. unfold useEffect. rewrite bind_run. cbn [get].
    now rewrite Hc.
  - unfold exec. cbn [perform].
    destruct s as [cr ctx obs drw dty]. cbn [canvasRef] in Hc. subst cr.
    destruct canvas as [w h b k [] r]; destruct ctx, (dark document) eqn:E;
      unfold useEffect, setupContext, penContext; cbn; rewrite ?E; cbn; auto 10.
Qed.

(** X3. The ink flag changes in two ways only: an action that clears it
    is a call of [clearCanvas], and an action that sets it is a begin
    event in a state with a stored context. *)
Theorem ink_flag_changes_only_by_clear_and_begin :
  ∀ (rasterize : Rasterizer) (a : Action) (s : CanvasState),
    (isDirty s = true → isDirty (exec rasterize a s) = false → a = CallClearCanvas)
    ∧ (isDirty s = false → isDirty (exec rasterize a s) = true →
       beginsStroke a = true ∧ contextRef s = true).
Proof.
  intros rasterize a s. split.
  - intros Hs Hs'. unfold exec in Hs'.
    destruct a as [hasParent document | entries document | rect | p event | | document];
      cbn [perform] in Hs'; [| | | | reflexivity |]; exfalso.
    + unfold useEffect in Hs'. rewrite bind_run in Hs'. cbn [get] in Hs'.
      destruct (canvasRef s); [| cbn in Hs'; congruence]. destruct hasParent; [| cbn in Hs'; congruence].
      cbn [negb] in Hs'. rewrite bind_run in Hs'. cbn [setObserving modify] in Hs'.
      rewrite isDirty_setupContext in Hs'. cbn in Hs'. congruence.
    + rewrite bind_run in Hs'. cbn [get] in Hs'. destruct (observing s); [| cbn in Hs'; congruence].
      rewrite isDirty_resizeCallback in Hs'. congruence.
    + cbn in Hs'. congruence.
    + assert (Hstart : isDirty (snd (startDrawing event s)) = true).
      { unfold startDrawing. rewrite bind_run. cbn [get].
        destruct (negb (contextRef s)); [exact Hs |]. rewrite bind_run.
        pose proof (getCoords_state event s) as Hg.
        destruct (getCoords event s) as [[c | e] s0]; cbn [snd] in Hg; subst s0;
          [| exact Hs].
        destruct s as [cr ctx obs drw dty]. cbn in Hs. subst dty.
        unfold moveTo. destruct cr, (finite (x c) && finite (y c)); reflexivity. }
      destruct p; cbn [handler] in Hs';
        rewrite ?isDirty_draw, ?stopDrawing_run in Hs'; cbn [snd isDirty] in Hs';
        congruence.
    + rewrite getImageData_then in Hs'. congruence.
  - intros Hs Hs'.
    destruct (beginsStroke a) eqn:Hb.
    2: { rewrite (isDirty_exec_false rasterize a s Hb Hs) in Hs'. discriminate. }
    split; [reflexivity |].
    destruct (contextRef s) eqn:Ex; [reflexivity | exfalso].
    destruct a as [| | | p event | |]; try discriminate Hb.
    unfold exec in Hs'.
    destruct p; try discriminate Hb; cbn [perform handler] in Hs';
      rewrite (startDrawing_without_context event s Ex) in Hs'; cbn in Hs'; congruence.
Qed.

Ltac split_finite :=
  repeat match goal with
         | |- context [finite ?a && finite ?b] => destruct (finite a && finite b)
         end.

Lemma handler_frame (rasterize : Rasterizer) (p : EventProp) (event : SyntheticEvent)
    (s : CanvasState) (canvas : HTMLCanvasElement) :
  canvasRef s = Some canvas →
  ∃ canvas',
    canvasRef (snd (handler rasterize p event s)) = Some canvas'
    ∧ width canvas' = width canvas
    ∧ height canvas' = height canvas
    ∧ contextAvailable canvas' = contextAvailable canvas
    ∧ getBoundingClientRect canvas' = getBoundingClientRect canvas
    ∧ (isMove p = false → bitmap canvas' = bitmap canvas).
Proof.
  intros Hc. destruct s as [cr ctx obs drw dty]. cbn [canvasRef] in Hc. subst cr.
  destruct p, ctx, drw, dty, event as [cX cY | [| t ts]];
    cbn -[finite stroke]; unfold moveTo, lineTo; split_finite;
    cbn -[finite stroke]; eexists; (split; [reflexivity |]); auto 10;
    repeat split; intros; try reflexivity; discriminate.
Qed.

Lemma useEffect_frame (hasParent : bool) (document : Document) (s : CanvasState)
    (canvas : HTMLCanvasElement) :
  canvasRef s = Some canvas →
  ∃ canvas',
    canvasRef (snd (useEffect hasParent document s)) = Some canvas'
    ∧ width canvas' = width canvas
    ∧ height canvas' = height canvas
    ∧ contextAvailable canvas' = contextAvailable canvas
    ∧ getBoundingClientRect canvas' = getBoundingClientRect canvas
    ∧ bitmap canvas' = bitmap canvas
    ∧ isDrawing (snd (useEffect hasParent document s)) = isDrawing s.
Proof.
  intros Hc. destruct s as [cr ctx obs drw dty]. cbn [canvasRef] in Hc. subst cr.
  destruct canvas as [w h b k [] r], hasParent;
    unfold useEffect, setupContext; cbn; eexists; repeat split; reflexivity.
Qed.

Lemma exec_frame :
  ∀ (rasterize : Rasterizer) (a : Action) (s : CanvasState)
    (canvas : HTMLCanvasElement),
    canvasRef s = Some canvas →
    ∃ canvas',
      canvasRef (exec rasterize a s) = Some canvas'
      ∧ contextAvailable canvas' = contextAvailable canvas
      ∧ (isResize a = false →
         width canvas' = width canvas ∧ height canvas' = height canvas)
      ∧ (isReflow a = false →
         getBoundingClientRect canvas' = getBoundingClientRect canvas)
      ∧ (mayRepaint a = false → bitmap canvas' = bitmap canvas).
Proof.
  intros rasterize a s canvas Hc. unfold exec.
  destruct a as [hasParent document | entries document | rect | p event | | document];
    cbn [perform isResize isReflow mayRepaint].
  - destruct (useEffect_frame hasParent document s canvas Hc)
      as (canvas' & H1 & H2 & H3 & H4 & H5 & H6 & _).
    exists canvas'. auto 10.
  - rewrite bind_run. cbn [get].
    destruct (observing s).
    + destruct (resizeCallback_keeps entries document s) as (H1 & H2 & _).
      rewrite Hc in H1, H2. cbn in H1, H2.
      destruct (canvasRef (snd (resizeCallback entries document s))) as [canvas' |];
        [| discriminate].
      cbn in H1, H2. injection H1 as H1. injection H2 as H2.
      exists canvas'. repeat split; auto; discriminate.
    + exists canvas. cbn. repeat split; auto.
  - cbn. rewrite Hc. cbn. eexists. repeat split; try reflexivity. discriminate.
  - destruct (handler_frame rasterize p event s canvas Hc)
      as (canvas' & H1 & H2 & H3 & H4 & H5 & H6).
    exists canvas'. repeat split; auto.
  - rewrite clearCanvas_run, Hc. cbn [snd].
    destruct (contextRef s); [| rewrite Hc]; eexists; repeat split;
      try reflexivity; discriminate.
  - rewrite getImageData_then, Hc.
    eexists. repeat split; reflexivity.
Qed.

(** X4. What an action can change of the canvas element.  The element
    stays in place and keeps handing out (or not) its context; its size
    changes only on a resize, its bounding box only on a reflow, and its
    raster only on a resize, a move event or a call of [clearCanvas]. *)
Theorem canvas_element_frame :
  ∀ (rasterize : Rasterizer) (a : Action) (s : CanvasState)
    (canvas : HTMLCanvasElement),
    canvasRef s = Some canvas →
    ∃ canvas',
      canvasRef (exec rasterize a s) = Some canvas'
      ∧ contextAvailable canvas' = contextAvailable canvas
      ∧ (isResize a = false →
         width canvas' = width canvas ∧ height canvas' = height canvas)
      ∧ (isReflow a = false →
         getBoundingClientRect canvas' = getBoundingClientRect canvas)
      ∧ (mayRepaint a = false → bitmap canvas' = bitmap canvas).
Proof. exact exec_frame. Qed.

Lemma untouched_resizeCallback (entries : list ContentRect) (document : Document)
    (s : CanvasState) :
  untouched s → untouched (snd (resizeCallback entries document s)).
Proof.
  revert s. induction entries as [| entry rest IH]; intros s H; [exact H |].
  rewrite resizeCallback_cons. apply IH.
  destruct H as [H1 H2]. split; [exact H1 |].
  intros canvas Hc. unfold resized in Hc. cbn [canvasRef] in Hc.
  destruct (canvasRef s) as [c0 |]; cbn in Hc; [| discriminate].
  injection Hc as <-. reflexivity.
Qed.

Lemma untouched_exec (rasterize : Rasterizer) (a : Action) (s : CanvasState) :
  beginsStroke a = false → untouched s → untouched (exec rasterize a s).
Proof.
  intros Ha Hu. pose proof Hu as [Hd Hb]. unfold exec.
  destruct a as [hasParent document | entries document | rect | p event | | document];
    cbn [perform].
  - destruct (canvasRef s) as [canvas |] eqn:Hc.
    + destruct (useEffect_frame hasParent document s canvas Hc)
        as (canvas' & H1 & H2 & H3 & _ & _ & H6 & H7).
      split; [congruence |]. intros c Hc'. rewrite H1 in Hc'. injection Hc' as <-.
      rewrite H6, H2, H3. now apply Hb.
    + unfold useEffect. rewrite bind_run. cbn [get]. rewrite Hc. exact Hu.
  - rewrite bind_run. cbn [get]. destruct (observing s); [| exact Hu].
    apply untouched_resizeCallback. exact Hu.
  - split; [exact Hd |]. cbn. intros c Hc.
    destruct (canvasRef s) as [canvas |]; cbn in Hc; [| discriminate].
    injection Hc as <-. cbn. now apply Hb.
  - destruct p; try discriminate Ha; cbn [handler].
    + rewrite draw_idle by now left. exact Hu.
    + rewrite stopDrawing_run. split; [reflexivity |]. cbn [snd canvasRef].
      intros c Hc. destruct (contextRef s), (canvasRef s) as [canvas |];
        cbn in Hc; try discriminate; injection Hc as <-; cbn; now apply Hb.
    + rewrite stopDrawing_run. split; [reflexivity |]. cbn [snd canvasRef].
      intros c Hc. destruct (contextRef s), (canvasRef s) as [canvas |];
        cbn in Hc; try discriminate; injection Hc as <-; cbn; now apply Hb.
    + rewrite draw_idle by now left. exact Hu.
    + rewrite stopDrawing_run. split; [reflexivity |]. cbn [snd canvasRef].
      intros c Hc. destruct (contextRef s), (canvasRef s) as [canvas |];
        cbn in Hc; try discriminate; injection Hc as <-; cbn; now apply Hb.
  - rewrite clearCanvas_run. cbn [snd].
    destruct (canvasRef s) as [canvas |] eqn:Hc; [| exact Hu].
    destruct (contextRef s); [| exact Hu].
    split; [exact Hd |]. cbn [canvasRef]. intros c [= <-].
    cbn [clearRect withBitmap bitmap width height].
    rewrite (Hb canvas eq_refl).
    apply mapPixels_uniform; [apply shaped_blank |].
    intros px py p Hp.
    destruct (pixelAt_bounds _ _ _ _ _ _ (shaped_blank _ _) Hp) as [Hx Hy].
    now rewrite inRect_whole.
  - rewrite getImageData_then. exact Hu.
Qed.

Lemma untouched_initial (ctxAvailable : bool) (rect : DOMRect) :
  untouched (initialState ctxAvailable rect).
Proof. split; [reflexivity |]. intros canvas [= <-]. reflexivity. Qed.

Lemma untouched_run (rasterize : Rasterizer) (trace : list Action) (s : CanvasState) :
  Forall (λ a, beginsStroke a = false) trace →
  untouched s → is_Some (canvasRef s) →
  untouched (run rasterize trace s) ∧ is_Some (canvasRef (run rasterize trace s)).
Proof.
  intros Htrace. revert s.
  induction Htrace as [| a trace Ha _ IH]; intros s Hu Hs; [now split |].
  cbn [run foldl]. apply IH.
  - now apply untouched_exec.
  - destruct Hs as [c Hc].
    destruct (exec_frame rasterize a s c Hc) as (c' & Hc' & _). now exists c'.
Qed.

(** X5. Along a trace in which no stroke begins, started at the first
    render, the component is never drawing and the raster stays blank:
    moves, releases, leaves, resizes and clears paint nothing. *)
Theorem no_begin_no_ink_on_the_raster :
  ∀ (rasterize : Rasterizer) (ctxAvailable : bool) (rect : DOMRect)
    (trace : list Action),
    Forall (λ a, beginsStroke a = false) trace →
    let s := run rasterize trace (initialState ctxAvailable rect) in
    isDrawing s = false
    ∧ ∃ canvas, canvasRef s = Some canvas
                ∧ bitmap canvas = blank (width canvas) (height canvas).
Proof.
  intros rasterize ctxAvailable rect trace Htrace s.
  destruct (untouched_run rasterize trace (initialState ctxAvailable rect) Htrace
              (untouched_initial ctxAvailable rect) (ex_intro _ _ eq_refl))
    as [[Hd Hb] [canvas Hc]].
  split; [exact Hd |]. exists canvas. split; [exact Hc | now apply Hb].
Qed.

Lemma startDrawing_opens (event : SyntheticEvent) (P : Touch) (s : CanvasState)
    (canvas : HTMLCanvasElement) :
  canvasRef s = Some canvas →
  contextRef s = true →
  firstContact event = Some P →
  finiteCoords (relativeTo (getBoundingClientRect canvas) P) = true →
  strokeInProgress (snd (startDrawing event s)) (getBoundingClientRect canvas)
    [relativeTo (getBoundingClientRect canvas) P].
Proof.
  intros Hc Hx HP Hf.
  destruct s as [cr ctx obs drw dty]. cbn [canvasRef contextRef] in Hc, Hx. subst cr ctx.
  unfold finiteCoords in Hf.
  destruct event as [cX cY | [| t ts]]; cbn in HP; try discriminate;
    injection HP as <-; unfold startDrawing; cbn -[finite relativeTo moveTo];
    unfold moveTo; cbn -[finite] in Hf |- *; rewrite Hf;
    destruct dty; cbn -[finite]; (split; [reflexivity |]); (split; [reflexivity |]);
    eexists; repeat split; reflexivity.
Qed.

Lemma draw_extends (rasterize : Rasterizer) (event : SyntheticEvent) (Q : Touch)
    (s : CanvasState) (O : DOMRect) (pts : list Coords) :
  strokeInProgress s O pts →
  firstContact event = Some Q →
  finiteCoords (relativeTo O Q) = true →
  strokeInProgress (snd (draw rasterize event s)) O (pts ++ [relativeTo O Q]).
Proof.
  intros (Hx & Hd & canvas & Hc & HO & Hp) HQ Hf.
  destruct s as [cr ctx obs drw dty]. cbn [canvasRef contextRef isDrawing] in Hc, Hx, Hd.
  subst cr ctx drw O. unfold finiteCoords in Hf.
  destruct canvas as [w h b [lc lj ss fs lw pth] av r]. cbn in Hp. subst pth.
  destruct event as [cX cY | [| t ts]]; cbn in HQ; try discriminate;
    injection HQ as <-; unfold draw; cbn -[finite relativeTo lineTo stroke];
    unfold lineTo; cbn -[finite stroke] in Hf |- *; rewrite Hf;
    cbn -[finite]; (split; [reflexivity |]); (split; [reflexivity |]);
    eexists; repeat split; reflexivity.
Qed.

Lemma draws_extend (rasterize : Rasterizer) (moves : list SyntheticEvent)
    (Qs : list Touch) (s : CanvasState) (O : DOMRect) (pts : list Coords) :
  Forall2 (λ e Q, firstContact e = Some Q) moves Qs →
  forallb finiteCoords (map (relativeTo O) Qs) = true →
  strokeInProgress s O pts →
  strokeInProgress (run rasterize (map (Dispatch onMouseMove) moves) s) O
    (pts ++ map (relativeTo O) Qs).
Proof.
  intros H. revert s pts.
  induction H as [| e Q moves Qs He _ IH]; intros s pts Hf Hs.
  - cbn. now rewrite app_nil_r.
  - cbn [map forallb] in Hf. apply andb_prop in Hf as [Hf1 Hf2].
    cbn [map run foldl].
    change (foldl (λ s a, exec rasterize a s) ?s0 ?t) with (run rasterize t s0).
    replace (pts ++ relativeTo O Q :: map (relativeTo O) Qs)
      with ((pts ++ [relativeTo O Q]) ++ map (relativeTo O) Qs)
      by now rewrite <- app_assoc.
    apply IH; [exact Hf2 |].
    unfold exec. cbn [perform handler]. now apply draw_extends.
Qed.

(** X6. A stroke builds one polyline.  After a press at [P] and moves
    through [Qs] (all mapped to finite coordinates) the path of the
    context is the single open subpath through the mapped points, in
    order; the release closes that subpath and opens a new one at the
    mapped [P]. *)
Theorem stroke_builds_one_polyline :
  ∀ (rasterize : Rasterizer) (s : CanvasState) (canvas : HTMLCanvasElement)
    (press release : SyntheticEvent) (P : Touch)
    (moves : list SyntheticEvent) (Qs : list Touch),
    canvasRef s = Some canvas →
    contextRef s = true →
    firstContact press = Some P →
    Forall2 (λ e Q, firstContact e = Some Q) moves Qs →
    let O := getBoundingClientRect canvas in
    forallb finiteCoords (map (relativeTo O) (P :: Qs)) = true →
    let s1 := run rasterize
                (Dispatch onMouseDown press :: map (Dispatch onMouseMove) moves) s in
    let s2 := exec rasterize (Dispatch onMouseUp release) s1 in
    isDrawing s1 = true
    ∧ (path ∘ context2d <$> canvasRef s1)
      = Some [{| points := map (relativeTo O) (P :: Qs); closed := false |}]
    ∧ isDrawing s2 = false
    ∧ (path ∘ context2d <$> canvasRef s2)
      = Some [{| points := map (relativeTo O) (P :: Qs); closed := true |};
              {| points := [relativeTo O P]; closed := false |}].
Proof.
  intros rasterize s canvas press release P moves Qs Hc Hx HP Hmoves O Hf s1 s2.
  cbn [map forallb] in Hf. apply andb_prop in Hf as [Hf1 Hf2].
  assert (H1 : strokeInProgress s1 O (map (relativeTo O) (P :: Qs))).
  { subst s1. cbn [run foldl map].
    change (foldl (λ s a, exec rasterize a s) ?s0 ?t) with (run rasterize t s0).
    apply (draws_extend rasterize moves Qs _ O [relativeTo O P] Hmoves Hf2).
    unfold exec. cbn [perform handler]. now apply startDrawing_opens. }
  destruct H1 as (Hx1 & Hd1 & c1 & Hc1 & _ & Hp1).
  split; [exact Hd1 |].
  split; [rewrite Hc1; cbn; now rewrite Hp1 |].
  subst s2. unfold exec. cbn [perform handler]. rewrite stopDrawing_run.
  cbn [snd isDrawing canvasRef]. rewrite Hx1, Hc1.
  split; [reflexivity |].
  cbn. rewrite Hp1. reflexivity.
Qed.

(** X7. A touch event whose [touches] list is empty.  Reading its first
    touch throws: on a mounted canvas [getCoords] throws a [TypeError],
    and so do [startDrawing] with a stored context and [draw] during a
    stroke, before they have changed anything; the state after such a
    begin or move event is the state before.  The end handlers do not
    read the event and run as ever. *)
Theorem touch_event_without_touches :
  ∀ (rasterize : Rasterizer) (s : CanvasState) (canvas : HTMLCanvasElement),
    canvasRef s = Some canvas →
    getCoords (TouchEvent []) s = (Throw (utf16 "TypeError"), s)
    ∧ (contextRef s = true →
       startDrawing (TouchEvent []) s = (Throw (utf16 "TypeError"), s))
    ∧ (contextRef s = true → isDrawing s = true →
       draw rasterize (TouchEvent []) s = (Throw (utf16 "TypeError"), s))
    ∧ (∀ p, p ≠ onMouseUp → p ≠ onMouseLeave → p ≠ onTouchEnd →
         exec rasterize (Dispatch p (TouchEvent [])) s = s)
    ∧ handler rasterize onTouchEnd (TouchEvent []) s = stopDrawing s.
Proof.
  intros rasterize s canvas Hc.
  assert (Hg : getCoords (TouchEvent []) s = (Throw (utf16 "TypeError"), s)).
  { unfold getCoords. rewrite bind_run. cbn [get]. now rewrite Hc. }
  assert (Hs : ∀ s0, canvasRef s0 = Some canvas →
                snd (startDrawing (TouchEvent []) s0) = s0).
  { intros s0 Hc0. unfold startDrawing. rewrite bind_run. cbn [get].
    destruct (negb (contextRef s0)); [reflexivity |].
    rewrite bind_run. unfold getCoords. rewrite bind_run. cbn [get]. now rewrite Hc0. }
  assert (Hm : snd (draw rasterize (TouchEvent []) s) = s).
  { unfold draw. rewrite bind_run. cbn [get].
    destruct (negb (isDrawing s) || negb (contextRef s)); [reflexivity |].
    now rewrite bind_run, Hg. }
  split; [exact Hg |].
  split.
  { intros Hx. unfold startDrawing. rewrite bind_run. cbn [get]. rewrite Hx.
    cbn [negb]. now rewrite bind_run, Hg. }
  split.
  { intros Hx Hd. unfold draw. rewrite bind_run. cbn [get]. rewrite Hx, Hd.
    cbn [negb orb]. now rewrite bind_run, Hg. }
  split; [| reflexivity].
  intros p H1 H2 H3. unfold exec. cbn [perform].
  destruct p; cbn [handler]; try congruence; auto.
Qed.

(** X8. [clearCanvas] in the middle of a stroke wipes the raster and the
    ink flag but not the stroke: [isDrawing] and the path stay.  The next
    move event strokes the whole path again, points from before the clear
    included, onto the blank raster, and leaves [isDirty] false, so
    [getImageData] returns [null] while the raster shows the stroke. *)
Theorem clear_during_a_stroke_keeps_the_stroke :
  ∀ (rasterize : Rasterizer) (document : Document) (s : CanvasState)
    (canvas : HTMLCanvasElement) (move : SyntheticEvent) (Q : Touch),
    reachable rasterize s →
    canvasRef s = Some canvas →
    isDrawing s = true →
    firstContact move = Some Q →
    finiteCoords (relativeTo (getBoundingClientRect canvas) Q) = true →
    let s1 := exec rasterize CallClearCanvas s in
    let s2 := exec rasterize (Dispatch onMouseMove move) s1 in
    let k := set_path (extendLast (relativeTo (getBoundingClientRect canvas) Q)
                         (path (context2d canvas))) (context2d canvas) in
    isDrawing s1 = true
    ∧ (context2d <$> canvasRef s1) = Some (context2d canvas)
    ∧ isDirty s2 = false
    ∧ getImageData rasterize document s2 = (Normal None, s2)
    ∧ (context2d <$> canvasRef s2) = Some k
    ∧ ∀ px py, (px < width canvas)%nat → (py < height canvas)%nat →
        livePixel s2 px py = Some (over rasterize (rasterize k px py) transparent).
Proof.
  intros rasterize document s canvas move Q Hr Hc Hd HQ Hf s1 s2 k.
  destruct (reachable_Inv _ _ Hr) as (Hdx & _ & Hi). specialize (Hdx Hd).
  rewrite Hc in Hi. destruct Hi as (Hs & _ & _).
  destruct s as [cr ctx obs drw dty]. cbn [canvasRef contextRef isDrawing] in Hc, Hdx, Hd.
  subst cr ctx drw.
  assert (E1 : s1 = {| canvasRef := Some (clearRect 0 0 (width canvas) (height canvas) canvas);
                       contextRef := true; observing := obs; isDrawing := true;
                       isDirty := false |}).
  { reflexivity. }
  assert (E2 : s2 = {| canvasRef :=
                         Some (stroke rasterize
                                 (lineTo (x (relativeTo (getBoundingClientRect canvas) Q))
                                         (y (relativeTo (getBoundingClientRect canvas) Q))
                                    (clearRect 0 0 (width canvas) (height canvas) canvas)));
                       contextRef := true; observing := obs; isDrawing := true;
                       isDirty := false |}).
  { subst s2. rewrite E1. unfold exec. cbn [perform handler].
    destruct move as [cX cY | [| t ts]]; cbn in HQ; try discriminate;
      injection HQ as <-; reflexivity. }
  rewrite E1, E2. cbn [isDrawing isDirty canvasRef fmap option_fmap option_map].
  split; [reflexivity |]. split; [reflexivity |]. split; [reflexivity |].
  split; [now apply getImageData_clean |].
  unfold finiteCoords in Hf. unfold lineTo. rewrite Hf.
  split; [reflexivity |].
  intros px py Hx Hy. unfold livePixel. cbn [canvasRef mbind option_bind].
  unfold stroke. cbn [withBitmap withContext bitmap context2d].
  rewrite pixelAt_mapPixels.
  pose proof (clearRect_whole canvas Hs) as Hclear.
  cbn [clearRect withBitmap bitmap] in Hclear. cbn [clearRect withBitmap bitmap].
  rewrite Hclear. unfold blank. rewrite pixelAt_uniform by assumption.
  reflexivity.
Qed.

(** *** Trimming *)
Lemma trimStart_blank (s : JSString) : isBlank (trimStart s) = isBlank s.
Proof.
  induction s as [| c rest IH]; [reflexivity |].
  cbn [trimStart]. destruct (isWhiteSpace c) eqn:E.
  - unfold isBlank in *. cbn [forallb]. now rewrite E.
  - reflexivity.
Qed.

Lemma trimEnd_empty (s : JSString) : trimEnd s = [] ↔ isBlank s = true.
Proof.
  unfold isBlank. induction s as [| c rest IH]; [easy |].
  cbn [trimEnd forallb].
  destruct (trimEnd rest) as [| c' rest'] eqn:E.
  - destruct (isWhiteSpace c); cbn [andb].
    + split; [intros _; now apply IH | reflexivity].
    + split; discriminate.
  - split; [discriminate |]. intros H. apply andb_prop in H as [_ H].
    apply IH in H. discriminate.
Qed.

Lemma trim_empty (s : JSString) : trim s = [] ↔ isBlank s = true.
Proof. unfold trim. now rewrite trimEnd_empty, trimStart_blank. Qed.

Lemma trim_nonempty (s : JSString) (c : N) (rest : JSString) :
  trim s = c :: rest → isBlank s = false.
Proof.
  intros Ht. destruct (isBlank s) eqn:Eb; [| reflexivity].
  apply trim_empty in Eb. congruence.
Qed.

(** *** [handleSolve] in two phases *)
Lemma handleSolve_phases (solve : App.Solver) (rasterize : Rasterizer)
    (document : Document) (a : App.AppState) :
  App.handleSolve solve rasterize document a
  = match handleSolveBegin rasterize document a with
    | Finished a' => (a', [])
    | Awaiting a' request => (handleSolveResume (solve request) a', [request])
    end.
Proof.
  unfold App.handleSolve, handleSolveBegin, handleSolveResume.
  cbn [App.setSolution App.setError App.setIsLoading App.inputMode App.canvasRef
       App.textProblem].
  destruct (App.inputMode a).
  - destruct (App.canvasRef a) as [canvas |]; [| reflexivity].
    destruct (getImageData rasterize document canvas) as [[[url |] | e] canvas'];
      reflexivity.
  - destruct (trim (App.textProblem a)); reflexivity.
Qed.

(** The outcomes of the first phase. *)
Lemma handleSolveBegin_cases (rasterize : Rasterizer) (document : Document)
    (a : App.AppState) :
  match handleSolveBegin rasterize document a with
  | Finished a' =>
      App.isLoading a' = false ∧ App.solution a' = None
      ∧ App.inputMode a' = App.inputMode a ∧ App.textProblem a' = App.textProblem a
      ∧ App.canvasRef a' = App.canvasRef a
      ∧ match App.inputMode a, App.canvasRef a with
        | App.handwriting, None => App.error a' = None
        | App.handwriting, Some canvas =>
            (fst (getImageData rasterize document canvas) = Normal None
             ∧ App.error a'
               = Some (utf16 "The canvas is empty. Please write a math problem."))
            ∨ (∃ message,
                 fst (getImageData rasterize document canvas) = Throw message
                 ∧ App.error a' = Some (utf16 "Failed to solve: " ++ message))
        | App.text, _ =>
            isBlank (App.textProblem a) = true
            ∧ App.error a'
              = Some (utf16 "The text input is empty. Please type a math problem.")
        end
  | Awaiting a' request =>
      App.isLoading a' = true ∧ App.solution a' = None ∧ App.error a' = None
      ∧ App.inputMode a' = App.inputMode a ∧ App.textProblem a' = App.textProblem a
      ∧ App.canvasRef a' = App.canvasRef a
      ∧ match App.inputMode a with
        | App.handwriting =>
            ∃ canvas url, App.canvasRef a = Some canvas
                          ∧ fst (getImageData rasterize document canvas)
                            = Normal (Some url)
                          ∧ request = App.solveMathProblem url
        | App.text =>
            isBlank (App.textProblem a) = false
            ∧ request = App.solveMathProblemFromText (App.textProblem a)
        end
  end.
Proof.
  unfold handleSolveBegin.
  cbn [App.setSolution App.setError App.setIsLoading App.inputMode App.canvasRef
       App.textProblem].
  destruct (App.inputMode a) eqn:Em.
  - destruct (App.canvasRef a) as [canvas |] eqn:Ec; [| cbn; auto 10].
    cbv beta iota.
    pose proof (getImageData_state rasterize document canvas) as Hs.
    destruct (getImageData rasterize document canvas) as [[[url |] | e] canvas'] eqn:Eg;
      cbn [fst snd] in Hs |- *; subst canvas'; cbn -[getImageData].
    + repeat split; auto. exists canvas, url. now rewrite Eg.
    + repeat split; auto.
    + repeat split; eauto.
  - destruct (trim (App.textProblem a)) as [| c rest] eqn:Et; cbn.
    + apply trim_empty in Et. auto 10.
    + apply trim_nonempty in Et. auto 10.
Qed.

(** X9. However [handleSolve] ends, [isLoading] is false again, the input
    mode, the typed text and the canvas handle are as before, at most one
    request went to the solver, and the state never holds a solution and an
    error together: it holds a solution exactly when a request was sent and
    the solver resolved with that solution. *)
Theorem handleSolve_always_settles :
  ∀ (solve : App.Solver) (rasterize : Rasterizer) (document : Document)
    (a : App.AppState),
    let a' := fst (App.handleSolve solve rasterize document a) in
    let sent := snd (App.handleSolve solve rasterize document a) in
    App.isLoading a' = false
    ∧ App.inputMode a' = App.inputMode a
    ∧ App.textProblem a' = App.textProblem a
    ∧ App.canvasRef a' = App.canvasRef a
    ∧ (length sent ≤ 1)%nat
    ∧ ¬ (is_Some (App.solution a') ∧ is_Some (App.error a'))
    ∧ ∀ solution,
        App.solution a' = Some solution
        ↔ ∃ request, sent = [request] ∧ solve request = Normal solution.
Proof.
  intros solve rasterize document a. cbn zeta. rewrite handleSolve_phases.
  pose proof (handleSolveBegin_cases rasterize document a) as H.
  destruct (handleSolveBegin rasterize document a) as [a' | a' request]; cbn [fst snd].
  - destruct H as (H1 & H2 & H3 & H4 & H5 & _).
    repeat split; auto.
    + intros [[x Hx] _]. congruence.
    + congruence.
    + intros (request & Hr & _). discriminate.
  - destruct H as (H1 & H2 & H3 & H4 & H5 & H6 & _).
    unfold handleSolveResume, App.settle, App.catch.
    destruct a' as [cr sol ld err md tp]. cbn in H1, H2, H3, H4, H5, H6. subst.
    destruct (solve request) as [solution | message] eqn:Es; cbn;
      repeat split; auto.
    + intros [_ [x Hx]]. discriminate.
    + intros [= <-]. eauto.
    + intros (r & [= <-] & Hr). congruence.
    + intros [[x Hx] _]. discriminate.
    + discriminate.
    + intros (r & [= <-] & Hr). congruence.
Qed.

(** X10. In text mode the solver is asked exactly when the text has a
    character that is not white space, and it is then sent the text as
    typed, not trimmed; a blank text sets the message about the empty
    text input instead. *)
Theorem handleSolve_text_mode :
  ∀ (solve : App.Solver) (rasterize : Rasterizer) (document : Document)
    (a : App.AppState),
    App.inputMode a = App.text →
    let a' := fst (App.handleSolve solve rasterize document a) in
    let sent := snd (App.handleSolve solve rasterize document a) in
    (isBlank (App.textProblem a) = true →
       sent = []
       ∧ App.error a'
         = Some (utf16 "The text input is empty. Please type a math problem.")
       ∧ App.solution a' = None)
    ∧ (isBlank (App.textProblem a) = false →
       sent = [App.solveMathProblemFromText (App.textProblem a)]).
Proof.
  intros solve rasterize document a Hm. cbn zeta. rewrite handleSolve_phases.
  pose proof (handleSolveBegin_cases rasterize document a) as H. rewrite Hm in H.
  destruct (handleSolveBegin rasterize document a) as [a' | a' request]; cbn [fst snd].
  - destruct H as (_ & H2 & _ & _ & _ & Hb & He).
    split; [auto | congruence].
  - destruct H as (_ & _ & _ & _ & _ & _ & Hb & ->).
    split; [congruence | reflexivity].
Qed.

(** X11. What the reply of the solver does.  When a request was sent and
    the solver rejects with a message, the error shown is that message
    behind "Failed to solve: " and there is no solution; when it resolves,
    the solution is set and there is no error. *)
Theorem handleSolve_shows_the_reply :
  ∀ (solve : App.Solver) (rasterize : Rasterizer) (document : Document)
    (a : App.AppState) (request : App.SolverRequest),
    snd (App.handleSolve solve rasterize document a) = [request] →
    let a' := fst (App.handleSolve solve rasterize document a) in
    (∀ message, solve request = Throw message →
       App.error a' = Some (utf16 "Failed to solve: " ++ message)
       ∧ App.solution a' = None)
    ∧ (∀ solution, solve request = Normal solution →
       App.solution a' = Some solution ∧ App.error a' = None).
Proof.
  intros solve rasterize document a request. cbn zeta. rewrite handleSolve_phases.
  pose proof (handleSolveBegin_cases rasterize document a) as H.
  destruct (handleSolveBegin rasterize document a) as [a' | a' r]; cbn [fst snd];
    [discriminate |].
  intros [= ->]. destruct H as (_ & H2 & H3 & _).
  unfold handleSolveResume, App.settle, App.catch.
  split; intros x ->; cbn; auto.
Qed.

Lemma getImageData_sized (rasterize : Rasterizer) (document : Document)
    (s : CanvasState) (canvas : HTMLCanvasElement) :
  canvasRef s = Some canvas →
  isDirty s = true →
  isEmpty canvas = false →
  ∃ image,
    getImageData rasterize document s = (Normal (Some (ImageDataURL image)), s)
    ∧ mimeType image = "image/png"%string
    ∧ imageWidth image = width canvas
    ∧ imageHeight image = height canvas.
Proof.
  intros Hc Hd He. rewrite (getImageData_dirty _ _ _ _ Hc Hd).
  destruct (canvas2d document).
  - unfold drawImage. pose proof He as He'. unfold isEmpty in He'. rewrite He'.
    unfold toDataURL, whiteSheet.
    cbn [fillRect withBitmap withContext set_height set_width width height].
    rewrite He'. eexists. repeat split; reflexivity.
  - rewrite toDataURL_run, He. eexists. repeat split; reflexivity.
Qed.

(** What Solve does in handwriting mode, by the state of the canvas. *)
Lemma handleSolve_handwriting (solve : App.Solver) (rasterize : Rasterizer)
    (document : Document) (a : App.AppState) (canvas : CanvasState)
    (element : HTMLCanvasElement) :
  App.inputMode a = App.handwriting →
  App.canvasRef a = Some canvas →
  canvasRef canvas = Some element →
  let a' := fst (App.handleSolve solve rasterize document a) in
  let sent := snd (App.handleSolve solve rasterize document a) in
  (isDirty canvas = false →
     sent = []
     ∧ App.error a' = Some (utf16 "The canvas is empty. Please write a math problem.")
     ∧ App.solution a' = None)
  ∧ (isDirty canvas = true → isEmpty element = false →
     ∃ image,
       fst (getImageData rasterize document canvas) = Normal (Some (ImageDataURL image))
       ∧ mimeType image = "image/png"%string
       ∧ imageWidth image = width element
       ∧ imageHeight image = height element
       ∧ sent = [App.solveMathProblem (ImageDataURL image)])
  ∧ (isDirty canvas = true → isEmpty element = true →
     if canvas2d document
     then sent = []
          ∧ App.error a'
            = Some (utf16 "Failed to solve: " ++ invalidStateMessage document)
          ∧ App.solution a' = None
     else sent = [App.solveMathProblem EmptyDataURL]).
Proof.
  intros Hm Hc He. cbn zeta.
  unfold App.handleSolve.
  cbn [App.setSolution App.setError App.setIsLoading App.inputMode App.canvasRef].
  rewrite Hm, Hc.
  split; [| split].
  - intros Hd. rewrite (getImageData_clean _ _ _ Hd). cbn. auto.
  - intros Hd Hne.
    destruct (getImageData_sized rasterize document canvas element He Hd Hne)
      as (image & Hg & Hmt & Hw & Hh).
    exists image. rewrite Hg. cbn. auto.
  - intros Hd Hz. rewrite (getImageData_empty _ _ _ _ He Hd Hz).
    destruct (canvas2d document); cbn; auto.
Qed.

(** X12. In handwriting mode with ink on a mounted canvas of nonzero
    width and height, [handleSolve] sends exactly one request: the image
    [getImageData] returns, a PNG of the size of the canvas.  With ink on
    a canvas of width or height zero there is no image to send: the error
    [drawImage] throws is caught, its message is shown behind "Failed to
    solve: " and nothing is sent; or, when the temporary canvas hands out
    no context, the request carries the URL [data:,]. *)
Theorem handleSolve_sends_the_snapshot :
  ∀ (solve : App.Solver) (rasterize : Rasterizer) (document : Document)
    (a : App.AppState) (canvas : CanvasState) (element : HTMLCanvasElement),
    App.inputMode a = App.handwriting →
    App.canvasRef a = Some canvas →
    canvasRef canvas = Some element →
    isDirty canvas = true →
    let a' := fst (App.handleSolve solve rasterize document a) in
    let sent := snd (App.handleSolve solve rasterize document a) in
    ((0 < width element)%nat → (0 < height element)%nat →
       ∃ image,
         fst (getImageData rasterize document canvas)
         = Normal (Some (ImageDataURL image))
         ∧ mimeType image = "image/png"%string
         ∧ imageWidth image = width element
         ∧ imageHeight image = height element
         ∧ sent = [App.solveMathProblem (ImageDataURL image)])
    ∧ (width element = 0%nat ∨ height element = 0%nat →
       if canvas2d document
       then sent = []
            ∧ App.error a'
              = Some (utf16 "Failed to solve: " ++ invalidStateMessage document)
            ∧ App.solution a' = None
       else sent = [App.solveMathProblem EmptyDataURL]).
Proof.
  intros solve rasterize document a canvas element Hm Hc He Hd. cbn zeta.
  destruct (handleSolve_handwriting solve rasterize document a canvas element Hm Hc He)
    as (_ & H2 & H3).
  split.
  - intros Hw Hh. apply (H2 Hd). now apply isEmpty_false.
  - intros Hz. apply (H3 Hd). now apply isEmpty_true.
Qed.

(** *** Clearing *)
Lemma clearCanvas_resets (s : CanvasState) :
  Inv s → isDirty (snd (clearCanvas s)) = false.
Proof.
  intros (_ & Hi & Hc). rewrite clearCanvas_run. cbn [snd].
  destruct (canvasRef s), (contextRef s); try reflexivity; try discriminate Hc;
    destruct (isDirty s); try reflexivity; now specialize (Hi eq_refl).
Qed.

Lemma clearCanvas_twice (s : CanvasState) :
  Inv s → snd (clearCanvas (snd (clearCanvas s))) = snd (clearCanvas s).
Proof.
  intros (_ & _ & Hc). rewrite !clearCanvas_run. cbn [snd].
  destruct (canvasRef s) as [canvas |] eqn:Ec; [| now rewrite Ec].
  destruct (contextRef s) eqn:Ex; [| now rewrite Ec, Ex].
  destruct Hc as (Hs & _ & _).
  cbn [canvasRef contextRef observing isDrawing]. f_equal. f_equal.
  pose proof (clearRect_whole canvas Hs) as H1.
  unfold clearRect, withBitmap in *. cbn [bitmap width height context2d
    contextAvailable getBoundingClientRect] in *.
  f_equal. rewrite H1.
  apply mapPixels_uniform; [apply shaped_blank |].
  intros px py p Hp.
  destruct (pixelAt_bounds _ _ _ _ _ _ (shaped_blank _ _) Hp) as [Hx Hy].
  now rewrite inRect_whole.
Qed.

(** X13. Clear, then Solve: nothing reaches the solver.  After
    [handleClear], [handleSolve] sends no request and sets no solution; it
    reports the empty text or the empty canvas (or, without a canvas
    handle, nothing). *)
Theorem clear_then_solve_never_calls_the_solver :
  ∀ (rasterize : Rasterizer) (solve : App.Solver) (document : Document)
    (a : App.AppState),
    (∀ canvas, App.canvasRef a = Some canvas → reachable rasterize canvas) →
    let a' := fst (App.handleSolve solve rasterize document (App.handleClear a)) in
    snd (App.handleSolve solve rasterize document (App.handleClear a)) = []
    ∧ App.solution a' = None
    ∧ App.isLoading a' = false
    ∧ App.error a'
      = match App.inputMode a, App.canvasRef a with
        | App.text, _ =>
            Some (utf16 "The text input is empty. Please type a math problem.")
        | App.handwriting, Some _ =>
            Some (utf16 "The canvas is empty. Please write a math problem.")
        | App.handwriting, None => None
        end.
Proof.
  intros rasterize solve document a Hr. cbn zeta.
  unfold App.handleClear, App.handleSolve.
  destruct a as [cr sol ld err md tp]. cbn [App.canvasRef] in Hr.
  destruct md; cbn -[getImageData clearCanvas utf16].
  - destruct cr as [canvas |]; cbn -[getImageData clearCanvas utf16]; [| auto].
    rewrite (getImageData_clean rasterize document _
               (clearCanvas_resets canvas (reachable_Inv _ _ (Hr canvas eq_refl)))).
    cbn -[utf16]. auto.
  - auto.
Qed.

(** X14. [handleClear] is idempotent: clearing twice leaves the state
    the first clear left. *)
Theorem handleClear_is_idempotent :
  ∀ (rasterize : Rasterizer) (a : App.AppState),
    (∀ canvas, App.canvasRef a = Some canvas → reachable rasterize canvas) →
    App.handleClear (App.handleClear a) = App.handleClear a.
Proof.
  intros rasterize a Hr. unfold App.handleClear.
  destruct a as [cr sol ld err md tp]. cbn [App.canvasRef] in Hr.
  destruct md; cbn -[clearCanvas]; [| reflexivity].
  destruct cr as [canvas |]; cbn -[clearCanvas]; [| reflexivity].
  now rewrite (clearCanvas_twice canvas (reachable_Inv _ _ (Hr canvas eq_refl))).
Qed.

Lemma mountCanvas_reachable (rasterize : Rasterizer) (ctxAvailable : bool)
    (rect : DOMRect) (document : Document) :
  reachable rasterize (mountCanvas ctxAvailable rect document).
Proof.
  change (mountCanvas ctxAvailable rect document)
    with (exec rasterize (Mount true document) (initialState ctxAvailable rect)).
  repeat constructor.
Qed.

Lemma AppInv_initial (rasterize : Rasterizer) (ctxAvailable : bool) (rect : DOMRect)
    (document : Document) :
  AppInv rasterize {| app := initialApp ctxAvailable rect document; inFlight := [] |}.
Proof.
  unfold AppInv, initialApp. cbn -[mountCanvas].
  split; [split; [discriminate | congruence] |].
  split; [cbn; lia |]. split; [congruence |].
  split; [intros [[x Hx] _]; discriminate |].
  split; [split; discriminate |].
  intros canvas [= <-]. apply mountCanvas_reachable.
Qed.

Lemma AppInv_step (rasterize : Rasterizer) (e : AppEvent) (σ : Session) :
  AppInv rasterize σ → AppInv rasterize (appStep rasterize e σ).
Proof.
  intros HI. pose proof HI as (Hl & Hn & Hf & Hx & Hm & Hr).
  destruct σ as [a fl]. cbn [app inFlight] in *.
  destruct e as [document | | reply | mode ctxAvailable rect document | value | act];
    cbn [appStep app inFlight Toolbar.render Toolbar.solveDisabled Toolbar.clearDisabled].
  - destruct (App.isLoading a) eqn:El; [exact HI |].
    assert (fl = []) as ->.
    { destruct fl; [reflexivity |]. destruct Hl as [_ Hl]. now discriminate Hl. }
    pose proof (handleSolveBegin_cases rasterize document a) as H.
    destruct (handleSolveBegin rasterize document a) as [a' | a' request];
      unfold AppInv; cbn [app inFlight app length].
    + destruct H as (H1 & H2 & H3 & H4 & H5 & _).
      rewrite H1, H2, H3, H5.
      split; [split; [discriminate | congruence] |].
      split; [cbn; lia |]. split; [congruence |].
      split; [intros [[x Hx'] _]; discriminate |]. auto.
    + destruct H as (H1 & H2 & H3 & H4 & H5 & H6 & _).
      rewrite H1, H2, H3, H4, H6.
      split; [split; [discriminate | reflexivity] |].
      split; [cbn; lia |]. split; [auto |].
      split; [intros [[x Hx'] _]; discriminate |]. auto.
  - destruct (App.isLoading a) eqn:El; [exact HI |].
    assert (fl = []) as ->.
    { destruct fl; [reflexivity |]. destruct Hl as [_ Hl]. now discriminate Hl. }
    unfold AppInv, App.handleClear. destruct a as [cr sol ld err md tp].
    cbn [App.canvasRef App.inputMode] in *.
    destruct md, cr as [canvas |]; cbn -[clearCanvas];
      (split; [split; [discriminate | congruence] |]);
      (split; [cbn; lia |]); (split; [congruence |]);
      (split; [intros [[x Hx'] _]; discriminate |]);
      (split; [exact Hm || (split; [discriminate|]; intros H; now apply Hm in H) |]);
      try (intros c Hc; discriminate Hc); try exact Hr.
    intros c [= <-].
    change (snd (clearCanvas canvas)) with (exec rasterize CallClearCanvas canvas).
    constructor. now apply Hr.
  - destruct fl as [| request rest]; [exact HI |].
    assert (rest = []) as -> by (destruct rest; [reflexivity | cbn in Hn; lia]).
    destruct (Hf ltac:(discriminate)) as [Hs He].
    unfold AppInv, handleSolveResume, App.settle, App.catch.
    destruct a as [cr sol ld err md tp]. cbn in Hs, He, Hm, Hr. subst sol err.
    destruct reply as [solution | message]; cbn -[utf16];
      (split; [split; [discriminate | congruence] |]);
      (split; [cbn; lia |]); (split; [congruence |]);
      (split; [intros [[x Hx'] [y Hy]]; discriminate |]); auto.
  - unfold AppInv, setInputMode. destruct a as [cr sol ld err md tp].
    cbn [App.canvasRef App.inputMode App.solution App.error App.isLoading] in *.
    destruct mode, md; cbn -[mountCanvas]; try exact HI;
      (split; [exact Hl |]); (split; [exact Hn |]); (split; [exact Hf |]);
      (split; [exact Hx |]).
    * split; [split; discriminate |]. intros c [= <-]. apply mountCanvas_reachable.
    * split; [split; reflexivity |]. intros c Hc. discriminate Hc.
  - destruct (App.inputMode a) eqn:Emode; [exact HI |].
    unfold AppInv, handleTextChange. destruct a as [cr sol ld err md tp].
    cbn [App.canvasRef App.inputMode App.solution App.error App.isLoading] in *.
    subst md.
    destruct (truthy err) eqn:Et; cbn; (split; [exact Hl |]); (split; [exact Hn |]).
    + split; [intros H; now destruct (Hf H) |].
      split; [intros [_ [x Hx']]; discriminate |]. exact (conj Hm Hr).
    + exact (conj Hf (conj Hx (conj Hm Hr))).
  - destruct (App.canvasRef a) as [canvas |] eqn:Ec; [| exact HI].
    unfold AppInv. destruct a as [cr sol ld err md tp].
    cbn [App.canvasRef App.inputMode App.solution App.error App.isLoading] in *.
    subst cr. cbn.
    split; [exact Hl |]. split; [exact Hn |]. split; [exact Hf |].
    split; [exact Hx |].
    split; [split; [discriminate |]; intros H; now apply Hm in H |].
    intros c [= <-]. constructor. now apply Hr.
Qed.

Lemma appReachable_AppInv (rasterize : Rasterizer) (σ : Session) :
  appReachable rasterize σ → AppInv rasterize σ.
Proof.
  induction 1 as [ctxAvailable rect document | e σ _ IH].
  - apply AppInv_initial.
  - now apply AppInv_step.
Qed.

(** X15. In every state a running [App] can reach: [isLoading] is true
    exactly while a request is in flight, and at most one is; while one is
    in flight there is neither a solution nor an error; a solution and an
    error are never held together; the canvas handle is present exactly in
    handwriting mode, and the canvas behind it is in a reachable state. *)
Theorem app_invariant :
  ∀ (rasterize : Rasterizer) (σ : Session),
    appReachable rasterize σ →
    (App.isLoading (app σ) = true ↔ inFlight σ ≠ [])
    ∧ (length (inFlight σ) ≤ 1)%nat
    ∧ (inFlight σ ≠ [] →
       App.solution (app σ) = None ∧ App.error (app σ) = None)
    ∧ ¬ (is_Some (App.solution (app σ)) ∧ is_Some (App.error (app σ)))
    ∧ (App.canvasRef (app σ) = None ↔ App.inputMode (app σ) = App.text)
    ∧ (∀ canvas, App.canvasRef (app σ) = Some canvas → reachable rasterize canvas).
Proof. exact appReachable_AppInv. Qed.

(** X16. While a request is in flight the toolbar shows the spinner with
    "Solving..." and both of its buttons are disabled: a click on Solve or
    on Clear changes nothing, so no second request can start and the
    pending one cannot be cleared away. *)
Theorem toolbar_is_inert_while_solving :
  ∀ (rasterize : Rasterizer) (σ : Session) (document : Document),
    appReachable rasterize σ →
    inFlight σ ≠ [] →
    Toolbar.render (App.isLoading (app σ))
    = {| Toolbar.clearDisabled := true; Toolbar.solveDisabled := true;
         Toolbar.spinner := true; Toolbar.solveLabel := "Solving..." |}
    ∧ appStep rasterize (ClickSolve document) σ = σ
    ∧ appStep rasterize ClickClear σ = σ.
Proof.
  intros rasterize σ document Hr Hf.
  destruct (appReachable_AppInv _ _ Hr) as ([_ Hl] & _).
  specialize (Hl Hf). cbn [appStep]. rewrite Hl. auto.
Qed.

(** The canvas element stays in place. *)
Lemma reachable_element (rasterize : Rasterizer) (s : CanvasState) :
  reachable rasterize s → is_Some (canvasRef s).
Proof.
  induction 1 as [ctxAvailable rect | a s _ [canvas Hc]]; [eexists; reflexivity |].
  destruct (exec_frame rasterize a s canvas Hc) as (canvas' & Hc' & _). eauto.
Qed.

(** X17. The guard on the canvas handle.  With no handle, [handleSolve]
    in handwriting mode would end silently: nothing sent, no error, no
    solution.  A running [App] never gets there: in handwriting mode the
    handle is always present and leads to a canvas element, so Solve
    always tells the user something or sends a request.  Without ink it
    reports the empty canvas.  With ink on a canvas of nonzero width and
    height it sends a request.  With ink on a canvas of width or height
    zero it shows the message of the error [drawImage] throws, or, when
    the temporary canvas hands out no context, it sends a request. *)
Theorem handwriting_solve_is_never_silent :
  ∀ (rasterize : Rasterizer) (solve : App.Solver) (document : Document),
    (∀ a, App.inputMode a = App.handwriting → App.canvasRef a = None →
       snd (App.handleSolve solve rasterize document a) = []
       ∧ App.error (fst (App.handleSolve solve rasterize document a)) = None
       ∧ App.solution (fst (App.handleSolve solve rasterize document a)) = None)
    ∧ (∀ σ, appReachable rasterize σ →
         App.inputMode (app σ) = App.handwriting →
         let a' := fst (App.handleSolve solve rasterize document (app σ)) in
         let sent := snd (App.handleSolve solve rasterize document (app σ)) in
         ∃ canvas element,
           App.canvasRef (app σ) = Some canvas
           ∧ canvasRef canvas = Some element
           ∧ if isDirty canvas
             then if canvas2d document && isEmpty element
                  then sent = []
                       ∧ App.error a'
                         = Some (utf16 "Failed to solve: "
                                 ++ invalidStateMessage document)
                  else ∃ url, sent = [App.solveMathProblem url]
             else sent = []
                  ∧ App.error a'
                    = Some (utf16 "The canvas is empty. Please write a math problem.")).
Proof.
  intros rasterize solve document. split.
  - intros a Hm Hc. destruct a as [cr sol ld err md tp]. cbn in Hm, Hc. subst cr md.
    cbn. auto.
  - intros σ Hr Hm. cbn zeta.
    destruct (appReachable_AppInv _ _ Hr) as (_ & _ & _ & _ & Hc & Hreach).
    destruct (App.canvasRef (app σ)) as [canvas |] eqn:Ec.
    2: { destruct Hc as [Hc _]. specialize (Hc eq_refl). congruence. }
    destruct (reachable_element _ _ (Hreach canvas eq_refl)) as [element He].
    exists canvas, element. split; [reflexivity |]. split; [exact He |].
    destruct (handleSolve_handwriting solve rasterize document (app σ) canvas element
                Hm Ec He) as (H1 & H2 & H3).
    destruct (isDirty canvas).
    + destruct (isEmpty element).
      * specialize (H3 eq_refl eq_refl).
        destruct (canvas2d document); cbn [andb]; [tauto | eauto].
      * destruct (H2 eq_refl eq_refl) as (image & _ & _ & _ & _ & Hs).
        rewrite andb_false_r. eauto.
    + destruct (H1 eq_refl) as (Hs & Herr & _). auto.
Qed.

(** X18. Typing.  [handleTextChange] stores the text and takes a shown
    error away, leaving all else as it is; Solve right after it, in text
    mode, sends exactly the text just typed when that is not blank, and
    nothing when it is. *)
Theorem typing_feeds_solve :
  ∀ (solve : App.Solver) (rasterize : Rasterizer) (document : Document)
    (value : JSString) (a : App.AppState),
    App.inputMode a = App.text →
    let a1 := handleTextChange value a in
    App.textProblem a1 = value
    ∧ (truthy (App.error a) = true → App.error a1 = None)
    ∧ App.solution a1 = App.solution a
    ∧ App.isLoading a1 = App.isLoading a
    ∧ App.canvasRef a1 = App.canvasRef a
    ∧ snd (App.handleSolve solve rasterize document a1)
      = if isBlank value then [] else [App.solveMathProblemFromText value].
Proof.
  intros solve rasterize document value a Hm a1.
  assert (H1 : App.textProblem a1 = value ∧ App.inputMode a1 = App.text).
  { subst a1. unfold handleTextChange. destruct (truthy (App.error a)); cbn; auto. }
  destruct H1 as [Ht Hm1].
  split; [exact Ht |].
  split; [intros He; subst a1; unfold handleTextChange; now rewrite He |].
  split; [subst a1; unfold handleTextChange; now destruct (truthy (App.error a)) |].
  split; [subst a1; unfold handleTextChange; now destruct (truthy (App.error a)) |].
  split; [subst a1; unfold handleTextChange; now destruct (truthy (App.error a)) |].
  rewrite handleSolve_phases.
  pose proof (handleSolveBegin_cases rasterize document a1) as H. rewrite Hm1, Ht in H.
  destruct (handleSolveBegin rasterize document a1) as [a' | a' request]; cbn [snd].
  - destruct H as (_ & _ & _ & _ & _ & Hb & _). now rewrite Hb.
  - destruct H as (_ & _ & _ & _ & _ & _ & Hb & ->). now rewrite Hb.
Qed.

(** X19. Switching to text mode and back discards the drawing: the
    canvas handle then leads to a newly mounted canvas without ink, so
    Solve reports the empty canvas and sends nothing; the typed text and
    the solution and error on display come through both switches. *)
Theorem mode_round_trip_discards_the_drawing :
  ∀ (solve : App.Solver) (rasterize : Rasterizer) (document : Document)
    (a : App.AppState)
    (ctxAvailable ctxAvailable' : bool) (rect rect' : DOMRect)
    (document' document'' : Document),
    App.inputMode a = App.handwriting →
    let a1 := setInputMode App.text ctxAvailable rect document' a in
    let a2 := setInputMode App.handwriting ctxAvailable' rect' document'' a1 in
    App.canvasRef a1 = None
    ∧ App.canvasRef a2 = Some (mountCanvas ctxAvailable' rect' document'')
    ∧ isDirty (mountCanvas ctxAvailable' rect' document'') = false
    ∧ App.inputMode a2 = App.handwriting
    ∧ App.textProblem a2 = App.textProblem a
    ∧ App.solution a2 = App.solution a
    ∧ App.error a2 = App.error a
    ∧ snd (App.handleSolve solve rasterize document a2) = []
    ∧ App.error (fst (App.handleSolve solve rasterize document a2))
      = Some (utf16 "The canvas is empty. Please write a math problem.").
Proof.
  intros solve rasterize document a ctxAvailable ctxAvailable' rect rect'
         document' document'' Hm.
  destruct a as [cr sol ld err md tp]. cbn in Hm. subst md.
  cbn -[mountCanvas App.handleSolve utf16].
  assert (Hd : isDirty (mountCanvas ctxAvailable' rect' document'') = false).
  { destruct ctxAvailable'; reflexivity. }
  repeat (split; [first [reflexivity | exact Hd] |]).
  unfold App.handleSolve. cbn -[mountCanvas getImageData utf16].
  rewrite (getImageData_clean rasterize document _ Hd). cbn -[utf16]. auto.
Qed.

(** X20. Solve, then Solve again.  A solution on display narrows the
    canvas panel from 100 to 60 percent.  Once the resize observer has
    reported the new size, the drawing is gone but the ink flag is still
    set, so the second Solve does not report an empty canvas.  When the
    new size has nonzero width and height it sends the solver an image of
    that size without a stroke pixel (all white, or all transparent when
    the temporary canvas hands out no context).  When the new width or
    height is zero it sends nothing and shows the message of the error
    [drawImage] throws (or, when the temporary canvas hands out no
    context, it sends the URL [data:,]). *)
Theorem solving_again_after_the_panel_shrinks_sends_a_blank_image :
  ∀ (rasterize : Rasterizer) (solve : App.Solver) (document document' : Document)
    (a : App.AppState) (canvas : CanvasState) (element : HTMLCanvasElement)
    (solution : App.MathSolution) (entries : list ContentRect) (entry : ContentRect),
    App.inputMode a = App.handwriting →
    App.canvasRef a = Some canvas →
    canvasRef canvas = Some element →
    isDirty canvas = true →
    observing canvas = true →
    App.solution (fst (App.handleSolve solve rasterize document a)) = Some solution →
    let a1 := fst (App.handleSolve solve rasterize document a) in
    let σ2 := appStep rasterize (OnCanvas (Resize (entries ++ [entry]) document'))
                {| app := a1; inFlight := [] |} in
    let a2 := fst (App.handleSolve solve rasterize document (app σ2)) in
    let sent := snd (App.handleSolve solve rasterize document (app σ2)) in
    panelWidth (App.setSolution None a) = 100%nat
    ∧ panelWidth a1 = 60%nat
    ∧ ((0 < rect_width entry)%nat → (0 < rect_height entry)%nat →
       sent
       = [App.solveMathProblem
            (ImageDataURL
               {| mimeType := "image/png";
                  imageWidth := rect_width entry;
                  imageHeight := rect_height entry;
                  pixels := if canvas2d document
                            then whiteBitmap (rect_width entry) (rect_height entry)
                            else blank (rect_width entry) (rect_height entry) |})])
    ∧ (rect_width entry = 0%nat ∨ rect_height entry = 0%nat →
       if canvas2d document
       then sent = []
            ∧ App.error a2
              = Some (utf16 "Failed to solve: " ++ invalidStateMessage document)
       else sent = [App.solveMathProblem EmptyDataURL]).
Proof.
  intros rasterize solve document document' a canvas element solution entries entry
         Hm Hc He Hd Ho Hsol a1 σ2 a2 sent.
  split; [reflexivity |].
  split; [unfold panelWidth; subst a1; now rewrite Hsol |].
  pose proof (handleSolve_phases solve rasterize document a) as Hph.
  pose proof (handleSolveBegin_cases rasterize document a) as Hcases.
  assert (Ha1 : App.canvasRef a1 = Some canvas ∧ App.inputMode a1 = App.handwriting).
  { subst a1. rewrite Hph.
    destruct (handleSolveBegin rasterize document a) as [a' | a' request]; cbn [fst].
    - destruct Hcases as (_ & _ & H3 & _ & H5 & _). split; congruence.
    - destruct Hcases as (_ & _ & _ & H4 & _ & H6 & _).
      unfold handleSolveResume, App.settle, App.catch.
      destruct (solve request); cbn; split; congruence. }
  destruct Ha1 as [Hc1 Hm1].
  set (canvas2 := exec rasterize (Resize (entries ++ [entry]) document') canvas).
  assert (Hres : ∃ element2,
             canvasRef canvas2 = Some element2
             ∧ width element2 = rect_width entry
             ∧ height element2 = rect_height entry
             ∧ bitmap element2 = blank (width element2) (height element2)
             ∧ isDirty canvas2 = true).
  { subst canvas2. unfold exec. cbn [perform]. rewrite bind_run. cbn [get]. rewrite Ho.
    rewrite resizeCallback_snoc.
    destruct (resizeCallback_keeps entries document' canvas) as (H1 & _ & _ & _ & H5 & _).
    set (s0 := snd (resizeCallback entries document' canvas)) in *.
    rewrite He in H1. cbn in H1.
    destruct (canvasRef s0) as [canvas0 |] eqn:E0; [| discriminate].
    unfold resized. rewrite E0. cbn [canvasRef isDirty fmap option_fmap option_map].
    eexists. split; [reflexivity |]. cbn [width height bitmap].
    repeat split; congruence. }
  destruct Hres as (element2 & Hel & Hw & Hh & Hblank & Hdirty).
  assert (Hσ : App.canvasRef (app σ2) = Some canvas2
               ∧ App.inputMode (app σ2) = App.handwriting).
  { subst σ2. cbn [appStep app]. rewrite Hc1. cbn [app].
    destruct a1 as [cr sol ld err md tp]. cbn in Hc1, Hm1 |- *. auto. }
  destruct Hσ as [Hc2 Hm2].
  subst a2 sent. unfold App.handleSolve.
  cbn [App.setSolution App.setError App.setIsLoading App.inputMode App.canvasRef].
  rewrite Hm2, Hc2.
  split.
  - intros Hpw Hph'.
    rewrite (getImageData_blank rasterize document canvas2 element2 Hel Hdirty);
      [| apply isEmpty_false; congruence | exact Hblank].
    cbn [snd]. now rewrite Hw, Hh.
  - intros Hz.
    rewrite (getImageData_empty rasterize document canvas2 element2 Hel Hdirty);
      [| apply isEmpty_true; now rewrite Hw, Hh].
    destruct (canvas2d document); cbn -[utf16]; auto.
Qed.

(** *** Splitting and joining *)
Lemma split_nonempty (sep : N) (s : JSString) : split sep s ≠ [].
Proof.
  induction s as [| c rest IH]; [discriminate |].
  cbn [split]. destruct (c =? sep)%N; [discriminate |].
  destruct (split sep rest); discriminate.
Qed.

Lemma join_cons (sep : N) (part : JSString) (others : list JSString) :
  others ≠ [] →
  join sep (part :: others) = part ++ sep :: join sep others.
Proof. destruct others; [congruence | reflexivity]. Qed.

Lemma join_split (sep : N) (s : JSString) : join sep (split sep s) = s.
Proof.
  induction s as [| c rest IH]; [reflexivity |].
  cbn [split]. destruct (c =? sep)%N eqn:E.
  - apply N.eqb_eq in E. subst c.
    rewrite join_cons by apply split_nonempty. cbn. now rewrite IH.
  - pose proof (split_nonempty sep rest) as Hne.
    destruct (split sep rest) as [| first others]; [congruence |].
    destruct others as [| second others].
    + cbn in IH |- *. now rewrite IH.
    + rewrite join_cons in IH |- * by discriminate.
      now rewrite <- IH.
Qed.

(** X21. The explanation as rendered.  There is one entry per line of the
    explanation (the lines joined by newlines are the explanation).  The
    entry of a blank line renders nothing; the entry of any other line is
    a paragraph whose key is the line number and whose text is the line as
    it is, not trimmed. *)
Theorem explanation_renders_its_nonblank_lines :
  ∀ (explanation : JSString),
    join newline (split newline explanation) = explanation
    ∧ length (explanationSteps explanation) = length (split newline explanation)
    ∧ ∀ index step,
        split newline explanation !! index = Some step →
        explanationSteps explanation !! index
        = Some (if isBlank step then None
                else Some {| key := index; children := step |}).
Proof.
  intros explanation. split; [apply join_split |].
  unfold explanationSteps. split; [apply length_imap |].
  intros index step Hstep. rewrite list_lookup_imap, Hstep. cbn. f_equal.
  destruct (trim step) as [| c rest] eqn:Et.
  - apply trim_empty in Et. now rewrite Et.
  - apply trim_nonempty in Et. now rewrite Et.
Qed.

(** *** The solver service *)

Section ServiceProperties.

Variables Type_OBJECT Type_STRING : JSString.
Variable generateContent :
  GeminiService.GenerateContentParameters → Completion (option JSString).
Variable JSON_parse : JSString → Completion GeminiService.JSON.
Variable numberToString : float → JSString.

Local Abbreviation solveMathProblem :=
  (GeminiService.solveMathProblem Type_OBJECT Type_STRING generateContent JSON_parse
     numberToString).
Local Abbreviation solveMathProblemFromText :=
  (GeminiService.solveMathProblemFromText Type_OBJECT Type_STRING generateContent
     JSON_parse numberToString).
Local Abbreviation config := (GeminiService.config Type_OBJECT Type_STRING).
Local Abbreviation toString := (GeminiService.toString numberToString).
Local Abbreviation reads := (accepts JSON_parse numberToString).
Local Abbreviation tries := (attempt JSON_parse numberToString).

Lemma attempt_accepts (reply : Completion (option JSString)) (solution : App.MathSolution) :
  tries reply = Normal solution ↔ reads reply solution.
Proof.
  unfold attempt, accepts. split.
  - destruct reply as [[text |] | e]; cbn; try discriminate.
    destruct (trim text) as [| c rest] eqn:Et; cbn; [discriminate |].
    destruct (JSON_parse (c :: rest)) as [parsed | e] eqn:Ep; cbn; [| discriminate].
    destruct parsed as [| b | n | s | items | members]; cbn; try discriminate.
    destruct (GeminiService.member (utf16 "expression") members)
      as [[| | | expression | |] |] eqn:E1; try discriminate.
    destruct (GeminiService.member (utf16 "result") members) as [result |] eqn:E2;
      try discriminate.
    destruct (GeminiService.member (utf16 "explanation") members)
      as [[| | | explanation | |] |] eqn:E3; try discriminate.
    destruct (toString result) as [resultText | e] eqn:E4; cbn; [| discriminate].
    intros [= <-].
    exists text, members, expression, result, resultText, explanation.
    repeat split; auto.
    + now apply trim_nonempty in Et.
    + now rewrite Et.
  - intros (text & members & expression & result & resultText & explanation
            & -> & Hb & Hp & H1 & H2 & H3 & H4 & ->).
    cbn. destruct (trim text) as [| c rest] eqn:Et.
    + apply trim_empty in Et. congruence.
    + cbn. rewrite Hp. cbn. now rewrite H1, H2, H4, H3.
Qed.

Lemma solveMathProblemFromText_run (problem : JSString) :
  solveMathProblemFromText problem
  = (match tries (generateContent
                      (config [GeminiService.textPart (GeminiService.textPrompt problem)]))
     with
     | Normal solution => Normal solution
     | Throw _ => Throw couldNotProcess
     end,
     [config [GeminiService.textPart (GeminiService.textPrompt problem)]]).
Proof. reflexivity. Qed.

Lemma solveMathProblem_run (imageDataUrl payload : JSString) :
  split comma imageDataUrl !! 1%nat = Some payload →
  payload ≠ [] →
  solveMathProblem imageDataUrl
  = (match tries (generateContent
                      (config [GeminiService.textPart GeminiService.imagePrompt;
                               GeminiService.imagePart (utf16 "image/png") payload]))
     with
     | Normal solution => Normal solution
     | Throw _ => Throw couldNotProcess
     end,
     [config [GeminiService.textPart GeminiService.imagePrompt;
              GeminiService.imagePart (utf16 "image/png") payload]]).
Proof.
  intros Hp Hne. unfold GeminiService.solveMathProblem.
  rewrite Hp. destruct payload; [congruence |]. reflexivity.
Qed.

Lemma split_without (sep : N) (s : JSString) :
  hasNo sep s = true → split sep s = [s].
Proof.
  unfold hasNo. induction s as [| c rest IH]; [reflexivity |].
  cbn [forallb split]. intros H. apply andb_prop in H as [Hc Hr].
  apply negb_true_iff in Hc. rewrite Hc, (IH Hr). reflexivity.
Qed.

Lemma split_at_first (sep : N) (header rest : JSString) :
  hasNo sep header = true →
  split sep (header ++ sep :: rest) = header :: split sep rest.
Proof.
  unfold hasNo. induction header as [| c header IH]; cbn [forallb].
  - intros _. change ([] ++ sep :: rest) with (sep :: rest).
    cbn [split]. now rewrite N.eqb_refl.
  - intros H. apply andb_prop in H as [Hc Hr].
    apply negb_true_iff in Hc.
    change ((c :: header) ++ sep :: rest) with (c :: (header ++ sep :: rest)).
    cbn [split]. rewrite Hc, (IH Hr). reflexivity.
Qed.

(** X22. The image payload is what stands between the first comma of
    the data URL and the next one.  A URL without a comma, or with nothing
    after its first comma, is rejected with "Invalid image data provided."
    before any request is made; otherwise exactly one request is made, whose
    parts are the instruction text and the payload as inline PNG data. *)
Theorem image_payload_follows_the_first_comma :
  ∀ (header payload : JSString),
    hasNo comma header = true →
    hasNo comma payload = true →
    solveMathProblem header = (Throw invalidImage, [])
    ∧ solveMathProblem (header ++ [comma]) = (Throw invalidImage, [])
    ∧ (payload ≠ [] →
       ∀ rest,
         rest = [] ∨ (∃ more, rest = comma :: more) →
         snd (solveMathProblem (header ++ comma :: payload ++ rest))
         = [config [GeminiService.textPart GeminiService.imagePrompt;
                    GeminiService.imagePart (utf16 "image/png") payload]]).
Proof.
  intros header payload Hh Hp.
  split.
  { unfold GeminiService.solveMathProblem.
    now rewrite (split_without comma header Hh). }
  split.
  { unfold GeminiService.solveMathProblem.
    now rewrite (split_at_first comma header [] Hh). }
  intros Hne rest Hrest.
  rewrite (solveMathProblem_run _ payload); [reflexivity | | exact Hne].
  rewrite (split_at_first comma header _ Hh).
  destruct Hrest as [-> | [more ->]].
  - rewrite app_nil_r. now rewrite (split_without comma payload Hp).
  - now rewrite (split_at_first comma payload more Hp).
Qed.

Lemma solveMathProblem_cases (imageDataUrl : JSString) :
  solveMathProblem imageDataUrl = (Throw invalidImage, [])
  ∨ ∃ payload,
      split comma imageDataUrl !! 1%nat = Some payload
      ∧ payload ≠ []
      ∧ solveMathProblem imageDataUrl
        = (match tries (generateContent
                            (config [GeminiService.textPart GeminiService.imagePrompt;
                                     GeminiService.imagePart (utf16 "image/png") payload]))
           with
           | Normal solution => Normal solution
           | Throw _ => Throw couldNotProcess
           end,
           [config [GeminiService.textPart GeminiService.imagePrompt;
                    GeminiService.imagePart (utf16 "image/png") payload]]).
Proof.
  destruct (split comma imageDataUrl !! 1%nat) as [[| c payload] |] eqn:E.
  - left. unfold GeminiService.solveMathProblem. now rewrite E.
  - right. exists (c :: payload).
    split; [reflexivity |]. split; [discriminate |].
    now apply solveMathProblem_run.
  - left. unfold GeminiService.solveMathProblem. now rewrite E.
Qed.

Lemma masked_outcome (reply : Completion (option JSString)) :
  (∀ solution,
     match tries reply with
     | Normal solution => Normal solution
     | Throw _ => Throw couldNotProcess
     end = Normal solution ↔ reads reply solution)
  ∧ (∀ message,
       match tries reply with
       | Normal solution => Normal solution
       | Throw _ => Throw couldNotProcess
       end = Throw message → message = couldNotProcess).
Proof.
  split.
  - intros solution. rewrite <- attempt_accepts.
    destruct (tries reply); [reflexivity |]. split; discriminate.
  - intros message. destruct (tries reply); [discriminate |]. now intros [= <-].
Qed.

(** [String] of an object that has a member named [toString] throws. *)
Lemma toString_own_toString (members : list (JSString * GeminiService.JSON))
    (v : GeminiService.JSON) :
  GeminiService.member (utf16 "toString") members = Some v →
  toString (GeminiService.JObject members) = Throw (utf16 "TypeError").
Proof. intros H. cbn. now rewrite H. Qed.

(** X23. What [solveMathProblem] can end in.  It makes at most one
    request, and none exactly when it rejects with "Invalid image data
    provided.".  When it makes one, it resolves exactly when the reply is
    one the service accepts, with the solution read from it, and every
    failure (a rejected call, an empty or blank text, text that is not
    JSON, a [null], a missing or ill-typed member, a result that [String]
    cannot convert) ends in one and the same message.  A result that is an
    object with a member named [toString] is such a failure. *)
Theorem image_solver_outcomes :
  ∀ (imageDataUrl : JSString),
    let outcome := fst (solveMathProblem imageDataUrl) in
    let requests := snd (solveMathProblem imageDataUrl) in
    (length requests ≤ 1)%nat
    ∧ (requests = [] ↔ outcome = Throw invalidImage)
    ∧ ∀ request,
        requests = [request] →
        (∀ solution,
           outcome = Normal solution ↔ reads (generateContent request) solution)
        ∧ (∀ message, outcome = Throw message → message = couldNotProcess)
        ∧ (∀ text members inner v,
             generateContent request = Normal (Some text) →
             JSON_parse (trim text) = Normal (GeminiService.JObject members) →
             GeminiService.member (utf16 "result") members
             = Some (GeminiService.JObject inner) →
             GeminiService.member (utf16 "toString") inner = Some v →
             outcome = Throw couldNotProcess).
Proof.
  intros imageDataUrl. cbn zeta.
  destruct (solveMathProblem_cases imageDataUrl) as [-> | (payload & _ & _ & ->)];
    cbn [fst snd].
  - split; [cbn; lia |]. split; [split; reflexivity |]. discriminate.
  - split; [cbn; lia |].
    split.
    { split; [discriminate |].
      destruct (attempt _ _ _); discriminate. }
    intros request [= <-].
    split; [apply masked_outcome |]. split; [apply masked_outcome |].
    intros text members inner v Hg Hp Hr Ht.
    destruct (attempt _ _ _) as [solution |] eqn:Ea; [| reflexivity].
    apply attempt_accepts in Ea.
    destruct Ea as (text' & members' & expression & result & resultText & explanation
                    & Hg' & _ & Hp' & _ & Hr' & Hs' & _).
    rewrite Hg in Hg'. injection Hg' as <-.
    rewrite Hp in Hp'. injection Hp' as <-.
    rewrite Hr in Hr'. injection Hr' as <-.
    rewrite (toString_own_toString inner v Ht) in Hs'. discriminate.
Qed.

(** X24. [solveMathProblemFromText] always makes exactly one request, of
    the one part that carries the prompt, whatever the problem is (the
    empty one included); it resolves exactly when the reply is one the
    service accepts, and every failure ends in the same message as for an
    image. *)
Theorem text_solver_outcomes :
  ∀ (problem : JSString),
    let request := config [GeminiService.textPart (GeminiService.textPrompt problem)] in
    snd (solveMathProblemFromText problem) = [request]
    ∧ (∀ solution,
         fst (solveMathProblemFromText problem) = Normal solution
         ↔ reads (generateContent request) solution)
    ∧ (∀ message,
         fst (solveMathProblemFromText problem) = Throw message →
         message = couldNotProcess).
Proof.
  intros problem. cbn zeta. rewrite solveMathProblemFromText_run. cbn [fst snd].
  split; [reflexivity |]. apply masked_outcome.
Qed.

(** X25. The messages a user can be shown.  With this service behind
    [handleSolve], the error on display afterwards is one of: none, the
    empty canvas, the empty text input, or "Failed to solve: " followed by
    one of the two messages of the service or by the message of the error
    [drawImage] throws on a canvas without pixels. *)
Theorem errors_a_user_can_see :
  ∀ (base64 : Image → JSString) (rasterize : Rasterizer) (document : Document)
    (a : App.AppState),
    let solve := GeminiService.solver Type_OBJECT Type_STRING generateContent
                   JSON_parse numberToString base64 in
    App.error (fst (App.handleSolve solve rasterize document a))
    ∈ [None;
       Some (utf16 "The canvas is empty. Please write a math problem.");
       Some (utf16 "The text input is empty. Please type a math problem.");
       Some (utf16 "Failed to solve: " ++ invalidImage);
       Some (utf16 "Failed to solve: " ++ couldNotProcess);
       Some (utf16 "Failed to solve: " ++ invalidStateMessage document)].
Proof.
  intros base64 rasterize document a solve.
  assert (Hrej : ∀ request message,
             solve request = Throw message →
             message = invalidImage ∨ message = couldNotProcess).
  { intros [url | problem] message; subst solve; cbn [GeminiService.solver].
    - destruct (solveMathProblem_cases (href base64 url))
        as [-> | (payload & _ & _ & ->)]; cbn [fst].
      + intros [= <-]. now left.
      + intros H. right. eapply masked_outcome. exact H.
    - rewrite solveMathProblemFromText_run. cbn [fst].
      intros H. right. eapply masked_outcome. exact H. }
  assert (Hthrow : ∀ canvas message,
             fst (getImageData rasterize document canvas) = Throw message →
             message = invalidStateMessage document).
  { intros canvas message. rewrite getImageData_run. cbn [fst].
    destruct (canvasRef canvas); [| discriminate].
    destruct (isDirty canvas); [| discriminate].
    destruct (canvas2d document); [| discriminate].
    destruct (drawImage _ _ _ _ _); [discriminate |]. now intros [= <-]. }
  rewrite handleSolve_phases.
  pose proof (handleSolveBegin_cases rasterize document a) as H.
  destruct (handleSolveBegin rasterize document a) as [a' | a' request]; cbn [fst].
  - destruct H as (_ & _ & _ & _ & _ & H).
    destruct (App.inputMode a), (App.canvasRef a) as [canvas |].
    + destruct H as [[_ H] | (message & Hg & H)]; rewrite H.
      * repeat constructor.
      * rewrite (Hthrow _ _ Hg). repeat constructor.
    + rewrite H. repeat constructor.
    + destruct H as [_ H]. rewrite H. repeat constructor.
    + destruct H as [_ H]. rewrite H. repeat constructor.
  - destruct H as (_ & _ & He & _).
    unfold handleSolveResume, App.settle, App.catch.
    destruct (solve request) as [solution | message] eqn:Es; cbn.
    + rewrite He. repeat constructor.
    + destruct (Hrej _ _ Es) as [-> | ->]; repeat constructor.
Qed.

(** X26. How a snapshot reaches the API.  The URL [data:,] of a canvas
    without pixels has nothing after its comma: the service refuses it
    with "Invalid image data provided." and makes no request.  Of the URL
    of a PNG image, the payload sent as inline data is the base64 text of
    the file, that text being not empty and free of commas as base64 text
    is. *)
Theorem snapshot_payload :
  ∀ (base64 : Image → JSString) (image : Image),
    solveMathProblem (href base64 EmptyDataURL) = (Throw invalidImage, [])
    ∧ (mimeType image = "image/png"%string →
       hasNo comma (base64 image) = true →
       base64 image ≠ [] →
       snd (solveMathProblem (href base64 (ImageDataURL image)))
       = [config [GeminiService.textPart GeminiService.imagePrompt;
                  GeminiService.imagePart (utf16 "image/png") (base64 image)]]).
Proof.
  intros base64 image. split.
  - unfold GeminiService.solveMathProblem.
    change (href base64 EmptyDataURL) with (utf16 "data:" ++ comma :: []).
    now rewrite (split_at_first comma (utf16 "data:") [] eq_refl).
  - intros Hm Hp Hne. cbn [href]. rewrite Hm.
    change (utf16 "data:" ++ utf16 "image/png" ++ utf16 ";base64," ++ base64 image)
      with (utf16 "data:image/png;base64" ++ comma :: base64 image).
    rewrite (solveMathProblem_run _ (base64 image)); [reflexivity | | exact Hne].
    rewrite (split_at_first comma (utf16 "data:image/png;base64") _ eq_refl).
    now rewrite (split_without comma _ Hp).
Qed.

End ServiceProperties.

(* ===================================================================== *)
(** ** Concrete instances of the further properties *)
(* ===================================================================== *)

Lemma drawingState_reachable : reachable brushRasterizer drawingState.
Proof. apply reachable_run, sampleState_reachable. Qed.

Lemma appReachable_run (rasterize : Rasterizer) (events : list AppEvent) (σ : Session) :
  appReachable rasterize σ → appReachable rasterize (appRun rasterize events σ).
Proof.
  revert σ. induction events as [| e events IH]; intros σ H; [exact H |].
  cbn [appRun foldl]. apply IH. now constructor.
Qed.

Lemma solvingSession_reachable : appReachable brushRasterizer solvingSession.
Proof. apply appReachable_run. constructor. Qed.

Lemma collapsedSession_reachable : appReachable brushRasterizer collapsedSession.
Proof. apply appReachable_run. constructor. Qed.

Lemma resize_applies_the_last_entry_witness :
  let s' := exec brushRasterizer
              (Resize ([{| rect_width := 3; rect_height := 2 |}]
                       ++ [{| rect_width := 8; rect_height := 6 |}]) lightDocument)
              drawingState in
  canvasRef s' = Some sampleCanvas
  ∧ contextRef s' = true
  ∧ observing s' = true
  ∧ isDrawing s' = true
  ∧ isDirty s' = true.
Proof.
  destruct (canvasRef drawingState) as [canvas |] eqn:Ec; [| discriminate Ec].
  pose proof (resize_applies_the_last_entry brushRasterizer
                [{| rect_width := 3; rect_height := 2 |}]
                {| rect_width := 8; rect_height := 6 |} lightDocument drawingState
                canvas Ec eq_refl) as H.
  vm_compute in Ec. injection Ec as <-. exact H.
Defined.

Lemma mount_effect_outcome_witness :
  exec brushRasterizer (Mount false lightDocument) (initialState true sampleRect)
  = initialState true sampleRect
  ∧ let s' := exec brushRasterizer (Mount true lightDocument)
                (initialState true sampleRect) in
    observing s' = true
    ∧ isDrawing s' = false
    ∧ isDirty s' = false
    ∧ contextRef s' = true
    ∧ (context2d <$> canvasRef s') = Some (penContext lightDocument).
Proof.
  destruct (mount_effect_outcome brushRasterizer lightDocument
              (initialState true sampleRect) (freshCanvas true sampleRect) eq_refl)
    as (H0 & H1 & H2 & H3 & H4 & H5).
  split; [exact H0 |]. split; [exact H1 |]. split; [exact H2 |].
  split; [exact H3 |]. split; [exact H4 |].
  cbv zeta. rewrite H5. reflexivity.
Defined.

Lemma ink_flag_changes_only_by_clear_and_begin_witness :
  isDirty (exec brushRasterizer CallClearCanvas inkedState) = false
  ∧ isDirty (exec brushRasterizer
               (Dispatch onMouseDown (MouseEvent 10%float 18.5%float)) sampleState)
    = true
  ∧ beginsStroke (Dispatch onMouseDown (MouseEvent 10%float 18.5%float)) = true
  ∧ contextRef sampleState = true.
Proof.
  destruct (ink_flag_changes_only_by_clear_and_begin brushRasterizer
              (Dispatch onMouseDown (MouseEvent 10%float 18.5%float)) sampleState)
    as [_ H].
  split; [reflexivity |]. split; [reflexivity |].
  exact (H eq_refl eq_refl).
Defined.

Lemma canvas_element_frame_witness :
  ∃ canvas',
    canvasRef (exec brushRasterizer
                 (Dispatch onMouseDown (MouseEvent 10%float 18.5%float)) sampleState)
    = Some canvas'
    ∧ contextAvailable canvas' = true
    ∧ width canvas' = 8%nat ∧ height canvas' = 6%nat
    ∧ getBoundingClientRect canvas' = sampleRect
    ∧ bitmap canvas' = blank 8 6.
Proof.
  destruct (canvas_element_frame brushRasterizer
              (Dispatch onMouseDown (MouseEvent 10%float 18.5%float)) sampleState
              sampleCanvas eq_refl)
    as (canvas' & H1 & H2 & H3 & H4 & H5).
  exists canvas'. split; [exact H1 |]. split; [exact H2 |].
  destruct (H3 eq_refl) as [Hw Hh].
  split; [exact Hw |]. split; [exact Hh |].
  split; [exact (H4 eq_refl) | exact (H5 eq_refl)].
Defined.

Lemma no_begin_no_ink_on_the_raster_witness :
  let s := run brushRasterizer
             (mountTrace ++ [Dispatch onMouseMove (MouseEvent 11%float 18.5%float);
                             Dispatch onMouseUp (MouseEvent 11%float 18.5%float);
                             CallClearCanvas])
             (initialState true sampleRect) in
  isDrawing s = false
  ∧ ∃ canvas, canvasRef s = Some canvas
              ∧ bitmap canvas = blank (width canvas) (height canvas).
Proof.
  apply (no_begin_no_ink_on_the_raster brushRasterizer true sampleRect).
  repeat constructor.
Defined.

Lemma stroke_builds_one_polyline_witness :
  let s1 := run brushRasterizer
              (Dispatch onMouseDown (MouseEvent 10%float 18.5%float)
               :: map (Dispatch onMouseMove)
                    [MouseEvent 11%float 18.5%float; MouseEvent 12%float 19.5%float])
              sampleState in
  let s2 := exec brushRasterizer (Dispatch onMouseUp (MouseEvent 12%float 19.5%float)) s1 in
  isDrawing s1 = true
  ∧ (path ∘ context2d <$> canvasRef s1)
    = Some [{| points := [{| x := 2%float; y := 2%float |};
                          {| x := 3%float; y := 2%float |};
                          {| x := 4%float; y := 3%float |}];
               closed := false |}]
  ∧ isDrawing s2 = false
  ∧ (path ∘ context2d <$> canvasRef s2)
    = Some [{| points := [{| x := 2%float; y := 2%float |};
                          {| x := 3%float; y := 2%float |};
                          {| x := 4%float; y := 3%float |}];
               closed := true |};
            {| points := [{| x := 2%float; y := 2%float |}]; closed := false |}].
Proof.
  apply (stroke_builds_one_polyline brushRasterizer sampleState sampleCanvas
           (MouseEvent 10%float 18.5%float) (MouseEvent 12%float 19.5%float)
           {| clientX := 10%float; clientY := 18.5%float |}
           [MouseEvent 11%float 18.5%float; MouseEvent 12%float 19.5%float]
           [{| clientX := 11%float; clientY := 18.5%float |};
            {| clientX := 12%float; clientY := 19.5%float |}]
           eq_refl eq_refl eq_refl).
  - repeat constructor.
  - reflexivity.
Defined.

Lemma touch_event_without_touches_witness :
  getCoords (TouchEvent []) drawingState = (Throw (utf16 "TypeError"), drawingState)
  ∧ startDrawing (TouchEvent []) drawingState
    = (Throw (utf16 "TypeError"), drawingState)
  ∧ draw brushRasterizer (TouchEvent []) drawingState
    = (Throw (utf16 "TypeError"), drawingState)
  ∧ exec brushRasterizer (Dispatch onTouchMove (TouchEvent [])) drawingState
    = drawingState.
Proof.
  destruct (canvasRef drawingState) as [canvas |] eqn:Ec; [| discriminate Ec].
  destruct (touch_event_without_touches brushRasterizer drawingState canvas Ec)
    as (H1 & H2 & H3 & H4 & _).
  split; [exact H1 |]. split; [exact (H2 eq_refl) |].
  split; [exact (H3 eq_refl eq_refl) |].
  apply H4; discriminate.
Defined.

Lemma clear_during_a_stroke_keeps_the_stroke_witness :
  let s1 := exec brushRasterizer CallClearCanvas drawingState in
  let s2 := exec brushRasterizer
              (Dispatch onMouseMove (MouseEvent 12%float 19.5%float)) s1 in
  isDrawing s1 = true
  ∧ isDirty s2 = false
  ∧ getImageData brushRasterizer lightDocument s2 = (Normal None, s2)
  ∧ (path ∘ context2d <$> canvasRef s2)
    = Some [{| points := [{| x := 2%float; y := 2%float |};
                          {| x := 3%float; y := 2%float |};
                          {| x := 4%float; y := 3%float |}];
               closed := false |}]
  ∧ livePixel s2 0 0 = Some (RGBA 31 41 55 255).
Proof.
  destruct (canvasRef drawingState) as [canvas |] eqn:Ec; [| discriminate Ec].
  pose proof (clear_during_a_stroke_keeps_the_stroke brushRasterizer lightDocument
                drawingState canvas (MouseEvent 12%float 19.5%float)
                {| clientX := 12%float; clientY := 19.5%float |}
                drawingState_reachable Ec eq_refl eq_refl) as H.
  vm_compute in Ec. injection Ec as <-.
  destruct (H eq_refl) as (H1 & _ & H3 & H4 & H5 & H6).
  split; [exact H1 |]. split; [exact H3 |]. split; [exact H4 |].
  split; [cbv zeta; rewrite (option_fmap_compose context2d path), H5; reflexivity |].
  cbv zeta. rewrite (H6 0%nat 0%nat); [reflexivity | cbn; lia | cbn; lia].
Defined.

Lemma handleSolve_text_mode_witness :
  isBlank blankText = true
  ∧ snd (App.handleSolve constantSolver brushRasterizer lightDocument blankTextApp) = []
  ∧ App.error (fst (App.handleSolve constantSolver brushRasterizer lightDocument
                      blankTextApp))
    = Some (utf16 "The text input is empty. Please type a math problem.")
  ∧ snd (App.handleSolve constantSolver brushRasterizer lightDocument textApp)
    = [App.solveMathProblemFromText (utf16 " 2 + 2 ")].
Proof.
  destruct (handleSolve_text_mode constantSolver brushRasterizer lightDocument
              blankTextApp eq_refl) as [H1 _].
  destruct (handleSolve_text_mode constantSolver brushRasterizer lightDocument
              textApp eq_refl) as [_ H2].
  destruct (H1 eq_refl) as (Ha & Hb & _).
  split; [reflexivity |].
  split; [exact Ha |]. split; [exact Hb |]. exact (H2 eq_refl).
Defined.

Lemma handleSolve_shows_the_reply_witness :
  App.error (fst (App.handleSolve rejectingSolver brushRasterizer lightDocument textApp))
  = Some (utf16 "Failed to solve: offline")
  ∧ App.solution (fst (App.handleSolve rejectingSolver brushRasterizer lightDocument
                         textApp)) = None.
Proof.
  destruct (handleSolve_shows_the_reply rejectingSolver brushRasterizer lightDocument
              textApp (App.solveMathProblemFromText (utf16 " 2 + 2 ")) eq_refl)
    as [H _].
  exact (H (utf16 "offline") eq_refl).
Defined.

Lemma handleSolve_sends_the_snapshot_witness :
  (∃ image,
     fst (getImageData brushRasterizer lightDocument inkedState)
     = Normal (Some (ImageDataURL image))
     ∧ mimeType image = "image/png"%string
     ∧ imageWidth image = 8%nat
     ∧ imageHeight image = 6%nat
     ∧ snd (App.handleSolve constantSolver brushRasterizer lightDocument inkedApp)
       = [App.solveMathProblem (ImageDataURL image)])
  ∧ snd (App.handleSolve constantSolver brushRasterizer lightDocument collapsedApp) = []
  ∧ App.error (fst (App.handleSolve constantSolver brushRasterizer lightDocument
                      collapsedApp))
    = Some (utf16 "Failed to solve: " ++ invalidStateMessage lightDocument).
Proof.
  split.
  - destruct (canvasRef inkedState) as [element |] eqn:Ec; [| discriminate Ec].
    destruct (handleSolve_sends_the_snapshot constantSolver brushRasterizer
                lightDocument inkedApp inkedState element eq_refl eq_refl Ec eq_refl)
      as [H _].
    vm_compute in Ec. injection Ec as <-.
    apply H; cbn; lia.
  - destruct (canvasRef collapsedState) as [element |] eqn:Ec; [| discriminate Ec].
    destruct (handleSolve_sends_the_snapshot constantSolver brushRasterizer
                lightDocument collapsedApp collapsedState element eq_refl eq_refl Ec
                eq_refl)
      as [_ H].
    vm_compute in Ec. injection Ec as <-.
    destruct (H (or_introl eq_refl)) as (H1 & H2 & _).
    split; [exact H1 | exact H2].
Defined.

Lemma clear_then_solve_never_calls_the_solver_witness :
  snd (App.handleSolve constantSolver brushRasterizer lightDocument
         (App.handleClear inkedApp)) = []
  ∧ App.error (fst (App.handleSolve constantSolver brushRasterizer lightDocument
                      (App.handleClear inkedApp)))
    = Some (utf16 "The canvas is empty. Please write a math problem.").
Proof.
  destruct (clear_then_solve_never_calls_the_solver brushRasterizer constantSolver
              lightDocument inkedApp) as (H1 & _ & _ & H4).
  - intros canvas [= <-]. exact inkedState_reachable.
  - split; [exact H1 | exact H4].
Defined.

Lemma handleClear_is_idempotent_witness :
  App.handleClear (App.handleClear inkedApp) = App.handleClear inkedApp.
Proof.
  apply (handleClear_is_idempotent brushRasterizer inkedApp).
  intros canvas [= <-]. exact inkedState_reachable.
Defined.

Lemma app_invariant_witness :
  App.isLoading (app solvingSession) = true
  ∧ length (inFlight solvingSession) = 1%nat
  ∧ App.solution (app solvingSession) = None
  ∧ App.error (app solvingSession) = None.
Proof.
  destruct (app_invariant brushRasterizer solvingSession solvingSession_reachable)
    as ([_ H1] & _ & H3 & _).
  assert (Hne : inFlight solvingSession ≠ []) by (vm_compute; discriminate).
  destruct (H3 Hne) as [Hs He].
  split; [exact (H1 Hne) |]. split; [reflexivity |]. split; [exact Hs | exact He].
Defined.

Lemma toolbar_is_inert_while_solving_witness :
  Toolbar.render (App.isLoading (app solvingSession))
  = {| Toolbar.clearDisabled := true; Toolbar.solveDisabled := true;
       Toolbar.spinner := true; Toolbar.solveLabel := "Solving..." |}
  ∧ appStep brushRasterizer (ClickSolve lightDocument) solvingSession = solvingSession
  ∧ appStep brushRasterizer ClickClear solvingSession = solvingSession.
Proof.
  apply (toolbar_is_inert_while_solving brushRasterizer solvingSession lightDocument
           solvingSession_reachable).
  vm_compute. discriminate.
Defined.

Lemma handwriting_solve_is_never_silent_witness :
  (∃ url, snd (App.handleSolve constantSolver brushRasterizer lightDocument
                 (app (appStep brushRasterizer (Settle (Throw (utf16 "offline")))
                         solvingSession)))
          = [App.solveMathProblem url])
  ∧ (snd (App.handleSolve constantSolver brushRasterizer lightDocument
            (app collapsedSession)) = []
     ∧ App.error (fst (App.handleSolve constantSolver brushRasterizer lightDocument
                         (app collapsedSession)))
       = Some (utf16 "Failed to solve: " ++ invalidStateMessage lightDocument)).
Proof.
  destruct (handwriting_solve_is_never_silent brushRasterizer constantSolver
              lightDocument) as [_ H].
  split.
  - destruct (H (appStep brushRasterizer (Settle (Throw (utf16 "offline")))
                   solvingSession))
      as (canvas & element & Hc & He & Hcase).
    + constructor. exact solvingSession_reachable.
    + reflexivity.
    + vm_compute in Hc. injection Hc as <-.
      vm_compute in He. injection He as <-.
      exact Hcase.
  - destruct (H collapsedSession collapsedSession_reachable eq_refl)
      as (canvas & element & Hc & He & Hcase).
    vm_compute in Hc. injection Hc as <-.
    vm_compute in He. injection He as <-.
    exact Hcase.
Defined.

Lemma mode_round_trip_discards_the_drawing_witness :
  let a1 := setInputMode App.text true sampleRect lightDocument inkedApp in
  let a2 := setInputMode App.handwriting true sampleRect lightDocument a1 in
  App.canvasRef a1 = None
  ∧ isDirty inkedState = true
  ∧ (isDirty <$> App.canvasRef a2) = Some false
  ∧ snd (App.handleSolve constantSolver brushRasterizer lightDocument a2) = []
  ∧ App.error (fst (App.handleSolve constantSolver brushRasterizer lightDocument a2))
    = Some (utf16 "The canvas is empty. Please write a math problem.").
Proof.
  destruct (mode_round_trip_discards_the_drawing constantSolver brushRasterizer
              lightDocument inkedApp
              true true sampleRect sampleRect lightDocument lightDocument eq_refl)
    as (H1 & H2 & H3 & _ & _ & _ & _ & H8 & H9).
  split; [exact H1 |]. split; [reflexivity |].
  split; [cbv zeta; rewrite H2; cbn [fmap option_fmap option_map]; now rewrite H3 |].
  split; [exact H8 | exact H9].
Defined.

Lemma solving_again_after_the_panel_shrinks_sends_a_blank_image_witness :
  (let a1 := fst (App.handleSolve constantSolver brushRasterizer lightDocument inkedApp) in
   let σ2 := appStep brushRasterizer
               (OnCanvas (Resize ([] ++ [{| rect_width := 5; rect_height := 6 |}])
                            lightDocument))
               {| app := a1; inFlight := [] |} in
   panelWidth a1 = 60%nat
   ∧ snd (App.handleSolve constantSolver brushRasterizer lightDocument (app σ2))
     = [App.solveMathProblem
          (ImageDataURL
             {| mimeType := "image/png"; imageWidth := 5; imageHeight := 6;
                pixels := whiteBitmap 5 6 |})])
  ∧ (let a1 := fst (App.handleSolve constantSolver brushRasterizer lightDocument
                      inkedApp) in
     let σ2 := appStep brushRasterizer
                 (OnCanvas (Resize ([] ++ [{| rect_width := 0; rect_height := 6 |}])
                              lightDocument))
                 {| app := a1; inFlight := [] |} in
     snd (App.handleSolve constantSolver brushRasterizer lightDocument (app σ2)) = []
     ∧ App.error (fst (App.handleSolve constantSolver brushRasterizer lightDocument
                         (app σ2)))
       = Some (utf16 "Failed to solve: " ++ invalidStateMessage lightDocument)).
Proof.
  destruct (canvasRef inkedState) as [element |] eqn:Ec; [| discriminate Ec].
  split.
  - destruct (solving_again_after_the_panel_shrinks_sends_a_blank_image
                brushRasterizer constantSolver lightDocument lightDocument inkedApp
                inkedState element
                {| App.expression := utf16 "1+1"; App.result := utf16 "2";
                   App.explanation := utf16 "Add." |}
                [] {| rect_width := 5; rect_height := 6 |}
                eq_refl eq_refl Ec eq_refl eq_refl eq_refl)
      as (_ & H2 & H3 & _).
    split; [exact H2 |]. apply H3; cbn; lia.
  - destruct (solving_again_after_the_panel_shrinks_sends_a_blank_image
                brushRasterizer constantSolver lightDocument lightDocument inkedApp
                inkedState element
                {| App.expression := utf16 "1+1"; App.result := utf16 "2";
                   App.explanation := utf16 "Add." |}
                [] {| rect_width := 0; rect_height := 6 |}
                eq_refl eq_refl Ec eq_refl eq_refl eq_refl)
      as (_ & _ & _ & H4).
    exact (H4 (or_introl eq_refl)).
Defined.

Lemma typing_feeds_solve_witness :
  App.textProblem (handleTextChange (utf16 "3*4") blankTextApp) = utf16 "3*4"
  ∧ snd (App.handleSolve constantSolver brushRasterizer lightDocument
           (handleTextChange (utf16 "3*4") blankTextApp))
    = [App.solveMathProblemFromText (utf16 "3*4")]
  ∧ snd (App.handleSolve constantSolver brushRasterizer lightDocument
           (handleTextChange [160%N] textApp))
    = [].
Proof.
  destruct (typing_feeds_solve constantSolver brushRasterizer lightDocument
              (utf16 "3*4") blankTextApp eq_refl)
    as (H1 & _ & _ & _ & _ & H6).
  destruct (typing_feeds_solve constantSolver brushRasterizer lightDocument
              [160%N] textApp eq_refl)
    as (_ & _ & _ & _ & _ & K6).
  split; [exact H1 |]. split; [exact H6 | exact K6].
Defined.

Lemma explanation_renders_its_nonblank_lines_witness :
  let explanation := utf16 "a" ++ [newline; 12288%N; newline] ++ utf16 "b" in
  explanationSteps explanation !! 1%nat = Some None
  ∧ explanationSteps explanation !! 2%nat
    = Some (Some {| key := 2; children := utf16 "b" |}).
Proof.
  intros explanation.
  destruct (explanation_renders_its_nonblank_lines explanation) as (_ & _ & H).
  split.
  - exact (H 1%nat [12288%N] eq_refl).
  - exact (H 2%nat (utf16 "b") eq_refl).
Defined.

Lemma image_payload_follows_the_first_comma_witness :
  GeminiService.solveMathProblem (utf16 "OBJECT") (utf16 "STRING") sampleGenerateContent
    sampleParse sampleNumberToString (utf16 "data:")
  = (Throw invalidImage, [])
  ∧ snd (GeminiService.solveMathProblem (utf16 "OBJECT") (utf16 "STRING")
           sampleGenerateContent sampleParse sampleNumberToString
           (utf16 "data:image/png;base64,iVBORw0KGgo="))
    = [GeminiService.config (utf16 "OBJECT") (utf16 "STRING")
         [GeminiService.textPart GeminiService.imagePrompt;
          GeminiService.imagePart (utf16 "image/png") (utf16 "iVBORw0KGgo=")]].
Proof.
  destruct (image_payload_follows_the_first_comma (utf16 "OBJECT") (utf16 "STRING")
              sampleGenerateContent sampleParse sampleNumberToString
              (utf16 "data:") [] eq_refl eq_refl) as (H1 & _ & _).
  destruct (image_payload_follows_the_first_comma (utf16 "OBJECT") (utf16 "STRING")
              sampleGenerateContent sampleParse sampleNumberToString
              (utf16 "data:image/png;base64") (utf16 "iVBORw0KGgo=") eq_refl eq_refl)
    as (_ & _ & H3).
  split; [exact H1 |].
  apply (H3 ltac:(discriminate) []). now left.
Defined.

Lemma image_solver_outcomes_witness :
  fst (GeminiService.solveMathProblem (utf16 "OBJECT") (utf16 "STRING")
         sampleGenerateContent sampleParse sampleNumberToString
         (utf16 "data:image/png;base64,iVBORw0KGgo="))
  = Normal {| App.expression := utf16 "1+1"; App.result := utf16 "2";
              App.explanation := utf16 "Add." |}
  ∧ fst (GeminiService.solveMathProblem (utf16 "OBJECT") (utf16 "STRING")
           (λ _, Normal (Some (utf16 "{odd}"))) sampleParse sampleNumberToString
           (utf16 "data:image/png;base64,iVBORw0KGgo="))
    = Throw couldNotProcess.
Proof.
  split.
  - destruct (image_solver_outcomes (utf16 "OBJECT") (utf16 "STRING")
                sampleGenerateContent sampleParse sampleNumberToString
                (utf16 "data:image/png;base64,iVBORw0KGgo="))
      as (_ & _ & H).
    destruct (H _ eq_refl) as [H1 _]. apply H1.
    exists (32%N :: utf16 "{ok}" ++ [160%N]). eexists. exists (utf16 "1+1").
    eexists. exists (utf16 "2"), (utf16 "Add.").
    repeat split; reflexivity.
  - destruct (image_solver_outcomes (utf16 "OBJECT") (utf16 "STRING")
                (λ _, Normal (Some (utf16 "{odd}"))) sampleParse sampleNumberToString
                (utf16 "data:image/png;base64,iVBORw0KGgo="))
      as (_ & _ & H).
    destruct (H _ eq_refl) as (_ & _ & H3).
    eapply (H3 (utf16 "{odd}")); reflexivity.
Defined.

Lemma text_solver_outcomes_witness :
  fst (GeminiService.solveMathProblemFromText (utf16 "OBJECT") (utf16 "STRING")
         sampleGenerateContent sampleParse sampleNumberToString (utf16 "1+1"))
  = Normal {| App.expression := utf16 "1+1"; App.result := utf16 "2";
              App.explanation := utf16 "Add." |}.
Proof.
  destruct (text_solver_outcomes (utf16 "OBJECT") (utf16 "STRING") sampleGenerateContent
              sampleParse sampleNumberToString (utf16 "1+1")) as (_ & H1 & _).
  apply H1.
  exists (32%N :: utf16 "{ok}" ++ [160%N]). eexists. exists (utf16 "1+1").
  eexists. exists (utf16 "2"), (utf16 "Add.").
  repeat split; reflexivity.
Defined.

Lemma handleSolve_always_settles_witness :
  App.isLoading (fst (App.handleSolve constantSolver brushRasterizer lightDocument
                        inkedApp)) = false
  ∧ App.solution (fst (App.handleSolve constantSolver brushRasterizer lightDocument
                         inkedApp))
    = Some {| App.expression := utf16 "1+1"; App.result := utf16 "2";
              App.explanation := utf16 "Add." |}
  ∧ ¬ is_Some (App.error (fst (App.handleSolve constantSolver brushRasterizer
                                 lightDocument inkedApp))).
Proof.
  destruct (handleSolve_always_settles constantSolver brushRasterizer lightDocument
              inkedApp)
    as (H1 & _ & _ & _ & _ & H6 & _).
  split; [exact H1 |]. split; [reflexivity |].
  intros He. apply H6. split; [eexists; reflexivity | exact He].
Defined.

Lemma errors_a_user_can_see_witness :
  App.error
    (fst (App.handleSolve
            (GeminiService.solver (utf16 "OBJECT") (utf16 "STRING")
               sampleGenerateContent sampleParse sampleNumberToString sampleBase64)
            brushRasterizer lightDocument collapsedApp))
  = Some (utf16 "Failed to solve: " ++ invalidStateMessage lightDocument)
  ∧ Some (utf16 "Failed to solve: " ++ invalidStateMessage lightDocument)
    ∈ [None;
       Some (utf16 "The canvas is empty. Please write a math problem.");
       Some (utf16 "The text input is empty. Please type a math problem.");
       Some (utf16 "Failed to solve: " ++ invalidImage);
       Some (utf16 "Failed to solve: " ++ couldNotProcess);
       Some (utf16 "Failed to solve: " ++ invalidStateMessage lightDocument)].
Proof.
  pose proof (errors_a_user_can_see (utf16 "OBJECT") (utf16 "STRING")
                sampleGenerateContent sampleParse sampleNumberToString sampleBase64
                brushRasterizer lightDocument collapsedApp) as H.
  split; [reflexivity | exact H].
Defined.

Lemma snapshot_payload_witness :
  let image := {| mimeType := "image/png"; imageWidth := 8; imageHeight := 6;
                  pixels := whiteBitmap 8 6 |} in
  GeminiService.solveMathProblem (utf16 "OBJECT") (utf16 "STRING") sampleGenerateContent
    sampleParse sampleNumberToString (utf16 "data:,")
  = (Throw invalidImage, [])
  ∧ href sampleBase64 (ImageDataURL image) = utf16 "data:image/png;base64,iVBORw0KGgo="
  ∧ snd (GeminiService.solveMathProblem (utf16 "OBJECT") (utf16 "STRING")
           sampleGenerateContent sampleParse sampleNumberToString
           (href sampleBase64 (ImageDataURL image)))
    = [GeminiService.config (utf16 "OBJECT") (utf16 "STRING")
         [GeminiService.textPart GeminiService.imagePrompt;
          GeminiService.imagePart (utf16 "image/png") (utf16 "iVBORw0KGgo=")]].
Proof.
  intros image.
  destruct (snapshot_payload (utf16 "OBJECT") (utf16 "STRING") sampleGenerateContent
              sampleParse sampleNumberToString sampleBase64 image) as [H1 H2].
  split; [exact H1 |]. split; [reflexivity |].
  exact (H2 eq_refl eq_refl ltac:(discriminate)).
Defined.
